(** * Stock-broker dashboard: backend core, shallow embedding

    The development follows the backend sources:
    - [models/User.js]            -> [Module User]
    - [controllers/stockController.js] -> [Module Stocks]
    - [sockets/stockSocket.js]    -> [Module Engine], [Module Rooms], [Module Socket]
    - [controllers/authController.js]  -> [Module Auth]
    - [utils/authMiddleware.js]   -> [Module Gate]
    - [cleanupSubscriptions.js]   -> [Module Cleanup]
    and, of the frontend:
    - [services/api.js], the session kept in web storage -> [Module Client]
    - [context/AuthContext.jsx], the periodic refresh -> [Module AuthContext]
    - the form checks of the registration and login pages
      -> [Module RegisterPage], [Module LoginPage]

    Conventions.
    - JavaScript strings are modelled on their ASCII fragment: on a string
      of ASCII characters ([Str.is_ascii]) the functions of [Module Str]
      and [String.length] are exactly [trim], [toUpperCase], [toLowerCase]
      and [length]. Other characters are carried along unchanged, so no
      white space or letter outside ASCII is recognised; a theorem whose
      statement depends on trimming, case or length of an input takes that
      input to be ASCII, or is stated on the normalised value itself.
    - Times are integers: milliseconds since the epoch ([Date.now()]).
    - Two-decimal numbers (prices, percentages) are held as an integer count
      of hundredths; the double arithmetic in between is done on exact
      rationals.
    - SHA-256 and bcrypt are symbolic: a digest is a free constructor over
      its input, so distinct inputs have distinct digests. *)

From stdpp Require Import gmap strings list pretty.
From Stdlib Require Import Ascii QArith Qround Lqa.

Open Scope string_scope.
Open Scope Z_scope.

#[local] Set Warnings "-clear-no-such-hyp".

(** ** JavaScript string helpers *)
Module Str.

(** The characters of the ASCII range. *)
Definition is_ascii_char (c : ascii) : bool := (nat_of_ascii c <? 128)%nat.

Definition is_ascii (s : string) : bool :=
  forallb is_ascii_char (String.list_ascii_of_string s).

(** White space removed by [String.prototype.trim], ASCII part:
    TAB, LF, VT, FF, CR, SP. *)
Definition is_js_space (c : ascii) : bool :=
  let n := nat_of_ascii c in
  ((9 <=? n) && (n <=? 13))%nat || (n =? 32)%nat.

Fixpoint drop_spaces (l : list ascii) : list ascii :=
  match l with
  | [] => []
  | c :: l' => if is_js_space c then drop_spaces l' else l
  end.

(** [s.trim()] for a string of ASCII characters. *)
Definition trim (s : string) : string :=
  String.string_of_list_ascii
    (List.rev (drop_spaces (List.rev (drop_spaces (String.list_ascii_of_string s))))).

Definition upper_char (c : ascii) : ascii :=
  let n := nat_of_ascii c in
  if ((97 <=? n) && (n <=? 122))%nat then ascii_of_nat (n - 32) else c.

Definition lower_char (c : ascii) : ascii :=
  let n := nat_of_ascii c in
  if ((65 <=? n) && (n <=? 90))%nat then ascii_of_nat (n + 32) else c.

Fixpoint map_chars (f : ascii -> ascii) (s : string) : string :=
  match s with
  | EmptyString => EmptyString
  | String c s' => String (f c) (map_chars f s')
  end.

(** [s.toUpperCase()] and [s.toLowerCase()] for a string of ASCII
    characters. *)
Definition toUpperCase : string -> string := map_chars upper_char.
Definition toLowerCase : string -> string := map_chars lower_char.

(** [s.startsWith(p)] *)
Definition startsWith (p s : string) : bool := String.prefix p s.

(** [arr.includes(x)] on an array of strings *)
Definition includes (x : string) (l : list string) : bool :=
  bool_decide (x ∈ l).

(** JavaScript truthiness of a string value that may be absent. *)
Definition truthy (o : option string) : bool :=
  match o with
  | Some s => negb (String.eqb s "")
  | None => false
  end.

(** The list form of [trim], and what it establishes at either end. *)
Definition trim_list (l : list ascii) : list ascii :=
  List.rev (drop_spaces (List.rev (drop_spaces l))).

Definition no_leading_space (l : list ascii) : Prop :=
  match l with
  | [] => True
  | c :: _ => is_js_space c = false
  end.

(** [s.split(sep)[0]]: the part before the first [sep], the whole string
    when there is none. *)
Fixpoint before_first (sep : ascii) (s : string) : string :=
  match s with
  | EmptyString => EmptyString
  | String c s' => if Ascii.eqb c sep then EmptyString
                   else String c (before_first sep s')
  end.

End Str.

(** ** A matcher for the e-mail pattern of the user schema

    Regular expressions with Brzozowski derivatives; enough for
    [/^\w+([.-]?\w+)*@\w+([.-]?\w+)*(\.\w{2,3})+$/]. *)
Module Regex.

Inductive re : Type :=
| Void
| Eps
| Chr (p : ascii -> bool)
| Cat (r1 r2 : re)
| Alt (r1 r2 : re)
| Star (r : re).

Fixpoint nullable (r : re) : bool :=
  match r with
  | Void => false
  | Eps => true
  | Chr _ => false
  | Cat r1 r2 => nullable r1 && nullable r2
  | Alt r1 r2 => nullable r1 || nullable r2
  | Star _ => true
  end.

Fixpoint deriv (c : ascii) (r : re) : re :=
  match r with
  | Void => Void
  | Eps => Void
  | Chr p => if p c then Eps else Void
  | Cat r1 r2 =>
      if nullable r1
      then Alt (Cat (deriv c r1) r2) (deriv c r2)
      else Cat (deriv c r1) r2
  | Alt r1 r2 => Alt (deriv c r1) (deriv c r2)
  | Star r1 => Cat (deriv c r1) (Star r1)
  end.

Fixpoint matches (r : re) (s : string) : bool :=
  match s with
  | EmptyString => nullable r
  | String c s' => matches (deriv c r) s'
  end.

Definition Plus (r : re) : re := Cat r (Star r).
Definition Opt (r : re) : re := Alt Eps r.

(** [\w] is [[A-Za-z0-9_]] *)
Definition is_word (c : ascii) : bool :=
  let n := nat_of_ascii c in
  (((65 <=? n) && (n <=? 90)) || ((97 <=? n) && (n <=? 122))
   || ((48 <=? n) && (n <=? 57)) || (n =? 95))%nat.

Definition is_char (d : ascii) (c : ascii) : bool := Ascii.eqb c d.
Definition is_dot_or_dash (c : ascii) : bool :=
  Ascii.eqb c "."%char || Ascii.eqb c "-"%char.

Definition w : re := Chr is_word.
Definition local_part : re :=
  Cat (Plus w) (Star (Cat (Opt (Chr is_dot_or_dash)) (Plus w))).

Definition email_re : re :=
  Cat local_part
    (Cat (Chr (is_char "@"%char))
       (Cat local_part
          (Plus (Cat (Chr (is_char "."%char)) (Cat w (Cat w (Opt w))))))).

End Regex.

(** ** Tokens and digests *)
Module Crypto.

Definition Secret : Type := string.

(** Claims of a JSON web token: [{ id, type, iat, exp }]; [iat] and [exp]
    are in seconds. [p_type] is [None] when the payload has no [type]. *)
Record Payload : Type := mkPayload {
  p_id : N;
  p_type : option string;
  p_iat : Z;
  p_exp : Z
}.

(** The string sent by a client: either not a token at all, or a payload
    together with the key of its HS256 signature. Equal payloads signed
    with equal keys are the same string. *)
Inductive RawToken : Type :=
| Garbage (s : string)
| Jwt (p : Payload) (key : Secret).

(** [crypto.createHash('sha256').update(t).digest('hex')] *)
Inductive Digest : Type :=
| Sha256Hex (t : RawToken).

Definition sha256 (t : RawToken) : Digest := Sha256Hex t.

(** [bcrypt.hash(plain, salt)] *)
Inductive PwHash : Type :=
| Bcrypt (salt : string) (plain : string).

(** bcrypt keys on the first 72 bytes of the password and ignores what
    follows. *)
Definition bcrypt_key (plain : string) : string := String.substring 0 72 plain.

(** [bcrypt.compare(candidate, hash)]: equal keys give equal hashes;
    distinct keys are taken never to collide. *)
Definition bcrypt_compare (candidate : string) (h : PwHash) : bool :=
  match h with
  | Bcrypt _ plain => String.eqb (bcrypt_key candidate) (bcrypt_key plain)
  end.

#[global] Instance payload_eq_dec : EqDecision Payload.
Proof. solve_decision. Defined.
#[global] Instance rawtoken_eq_dec : EqDecision RawToken.
Proof. solve_decision. Defined.
#[global] Instance digest_eq_dec : EqDecision Digest.
Proof. solve_decision. Defined.

End Crypto.

(** ** The [jsonwebtoken] calls used by the backend *)
Module Jwt.
Import Crypto.

Inductive VerifyError : Type :=
| TokenExpiredError
| JsonWebTokenError.

(** Seconds of a millisecond clock: [Math.floor(Date.now() / 1000)]. *)
Definition seconds (now : Z) : Z := now / 1000.

(** [jwt.sign({ id, type }, secret, { expiresIn })] at clock [now];
    [expiresIn] in seconds. *)
Definition sign (id : N) (type : string) (secret : Secret)
    (expiresIn : Z) (now : Z) : RawToken :=
  let iat := seconds now in
  Jwt {| p_id := id; p_type := Some type; p_iat := iat;
         p_exp := iat + expiresIn |} secret.

(** [jwt.verify(token, secret)] at clock [now]: the signature first,
    then the expiry. *)
Definition verify (t : RawToken) (secret : Secret) (now : Z)
    : VerifyError + Payload :=
  match t with
  | Garbage _ => inl JsonWebTokenError
  | Jwt p key =>
      if String.eqb key secret
      then if p_exp p <=? seconds now then inl TokenExpiredError else inr p
      else inl JsonWebTokenError
  end.

End Jwt.

(** ** models/User.js *)
Module User.
Import Crypto.

Record t : Type := mk {
  _id : N;
  name : string;
  email : string;
  password : PwHash;
  subscribedStocks : list string;
  refreshToken : option Digest;
  refreshTokenExpiry : option Z;
  lastLogin : option Z;
  loginAttempts : Z;
  lockUntil : option Z;
  passwordChangedAt : option Z;
  isActive : bool;
  createdAt : Z
}.

(** The collection, in insertion order. *)
Definition Collection : Type := list t.

Definition findById (id : N) (db : Collection) : option t :=
  List.find (fun u => N.eqb (_id u) id) db.

Definition findOne (p : t -> bool) (db : Collection) : option t :=
  List.find p db.

(** Apply an update to the stored document with the given id. *)
Definition updateById (id : N) (f : t -> t) (db : Collection) : Collection :=
  List.map (fun u => if N.eqb (_id u) id then f u else u) db.

(** *** Schema setters and validators *)

Definition enum_values : list string :=
  ["AAPL"; "GOOG"; "TSLA"; "AMZN"; "META"; "NVDA"; "MSFT"].

Definition set_name (s : string) : string := Str.trim s.
Definition set_email (s : string) : string := Str.toLowerCase (Str.trim s).

(** A failed validator: the path and the message of the schema. *)
Definition ValidatorError : Type := (string * string)%type.

Definition validate_name (s : string) : list ValidatorError :=
  if String.eqb s "" then [("name", "Please provide your name")]
  else if (String.length s <? 2)%nat
       then [("name", "Name must be at least 2 characters")]
  else if (50 <? String.length s)%nat
       then [("name", "Name cannot exceed 50 characters")]
  else [].

Definition validate_email (s : string) : list ValidatorError :=
  if String.eqb s "" then [("email", "Please provide your email")]
  else if Regex.matches Regex.email_re s then []
  else [("email", "Please provide a valid email")].

Definition validate_password (s : string) : list ValidatorError :=
  if String.eqb s "" then [("password", "Please provide a password")]
  else if (String.length s <? 6)%nat
       then [("password", "Password must be at least 6 characters")]
  else [].

Definition validate_subscribedStocks (l : list string) : list ValidatorError :=
  omap (fun v => if Str.includes v enum_values then None
                 else Some ("subscribedStocks", v +:+ " is not a supported stock"))
       l.

(** Validation run by [save()] on a document loaded without its password:
    every loaded path is checked. *)
Definition validate_loaded (u : t) : list ValidatorError :=
  (validate_name (name u) ++ validate_email (email u)
     ++ validate_subscribedStocks (subscribedStocks u))%list.

(** *** Instance methods *)

Definition comparePassword (candidatePassword : string) (u : t) : bool :=
  bcrypt_compare candidatePassword (password u).

(** [parseInt(ms / 1000, 10)] truncates. *)
Definition changedPasswordAfter (JWTTimestamp : Z) (u : t) : bool :=
  match passwordChangedAt u with
  | Some changed => JWTTimestamp <? Z.quot changed 1000
  | None => false
  end.

Definition isLocked (now : Z) (u : t) : bool :=
  match lockUntil u with
  | Some l => now <? l
  | None => false
  end.

Definition set_loginAttempts (n : Z) (u : t) : t :=
  mk (_id u) (name u) (email u) (password u) (subscribedStocks u)
     (refreshToken u) (refreshTokenExpiry u) (lastLogin u) n
     (lockUntil u) (passwordChangedAt u) (isActive u) (createdAt u).

Definition set_lockUntil (l : option Z) (u : t) : t :=
  mk (_id u) (name u) (email u) (password u) (subscribedStocks u)
     (refreshToken u) (refreshTokenExpiry u) (lastLogin u) (loginAttempts u)
     l (passwordChangedAt u) (isActive u) (createdAt u).

Definition set_lastLogin (l : option Z) (u : t) : t :=
  mk (_id u) (name u) (email u) (password u) (subscribedStocks u)
     (refreshToken u) (refreshTokenExpiry u) l (loginAttempts u)
     (lockUntil u) (passwordChangedAt u) (isActive u) (createdAt u).

Definition set_subscribedStocks (l : list string) (u : t) : t :=
  mk (_id u) (name u) (email u) (password u) l
     (refreshToken u) (refreshTokenExpiry u) (lastLogin u) (loginAttempts u)
     (lockUntil u) (passwordChangedAt u) (isActive u) (createdAt u).

Definition set_refresh (d : option Digest) (e : option Z) (u : t) : t :=
  mk (_id u) (name u) (email u) (password u) (subscribedStocks u)
     d e (lastLogin u) (loginAttempts u)
     (lockUntil u) (passwordChangedAt u) (isActive u) (createdAt u).

(** [this.lockUntil && this.lockUntil < Date.now()] *)
Definition lockExpired (now : Z) (u : t) : bool :=
  match lockUntil u with
  | Some l => l <? now
  | None => false
  end.

(** [incLoginAttempts]: the update sent to the store is computed from the
    in-memory document [u]; [$inc] acts on the stored counter. *)
Definition incLoginAttempts (now : Z) (u : t) (db : Collection) : Collection :=
  if lockExpired now u
  then updateById (_id u)
         (fun d => set_lockUntil None (set_loginAttempts 1 d)) db
  else updateById (_id u)
         (fun d =>
            let d' := set_loginAttempts (loginAttempts d + 1) d in
            if 5 <=? loginAttempts u + 1
            then set_lockUntil (Some (now + 2 * 60 * 60 * 1000)) d'
            else d') db.

Definition resetLoginAttempts (now : Z) (u : t) (db : Collection) : Collection :=
  updateById (_id u)
    (fun d => set_lockUntil None (set_lastLogin (Some now) (set_loginAttempts 0 d)))
    db.

(** The pre-save hook on a stored document whose password was assigned:
    the password is hashed and [passwordChangedAt] is put one second back. *)
Definition set_password (h : PwHash) (changedAt : option Z) (u : t) : t :=
  mk (_id u) (name u) (email u) h (subscribedStocks u)
     (refreshToken u) (refreshTokenExpiry u) (lastLogin u) (loginAttempts u)
     (lockUntil u) changedAt (isActive u) (createdAt u).

Definition hash_changed_password (salt plain : string) (now : Z) (u : t) : t :=
  set_password (Bcrypt salt plain) (Some (now - 1000)) u.

End User.

(** ** Responses of the HTTP handlers *)
Module Http.
Import Crypto.

Record UserView : Type := mkUserView {
  v_id : N;
  v_name : string;
  v_email : string;
  v_subscribedStocks : list string;
  v_lastLogin : option Z
}.

(** The [data] member of a JSON response. *)
Inductive Data : Type :=
| NoData
| TickerList (l : list string)
| Registered (id : N) (name email : string)
| Session (accessToken : RawToken) (refreshToken : option RawToken)
    (expiresIn : Z) (user : UserView)
| Tokens (accessToken refreshToken : RawToken) (expiresIn : Z).

(** [res.status(s).json({ success, message, code, data })], with the
    refresh-token cookie when the handler sets one. *)
Record Response : Type := mkResponse {
  status : Z;
  success : bool;
  message : option string;
  code : option string;
  data : Data;
  cookie : option RawToken
}.

Definition fail (s : Z) (msg : string) : Response :=
  mkResponse s false (Some msg) None NoData None.

Definition fail_code (s : Z) (msg c : string) : Response :=
  mkResponse s false (Some msg) (Some c) NoData None.

Definition ok (s : Z) (msg : option string) (d : Data) : Response :=
  mkResponse s true msg None d None.

End Http.

(** ** controllers/stockController.js *)
Module Stocks.
Import Http.

Definition SUPPORTED_STOCKS : list string :=
  ["AAPL"; "GOOG"; "TSLA"; "AMZN"; "META"; "NVDA"; "MSFT"].

(** [String(ticker || '').trim().toUpperCase()] *)
Definition normalize (ticker : option string) : string :=
  Str.toUpperCase (Str.trim (default "" ticker)).

(** [!normalizedTicker || !SUPPORTED_STOCKS.includes(normalizedTicker)] *)
Definition unsupported (normalizedTicker : string) : bool :=
  String.eqb normalizedTicker ""
  || negb (Str.includes normalizedTicker SUPPORTED_STOCKS).

Definition invalid_ticker : Response :=
  fail 400 "Invalid stock ticker. Supported: AAPL, GOOG, TSLA, AMZN, META, NVDA, MSFT".

Definition server_error : Response := fail 500 "Server error".

Definition getSupportedStocks : Response :=
  ok 200 None (TickerList SUPPORTED_STOCKS).

Definition getSubscribedStocks (db : User.Collection) (userId : N) : Response :=
  match User.findById userId db with
  | Some user => ok 200 None (TickerList (User.subscribedStocks user))
  | None => server_error
  end.

(** The handler from its validation on, for a given value of
    [normalizedTicker]. [userId] is [req.user.id]. A missing user document
    makes [user.subscribedStocks] throw, and a failed validation makes
    [save()] throw; both end in the [catch] block. *)
Definition subscribeStock_at (db : User.Collection) (userId : N)
    (normalizedTicker : string) : Response * User.Collection :=
  if unsupported normalizedTicker
  then (invalid_ticker, db)
  else
    match User.findById userId db with
    | None => (server_error, db)
    | Some user =>
        if Str.includes normalizedTicker (User.subscribedStocks user)
        then (fail 400 ("Already subscribed to " +:+ normalizedTicker), db)
        else
          let stocks := (User.subscribedStocks user ++ [normalizedTicker])%list in
          let user' := User.set_subscribedStocks stocks user in
          match User.validate_loaded user' with
          | [] =>
              (ok 200 (Some ("Successfully subscribed to " +:+ normalizedTicker))
                  (TickerList (User.subscribedStocks user')),
               User.updateById userId (User.set_subscribedStocks stocks) db)
          | _ :: _ => (server_error, db)
          end
    end.

(** [ticker] is [req.body.ticker]. *)
Definition subscribeStock (db : User.Collection) (userId : N)
    (ticker : option string) : Response * User.Collection :=
  subscribeStock_at db userId (normalize ticker).

Definition unsubscribeStock_at (db : User.Collection) (userId : N)
    (normalizedTicker : string) : Response * User.Collection :=
  if unsupported normalizedTicker
  then (invalid_ticker, db)
  else
    match User.findById userId db with
    | None => (server_error, db)
    | Some user =>
        if negb (Str.includes normalizedTicker (User.subscribedStocks user))
        then (fail 400 ("Not subscribed to " +:+ normalizedTicker), db)
        else
          let stocks :=
            List.filter (fun s => negb (String.eqb s normalizedTicker))
                        (User.subscribedStocks user) in
          let user' := User.set_subscribedStocks stocks user in
          match User.validate_loaded user' with
          | [] =>
              (ok 200 (Some ("Successfully unsubscribed from " +:+ normalizedTicker))
                  (TickerList (User.subscribedStocks user')),
               User.updateById userId (User.set_subscribedStocks stocks) db)
          | _ :: _ => (server_error, db)
          end
    end.

Definition unsubscribeStock (db : User.Collection) (userId : N)
    (ticker : option string) : Response * User.Collection :=
  unsubscribeStock_at db userId (normalize ticker).

End Stocks.

(** ** controllers/authController.js *)
Module Auth.
Import Crypto Http.

(** [process.env]: a variable that is unset or empty is falsy. *)
Record Env : Type := mkEnv {
  env_JWT_SECRET : option string;
  env_JWT_REFRESH_SECRET : option string
}.

Definition JWT_SECRET (env : Env) : option Secret :=
  if Str.truthy (env_JWT_SECRET env) then env_JWT_SECRET env else None.

(** [process.env.JWT_REFRESH_SECRET || JWT_SECRET] *)
Definition JWT_REFRESH_SECRET (env : Env) : option Secret :=
  if Str.truthy (env_JWT_REFRESH_SECRET env) then env_JWT_REFRESH_SECRET env
  else JWT_SECRET env.

Definition not_configured : string := "JWT_SECRET is not configured".

(** 15 minutes and 7 days, in seconds. *)
Definition generateAccessToken (env : Env) (userId : N) (now : Z)
    : string + RawToken :=
  match JWT_SECRET env with
  | None => inl not_configured
  | Some secret => inr (Jwt.sign userId "access" secret (15 * 60) now)
  end.

Definition generateRefreshToken (env : Env) (userId : N) (now : Z)
    : string + RawToken :=
  match JWT_REFRESH_SECRET env with
  | None => inl not_configured
  | Some secret => inr (Jwt.sign userId "refresh" secret (7 * 24 * 60 * 60) now)
  end.

Definition seven_days_ms : Z := 7 * 24 * 60 * 60 * 1000.

(** A raw token taken from a cookie, a body or a header is falsy when it
    is absent or the empty string. *)
Definition present (t : option RawToken) : option RawToken :=
  match t with
  | Some (Garbage "") => None
  | _ => t
  end.

(** *** register *)

Record RegisterBody : Type := mkRegisterBody {
  rb_name : option string;
  rb_email : option string;
  rb_password : option string
}.

(** The message of a Mongoose [ValidationError]. *)
Fixpoint join_errors (l : list User.ValidatorError) : string :=
  match l with
  | [] => ""
  | [(path, msg)] => path +:+ ": " +:+ msg
  | (path, msg) :: l' => path +:+ ": " +:+ msg +:+ ", " +:+ join_errors l'
  end.

Definition validation_message (l : list User.ValidatorError) : string :=
  "User validation failed: " +:+ join_errors l.

(** [User.create({ name, email, password })]: setters, validators, then
    the pre-save hook hashing the password with a fresh [salt]. The
    document gets the identifier [newId]. *)
Definition create (newId : N) (salt : string) (now : Z)
    (name email password : string)
    : list User.ValidatorError + User.t :=
  let name' := User.set_name name in
  let email' := User.set_email email in
  match (User.validate_name name' ++ User.validate_email email'
         ++ User.validate_password password)%list with
  | [] =>
      inr (User.mk newId name' email' (Bcrypt salt password) []
             None None None 0 None None true now)
  | e :: l => inl (e :: l)
  end.

(** The filter [{ email }] is cast with the setters of the schema. *)
Definition findByEmail (email : string) (db : User.Collection) : option User.t :=
  User.findOne (fun u => String.eqb (User.email u) (User.set_email email)) db.

Definition register (db : User.Collection) (newId : N) (salt : string)
    (now : Z) (body : RegisterBody) : Response * User.Collection :=
  if negb (Str.truthy (rb_name body) && Str.truthy (rb_email body)
           && Str.truthy (rb_password body))
  then (fail 400 "Please provide name, email and password", db)
  else
    let name := default "" (rb_name body) in
    let email := default "" (rb_email body) in
    let password := default "" (rb_password body) in
    if (String.length password <? 6)%nat
    then (fail 400 "Password must be at least 6 characters", db)
    else
      match findByEmail email db with
      | Some _ => (fail 400 "User with this email already exists", db)
      | None =>
          match create newId salt now name email password with
          | inl errors => (fail 500 (validation_message errors), db)
          | inr user =>
              (ok 201 (Some "Registration successful! Please login.")
                  (Registered (User._id user) (User.name user) (User.email user)),
               (db ++ [user])%list)
          end
      end.

(** *** login *)

Record LoginBody : Type := mkLoginBody {
  lb_email : option string;
  lb_password : option string;
  lb_rememberMe : bool
}.

(** [Math.ceil((user.lockUntil - Date.now()) / (60 * 1000))] *)
Definition lockTimeRemaining (now lockUntil : Z) : Z :=
  - ((now - lockUntil) / (60 * 1000)).

Definition locked_message (minutes : Z) : string :=
  "Account is locked due to too many failed attempts. Try again in "
    +:+ pretty minutes +:+ " minutes.".

Definition view (u : User.t) : UserView :=
  mkUserView (User._id u) (User.name u) (User.email u)
    (User.subscribedStocks u) (User.lastLogin u).

(** Every [Date.now()] of one request reads the same clock value [now]. *)
Definition login (env : Env) (db : User.Collection) (now : Z)
    (body : LoginBody) : Response * User.Collection :=
  if negb (Str.truthy (lb_email body) && Str.truthy (lb_password body))
  then (fail 400 "Please provide email and password", db)
  else
    let email := default "" (lb_email body) in
    let password := default "" (lb_password body) in
    match findByEmail email db with
    | None => (fail 401 "Invalid email or password", db)
    | Some user =>
        if negb (User.isActive user)
        then (fail 401 "Account has been deactivated. Please contact support.", db)
        else if User.isLocked now user
        then (fail 423 (locked_message
                          (lockTimeRemaining now (default 0 (User.lockUntil user)))),
              db)
        else if negb (User.comparePassword password user)
        then (fail 401 "Invalid email or password",
              User.incLoginAttempts now user db)
        else
          let db1 := User.resetLoginAttempts now user db in
          match generateAccessToken env (User._id user) now with
          | inl msg => (fail 500 msg, db1)
          | inr accessToken =>
              match generateRefreshToken env (User._id user) now with
              | inl msg => (fail 500 msg, db1)
              | inr refreshToken =>
                  let db2 :=
                    User.updateById (User._id user)
                      (User.set_refresh (Some (sha256 refreshToken))
                                        (Some (now + seven_days_ms))) db1 in
                  (mkResponse 200 true (Some "Login successful") None
                     (Session accessToken
                        (if lb_rememberMe body then Some refreshToken else None)
                        (15 * 60 * 1000) (view user))
                     (Some refreshToken),
                   db2)
              end
          end
    end.

(** *** refreshToken *)

Definition expiry_in_future (now : Z) (u : User.t) : bool :=
  match User.refreshTokenExpiry u with
  | Some e => now <? e
  | None => false
  end.

(** [cookie] is [req.cookies?.refreshToken], [body] is
    [req.body.refreshToken]. *)
Definition refreshToken (env : Env) (db : User.Collection) (now : Z)
    (cookie body : option RawToken) : Response * User.Collection :=
  let presented :=
    match present cookie with
    | Some t => Some t
    | None => present body
    end in
  match presented with
  | None => (fail 401 "Refresh token not provided", db)
  | Some token =>
      let verified :=
        match JWT_REFRESH_SECRET env with
        | Some secret => Jwt.verify token secret now
        | None => inl Jwt.JsonWebTokenError
        end in
      match verified with
      | inl _ => (fail 401 "Invalid or expired refresh token", db)
      | inr decoded =>
          let refreshTokenHash := sha256 token in
          match User.findOne
                  (fun u => N.eqb (User._id u) (p_id decoded)
                            && bool_decide (User.refreshToken u = Some refreshTokenHash)
                            && expiry_in_future now u) db with
          | None => (fail 401 "Invalid refresh token or token expired", db)
          | Some user =>
              match generateAccessToken env (User._id user) now with
              | inl _ => (fail 500 "Server error during token refresh", db)
              | inr newAccessToken =>
                  match generateRefreshToken env (User._id user) now with
                  | inl _ => (fail 500 "Server error during token refresh", db)
                  | inr newRefreshToken =>
                      (mkResponse 200 true None None
                         (Tokens newAccessToken newRefreshToken (15 * 60 * 1000))
                         (Some newRefreshToken),
                       User.updateById (User._id user)
                         (User.set_refresh (Some (sha256 newRefreshToken))
                                           (Some (now + seven_days_ms))) db)
                  end
              end
          end
      end
  end.

(** *** emailLogin *)

Record EmailLoginBody : Type := mkEmailLoginBody {
  eb_email : option string;
  eb_rememberMe : bool
}.

(** [randomPassword] is [crypto.randomBytes(12).toString('hex')], [newId]
    and [salt] are used when the user has to be created. *)
Definition emailLogin (env : Env) (db : User.Collection) (newId : N)
    (salt randomPassword : string) (now : Z) (body : EmailLoginBody)
    : Response * User.Collection :=
  if negb (Str.truthy (eb_email body))
  then (fail 400 "Please provide email", db)
  else
    let normalizedEmail :=
      Str.toLowerCase (Str.trim (default "" (eb_email body))) in
    let provisioned : list User.ValidatorError + (User.t * User.Collection) :=
      match findByEmail normalizedEmail db with
      | Some user => inr (user, db)
      | None =>
          let local := Str.before_first "@"%char normalizedEmail in
          let nameFromEmail := if String.eqb local "" then "User" else local in
          match create newId salt now
                  (if (2 <=? String.length nameFromEmail)%nat
                   then nameFromEmail else "User")
                  normalizedEmail randomPassword with
          | inl errors => inl errors
          | inr created =>
              (* the reload by id; the document was just inserted *)
              let db' := (db ++ [created])%list in
              inr (default created (User.findById (User._id created) db'), db')
          end
      end in
    match provisioned with
    | inl errors => (fail 500 (validation_message errors), db)
    | inr (user, db1) =>
        if negb (User.isActive user)
        then (fail 401 "Account has been deactivated. Please contact support.", db1)
        else
          match generateAccessToken env (User._id user) now with
          | inl msg => (fail 500 msg, db1)
          | inr accessToken =>
              match generateRefreshToken env (User._id user) now with
              | inl msg => (fail 500 msg, db1)
              | inr refreshToken =>
                  (mkResponse 200 true (Some "Login successful") None
                     (Session accessToken
                        (if eb_rememberMe body then Some refreshToken else None)
                        (15 * 60 * 1000) (view user))
                     (Some refreshToken),
                   User.updateById (User._id user)
                     (User.set_refresh (Some (sha256 refreshToken))
                                       (Some (now + seven_days_ms))) db1)
              end
          end
    end.

(** *** logout *)

(** [reqUser] is [req.user.id] when [req.user] is set. The cookie is set
    to the empty string. *)
Definition logout (db : User.Collection) (reqUser : option N)
    : Response * User.Collection :=
  (mkResponse 200 true (Some "Logged out successfully") None NoData
     (Some (Garbage "")),
   match reqUser with
   | Some id => User.updateById id (User.set_refresh None None) db
   | None => db
   end).

(** *** changePassword *)

Record ChangePasswordBody : Type := mkChangePasswordBody {
  cb_currentPassword : option string;
  cb_newPassword : option string
}.

(** [userId] is [req.user.id]; [salt] is the salt drawn by the pre-save
    hook. A missing user document and a failed validation both end in the
    [catch] block. *)
Definition changePassword (db : User.Collection) (userId : N) (salt : string)
    (now : Z) (body : ChangePasswordBody) : Response * User.Collection :=
  if negb (Str.truthy (cb_currentPassword body) && Str.truthy (cb_newPassword body))
  then (fail 400 "Please provide current and new password", db)
  else
    let currentPassword := default "" (cb_currentPassword body) in
    let newPassword := default "" (cb_newPassword body) in
    if (String.length newPassword <? 6)%nat
    then (fail 400 "New password must be at least 6 characters", db)
    else
      match User.findById userId db with
      | None => (fail 500 "Server error", db)
      | Some user =>
          if negb (User.comparePassword currentPassword user)
          then (fail 401 "Current password is incorrect", db)
          else
            match (User.validate_loaded user
                   ++ User.validate_password newPassword)%list with
            | _ :: _ => (fail 500 "Server error", db)
            | [] =>
                let db1 :=
                  User.updateById userId
                    (User.hash_changed_password salt newPassword now) db in
                (mkResponse 200 true
                   (Some "Password changed successfully. Please login again.")
                   None NoData None,
                 User.updateById userId (User.set_refresh None None) db1)
            end
      end.

End Auth.

(** ** utils/authMiddleware.js *)
Module Gate.
Import Crypto Http.

(** Either the request goes on with [req.user] set, or it is answered. *)
Inductive Outcome : Type :=
| Next (user : User.t)
| Reply (r : Response).

(** [token] is the second field of an [Authorization: Bearer ...] header,
    [None] when there is no such header. *)
Definition protect (env : Auth.Env) (db : User.Collection) (now : Z)
    (token : option RawToken) : Outcome :=
  match Auth.present token with
  | None => Reply (fail_code 401 "Not authorized to access this route" "NO_TOKEN")
  | Some t =>
      match Auth.JWT_SECRET env with
      | None => Reply (fail 500 "Server configuration error")
      | Some secret =>
          match Jwt.verify t secret now with
          | inl Jwt.TokenExpiredError =>
              Reply (fail_code 401 "Token has expired" "TOKEN_EXPIRED")
          | inl Jwt.JsonWebTokenError =>
              Reply (fail_code 401 "Invalid token" "INVALID_TOKEN")
          | inr decoded =>
              if Str.truthy (p_type decoded)
                 && negb (bool_decide (p_type decoded = Some "access"))
              then Reply (fail_code 401 "Invalid token type" "INVALID_TOKEN_TYPE")
              else
                match User.findById (p_id decoded) db with
                | None => Reply (fail_code 401 "User not found" "USER_NOT_FOUND")
                | Some user =>
                    if negb (User.isActive user)
                    then Reply (fail_code 401 "User account is deactivated"
                                          "ACCOUNT_DEACTIVATED")
                    else if User.changedPasswordAfter (p_iat decoded) user
                    then Reply (fail_code 401
                                  "Password recently changed. Please login again."
                                  "PASSWORD_CHANGED")
                    else Next user
                end
          end
      end
  end.

(** The machine-readable code of the answer, if the request was answered
    with one. *)
Definition code_of (o : Outcome) : option string :=
  match o with
  | Next _ => None
  | Reply r => code r
  end.

Definition set_type (ty : option string) (p : Payload) : Payload :=
  mkPayload (p_id p) ty (p_iat p) (p_exp p).

(** [optionalAuth] always calls [next()]; the result is [req.user]. *)
Definition optionalAuth (env : Auth.Env) (db : User.Collection) (now : Z)
    (token : option RawToken) : option User.t :=
  match Auth.present token with
  | None => None
  | Some t =>
      match Auth.JWT_SECRET env with
      | None => None
      | Some secret =>
          match Jwt.verify t secret now with
          | inl _ => None
          | inr decoded =>
              match User.findById (p_id decoded) db with
              | Some user => if User.isActive user then Some user else None
              | None => None
              end
          end
      end
  end.

End Gate.

(** ** sockets/stockSocket.js: the price simulation *)
Module Engine.

Definition SUPPORTED_STOCKS : list string :=
  ["AAPL"; "GOOG"; "TSLA"; "AMZN"; "META"; "NVDA"; "MSFT"].

(** Prices in hundredths. *)
Definition basePrices : gmap string Z :=
  list_to_map
    [("AAPL", 19342); ("GOOG", 19141); ("TSLA", 38922); ("AMZN", 18050);
     ("META", 59155); ("NVDA", 13825); ("MSFT", 44839)].

(** The two module-level objects [stockPrices] and [priceHistory]. *)
Record State : Type := mkState {
  stockPrices : gmap string Z;
  priceHistory : gmap string (list Z)
}.

Definition initialPrices : gmap string Z :=
  list_to_map
    [("AAPL", 19342); ("GOOG", 19141); ("TSLA", 38922); ("AMZN", 18050);
     ("META", 59155); ("NVDA", 13825); ("MSFT", 44839)].

(** [SUPPORTED_STOCKS.forEach(t => priceHistory[t] = [stockPrices[t]])];
    all seven keys are present in [initialPrices]. *)
Definition initialHistory : gmap string (list Z) :=
  foldl (fun h ticker =>
           match initialPrices !! ticker with
           | Some p => <[ticker := [p]]> h
           | None => h
           end) ∅ SUPPORTED_STOCKS.

Definition seed : State := mkState initialPrices initialHistory.

(** [Number(x.toFixed(2))] in hundredths, on the exact value: the nearest
    hundredth of the magnitude, the larger one on a tie, with the sign put
    back. The program rounds the binary64 value, which can fall on the
    other side of a decimal tie; nothing below depends on which way a tie
    goes. *)
Definition toFixed2 (x : Q) : Z :=
  if Qle_bool 0 x
  then Qfloor (x * 100 + (1 # 2))%Q
  else - Qfloor ((- x) * 100 + (1 # 2))%Q.

Definition of_hundredths (n : Z) : Q := (n # 100)%Q.

(** [random] is the value returned by [Math.random()]; the sum is formed
    exactly where the program forms it in binary64. What is proved of it
    below is the floor, which [Math.max] applies last. *)
Definition generatePrice (currentPrice : Z) (random : Q) : Z :=
  let change := ((random - (1 # 2)) * 4)%Q in
  Z.max 100 (toFixed2 (of_hundredths currentPrice + change)%Q).

(** A missing key reads as [undefined] in JavaScript; the functions below
    return [None] there. *)
Definition calculateChange (st : State) (ticker : string) : option Z :=
  base ← basePrices !! ticker;
  current ← stockPrices st !! ticker;
  Some (toFixed2 (((of_hundredths current - of_hundredths base)
                   / of_hundredths base) * 100)%Q).

Record StockData : Type := mkStockData {
  price : Z;
  change : Z;
  history : list Z
}.

(** [arr.slice(-n)] *)
Definition slice_last {A} (n : nat) (l : list A) : list A :=
  drop (length l - n) l.

Definition stockDataOf (st : State) (ticker : string) : option StockData :=
  p ← stockPrices st !! ticker;
  c ← calculateChange st ticker;
  h ← priceHistory st !! ticker;
  Some (mkStockData p c (slice_last 20 h)).

Definition getFullStockData (st : State) : option (gmap string StockData) :=
  foldl (fun acc ticker =>
           data ← acc;
           d ← stockDataOf st ticker;
           Some (<[ticker := d]> data))
        (Some ∅) SUPPORTED_STOCKS.

Definition getSubscribedPriceSnapshot (st : State) (subscribedTickers : list string)
    : option (gmap string StockData) :=
  foldl (fun acc t =>
           snapshot ← acc;
           if Str.includes t SUPPORTED_STOCKS
           then d ← stockDataOf st t; Some (<[t := d]> snapshot)
           else Some snapshot)
        (Some ∅) subscribedTickers.

(** One iteration of the loop of [updatePrices]; [random] is the draw made
    for this ticker. *)
Definition updateTicker (random : Q) (ticker : string) (st : State)
    : option State :=
  current ← stockPrices st !! ticker;
  h ← priceHistory st !! ticker;
  let p := generatePrice current random in
  let pushed := (h ++ [p])%list in
  let h' := if (50 <? length pushed)%nat then tail pushed else pushed in
  Some (mkState (<[ticker := p]> (stockPrices st))
                (<[ticker := h']> (priceHistory st))).

Record PriceData : Type := mkPriceData {
  stocks : gmap string StockData;
  timestamp : Z
}.

(** [rnd ticker] is the draw of [Math.random()] made for [ticker] in this
    tick, [now] the clock read at its start. *)
Definition updatePrices (rnd : string -> Q) (now : Z) (st : State)
    : option (State * PriceData) :=
  st' ← foldl (fun acc ticker => s ← acc; updateTicker (rnd ticker) ticker s)
              (Some st) SUPPORTED_STOCKS;
  data ← getFullStockData st';
  Some (st', mkPriceData data now).

End Engine.

(** ** sockets/stockSocket.js: ticker rooms *)
Module Rooms.

Definition getTickerRoom (ticker : string) : string := "ticker:" +:+ ticker.

(** [socket.rooms] is a [Set] of room names. *)
Definition getSocketTickerRooms (rooms : gset string) : gset string :=
  filter (fun r => Str.startsWith "ticker:" r = true) rooms.

Definition leave (room : string) (rooms : gset string) : gset string :=
  rooms ∖ {[room]}.

Definition join (room : string) (rooms : gset string) : gset string :=
  rooms ∪ {[room]}.

(** Returns [socket.rooms] after the two [forEach] loops. *)
Definition syncTickerRooms (rooms : gset string) (subscribedTickers : list string)
    : gset string :=
  let desired : gset string := list_to_set (getTickerRoom <$> subscribedTickers) in
  let current : gset string := getSocketTickerRooms rooms in
  let left :=
    set_fold (fun room acc =>
                if bool_decide (room ∈ desired) then acc else leave room acc)
             rooms current in
  set_fold (fun room acc =>
              if bool_decide (room ∈ current) then acc else join room acc)
           left desired.

End Rooms.

(** ** sockets/stockSocket.js: handshake and broadcast *)
Module Socket.
Import Crypto Engine.

(** *** The [io.use] middleware *)

Inductive Handshake : Type :=
| Accepted (userId : N) (user : User.t)
| Rejected (reason : string).

(** [token] is [socket.handshake.auth.token]. *)
Definition authenticate (env : Auth.Env) (db : User.Collection) (now : Z)
    (token : option RawToken) : Handshake :=
  match Auth.present token with
  | None => Rejected "Authentication required"
  | Some t =>
      match Auth.JWT_SECRET env with
      | None => Rejected "Authentication failed"
      | Some secret =>
          match Jwt.verify t secret now with
          | inl _ => Rejected "Authentication failed"
          | inr decoded =>
              match User.findById (p_id decoded) db with
              | None => Rejected "User not found"
              | Some user => Accepted (User._id user) user
              end
          end
      end
  end.

(** *** Events *)

Inductive Event : Type :=
| subscribed_stocks (tickers : list string)
| prices_snapshot (stocks : gmap string StockData) (timestamp : Z)
| all_prices_update (stocks : gmap string StockData) (timestamp : Z)
| price_update (ticker : string) (price change : Z) (history : list Z)
    (timestamp : Z).

(** [io.emit] reaches every connection, [io.to(room).emit] the members of
    the room. *)
Inductive Target : Type :=
| ToAll
| ToRoom (room : string).

(** The body of the [setInterval] callback. *)
Definition broadcast (rnd : string -> Q) (now : Z) (st : State)
    : option (State * list (Target * Event)) :=
  '(st', priceData) ← updatePrices rnd now st;
  updates ← mapM (fun ticker =>
                    d ← stocks priceData !! ticker;
                    Some (ToRoom (Rooms.getTickerRoom ticker),
                          price_update ticker (price d) (change d) (history d)
                                       (timestamp priceData)))
                 SUPPORTED_STOCKS;
  Some (st', (ToAll, all_prices_update (stocks priceData) (timestamp priceData))
               :: updates).

Definition reaches (rooms : gset string) (target : Target) : bool :=
  match target with
  | ToAll => true
  | ToRoom room => bool_decide (room ∈ rooms)
  end.

(** What a connection with the given rooms receives. *)
Definition received (rooms : gset string) (emitted : list (Target * Event))
    : list Event :=
  snd <$> List.filter (fun te => reaches rooms (fst te)) emitted.

(** *** The connection handler *)

Definition userRoom (userId : N) : string := "user_" +:+ pretty userId.

(** Shared by the [connection] handler (after joining the user room) and
    the [update_subscriptions] handler: rooms afterwards and the two
    events sent to the socket. [None] when the user document is gone. *)
Definition resync (db : User.Collection) (st : State) (now : Z) (userId : N)
    (rooms : gset string) : option (gset string * list Event) :=
  user ← User.findById userId db;
  data ← getFullStockData st;
  Some (Rooms.syncTickerRooms rooms (User.subscribedStocks user),
        [subscribed_stocks (User.subscribedStocks user); prices_snapshot data now]).

Definition onConnection (db : User.Collection) (st : State) (now : Z)
    (userId : N) (rooms : gset string) : option (gset string * list Event) :=
  resync db st now userId (Rooms.join (userRoom userId) rooms).

End Socket.

(** Runs of the scheduler: [n] ticks, tick [k] drawing [rnd k] at clock
    [clock k]. *)
Fixpoint run_ticks (n : nat) (rnd : nat -> string -> Q) (clock : nat -> Z)
    (st : Engine.State) : option Engine.State :=
  match n with
  | O => Some st
  | S k =>
      st' ← run_ticks k rnd clock st;
      fst <$> Engine.updatePrices (rnd k) (clock k) st'
  end.

(** ** cleanupSubscriptions.js *)
Module Cleanup.

Definition SUPPORTED_STOCKS : list string :=
  ["AAPL"; "GOOG"; "TSLA"; "AMZN"; "META"; "NVDA"; "MSFT"].

Definition validSubscriptions (oldSubscriptions : list string) : list string :=
  List.filter (fun ticker => Str.includes ticker SUPPORTED_STOCKS) oldSubscriptions.

(** One iteration of the loop over the users read at the start; [None]
    when [save()] throws. *)
Definition cleanUser (user : User.t) (db : User.Collection)
    : option User.Collection :=
  let oldSubscriptions := User.subscribedStocks user in
  let valid := validSubscriptions oldSubscriptions in
  if (length oldSubscriptions =? length valid)%nat
  then Some db
  else
    match User.validate_loaded (User.set_subscribedStocks valid user) with
    | [] => Some (User.updateById (User._id user)
                    (User.set_subscribedStocks valid) db)
    | _ :: _ => None
    end.

(** The loop, with the exit code of the process. *)
Fixpoint loop (users : list User.t) (db : User.Collection)
    : User.Collection * Z :=
  match users with
  | [] => (db, 0)
  | user :: rest =>
      match cleanUser user db with
      | Some db' => loop rest db'
      | None => (db, 1)
      end
  end.

Definition cleanupSubscriptions (db : User.Collection) : User.Collection * Z :=
  loop db db.

End Cleanup.

(** ** Frontend services/api.js: the session kept in web storage *)
Module Client.
Import Crypto Http.

(** One storage area, with the six keys of [STORAGE_KEYS]. Web storage
    holds strings: a token is its string, [tokenExpiry] is the integer
    whose decimal digits [setItem] stored and [parseInt] reads back,
    [user] is the object behind [JSON.stringify] and [JSON.parse]. *)
Record Store : Type := mkStore {
  accessToken : option RawToken;
  refreshToken : option RawToken;
  user : option UserView;
  tokenExpiry : option Z;
  sessionId : option string;
  rememberMe : option string
}.

Record Browser : Type := mkBrowser {
  localStorage : Store;
  sessionStorage : Store
}.

Inductive Key : Type :=
| ACCESS_TOKEN | REFRESH_TOKEN | USER | TOKEN_EXPIRY | SESSION_ID | REMEMBER_ME.

(** [Object.values(STORAGE_KEYS)] *)
Definition STORAGE_KEYS : list Key :=
  [ACCESS_TOKEN; REFRESH_TOKEN; USER; TOKEN_EXPIRY; SESSION_ID; REMEMBER_ME].

Definition removeItem (key : Key) (s : Store) : Store :=
  match key with
  | ACCESS_TOKEN =>
      mkStore None (refreshToken s) (user s) (tokenExpiry s) (sessionId s)
              (rememberMe s)
  | REFRESH_TOKEN =>
      mkStore (accessToken s) None (user s) (tokenExpiry s) (sessionId s)
              (rememberMe s)
  | USER =>
      mkStore (accessToken s) (refreshToken s) None (tokenExpiry s) (sessionId s)
              (rememberMe s)
  | TOKEN_EXPIRY =>
      mkStore (accessToken s) (refreshToken s) (user s) None (sessionId s)
              (rememberMe s)
  | SESSION_ID =>
      mkStore (accessToken s) (refreshToken s) (user s) (tokenExpiry s) None
              (rememberMe s)
  | REMEMBER_ME =>
      mkStore (accessToken s) (refreshToken s) (user s) (tokenExpiry s)
              (sessionId s) None
  end.

Inductive Area : Type :=
| InLocal
| InSession.

(** [localStorage.getItem('rememberMe') === 'true' ? localStorage : sessionStorage] *)
Definition getStorage (b : Browser) : Area :=
  match rememberMe (localStorage b) with
  | Some s => if String.eqb s "true" then InLocal else InSession
  | None => InSession
  end.

Definition area (a : Area) (b : Browser) : Store :=
  match a with
  | InLocal => localStorage b
  | InSession => sessionStorage b
  end.

Definition write (a : Area) (f : Store -> Store) (b : Browser) : Browser :=
  match a with
  | InLocal => mkBrowser (f (localStorage b)) (sessionStorage b)
  | InSession => mkBrowser (localStorage b) (f (sessionStorage b))
  end.

(** The writes of [authService.login] into the chosen area; the refresh
    token is written only when the answer carries a truthy one. *)
Definition store_session (accessToken' : RawToken)
    (refreshToken' : option RawToken) (expiresIn : Z) (user' : UserView)
    (now : Z) (sessionId' : string) (s : Store) : Store :=
  mkStore (Some accessToken')
          (match Auth.present refreshToken' with
           | Some r => Some r
           | None => refreshToken s
           end)
          (Some user') (Some (now + expiresIn)) (Some sessionId')
          (rememberMe s).

(** [authService.login] once the request has been answered with a 2xx
    [response]; [now] is the client's clock, [sessionId'] the value of
    [generateSessionId()]. [None] when [response.data.data] is not a
    session and the destructuring throws. *)
Definition login (response : Response) (rememberMe' : bool) (now : Z)
    (sessionId' : string) (b : Browser) : option Browser :=
  if success response
  then
    match data response with
    | Http.Session accessToken' refreshToken' expiresIn user' =>
        let l := localStorage b in
        let b1 :=
          mkBrowser
            (mkStore (accessToken l) (refreshToken l) (user l) (tokenExpiry l)
                     (sessionId l)
                     (Some (if rememberMe' then "true" else "false")))
            (sessionStorage b) in
        Some (write (getStorage b1)
                (store_session accessToken' refreshToken' expiresIn user'
                               now sessionId')
                b1)
    | _ => None
    end
  else Some b.

(** The storage part of [authService.logout]. *)
Definition logout (b : Browser) : Browser :=
  foldl (fun b key =>
           mkBrowser (removeItem key (localStorage b))
                     (removeItem key (sessionStorage b)))
        b STORAGE_KEYS.

(** The body sent by [authService.refreshToken]; [None] when it throws
    [No refresh token available]. *)
Definition refreshToken_body (b : Browser) : option RawToken :=
  Auth.present (refreshToken (area (getStorage b) b)).

Definition getCurrentUser (b : Browser) : option UserView :=
  user (area (getStorage b) b).

Definition getToken (b : Browser) : option RawToken :=
  accessToken (area (getStorage b) b).

Definition getSessionId (b : Browser) : option string :=
  sessionId (area (getStorage b) b).

(** The token the request interceptor puts after [Bearer], if any. *)
Definition authorization (b : Browser) : option RawToken :=
  Auth.present (getToken b).

Definition isAuthenticated (now : Z) (b : Browser) : bool :=
  let storage := area (getStorage b) b in
  match Auth.present (accessToken storage) with
  | None => false
  | Some _ =>
      match tokenExpiry storage with
      | Some expiry =>
          if expiry <? now
          then bool_decide (is_Some (Auth.present (refreshToken storage)))
          else true
      | None => true
      end
  end.

Definition isTokenExpiringSoon (now : Z) (b : Browser) : bool :=
  match tokenExpiry (area (getStorage b) b) with
  | None => false
  | Some expiry => expiry - 2 * 60 * 1000 <? now
  end.

End Client.

(** ** Frontend context/AuthContext.jsx: the periodic token refresh *)
Module AuthContext.
Import Crypto.

(** What the interval callback of [setupTokenRefresh] does at a tick:
    nothing, the refresh request with the stored token, or, when
    [authService.refreshToken] throws for want of a stored token, the
    sign-out of the [catch] block. *)
Inductive Renewal : Type :=
| Idle
| Request (refreshToken : RawToken)
| SignOut.

Definition refresh_tick (now : Z) (b : Client.Browser) : Renewal :=
  if Client.isTokenExpiringSoon now b
  then
    match Client.refreshToken_body b with
    | Some refreshToken => Request refreshToken
    | None => SignOut
    end
  else Idle.

End AuthContext.

(** ** Frontend pages: the checks made on a form before it is sent *)
Module RegisterPage.

Record FormData : Type := mkFormData {
  name : string;
  email : string;
  password : string;
  confirmPassword : string
}.

(** [validateForm]: the error shown, [None] when it returns [true]. The
    e-mail is tested against the same pattern as in the schema. *)
Definition validateForm (formData : FormData) : option string :=
  if String.eqb (Str.trim (name formData)) ""
  then Some "Please enter your full name"
  else if (String.length (Str.trim (name formData)) <? 2)%nat
  then Some "Name must be at least 2 characters"
  else if String.eqb (Str.trim (email formData)) ""
  then Some "Please enter your email"
  else if negb (Regex.matches Regex.email_re (email formData))
  then Some "Please enter a valid email address"
  else if String.eqb (password formData) ""
  then Some "Please enter a password"
  else if (String.length (password formData) <? 6)%nat
  then Some "Password must be at least 6 characters"
  else if negb (String.eqb (password formData) (confirmPassword formData))
  then Some "Passwords do not match"
  else None.

(** The body [handleSubmit] sends through [authService.register]. *)
Definition body (formData : FormData) : Auth.RegisterBody :=
  Auth.mkRegisterBody (Some (name formData)) (Some (email formData))
                      (Some (password formData)).

End RegisterPage.

Module LoginPage.

Record FormData : Type := mkFormData {
  email : string;
  password : string
}.

Definition validateForm (formData : FormData) : option string :=
  if String.eqb (Str.trim (email formData)) ""
  then Some "Please enter your email"
  else if String.eqb (password formData) ""
  then Some "Please enter your password"
  else None.

(** The body [handleSubmit] sends through [authService.login]. *)
Definition body (formData : FormData) (rememberMe : bool) : Auth.LoginBody :=
  Auth.mkLoginBody (Some (email formData)) (Some (password formData)) rememberMe.

End LoginPage.

(** ** Properties of patterns used below *)
Module Lang.
Import Regex.

(** Every character test of the pattern satisfies [P]. *)
Fixpoint tests (P : (ascii -> bool) -> Prop) (r : re) : Prop :=
  match r with
  | Void | Eps => True
  | Chr p => P p
  | Cat r1 r2 | Alt r1 r2 => tests P r1 ∧ tests P r2
  | Star r1 => tests P r1
  end.

(** A syntactic test under which the pattern matches no string. *)
Fixpoint empty (r : re) : bool :=
  match r with
  | Void => true
  | Eps | Chr _ | Star _ => false
  | Cat r1 r2 => empty r1 || empty r2
  | Alt r1 r2 => empty r1 && empty r2
  end.

End Lang.

(** ** Further invariants of the simulation state *)
Module Chart.
Import Engine.

(** Ticker [t] has a price and a history of [k] points whose newest point
    is that price. *)
Definition tracks (k : nat) (st : State) (t : string) : Prop :=
  exists p h,
    stockPrices st !! t = Some p ∧ priceHistory st !! t = Some h
    ∧ last h = Some p ∧ length h = k.

End Chart.

(** ** Sample data used by the concrete instances below *)
Module Sample.
Import Crypto.

Definition env : Auth.Env := Auth.mkEnv (Some "s3cret") None.

Definition ann : User.t :=
  User.mk 1 "Ann" "ann@x.com" (Bcrypt "salt" "secret1") []
    None None None 0 None None true 0.

Definition with_stocks (l : list string) (u : User.t) : User.t :=
  User.set_subscribedStocks l u.

Definition deactivated (u : User.t) : User.t :=
  User.mk (User._id u) (User.name u) (User.email u) (User.password u)
    (User.subscribedStocks u) (User.refreshToken u) (User.refreshTokenExpiry u)
    (User.lastLogin u) (User.loginAttempts u) (User.lockUntil u)
    (User.passwordChangedAt u) false (User.createdAt u).

(** Ann's tokens as issued at clock 1000 ms. *)
Definition access_token : RawToken := Jwt.sign 1 "access" "s3cret" (15 * 60) 1000.
Definition refresh_token : RawToken :=
  Jwt.sign 1 "refresh" "s3cret" (7 * 24 * 60 * 60) 1000.

(** Ann after five failed logins, the last one at clock 1000: locked until
    1000 + 2 h. *)
Definition locked_ann : User.t :=
  User.set_lockUntil (Some 7201000) (User.set_loginAttempts 5 ann).

Definition login_body (password : string) : Auth.LoginBody :=
  Auth.mkLoginBody (Some "ann@x.com") (Some password) true.

(** Five wrong passwords in a row from a fresh account, one per second. *)
Definition five_failures : User.Collection :=
  foldl (fun db now => snd (Auth.login env db now (login_body "wrong")))
        [ann] [1000; 2000; 3000; 4000; 5000].


Definition register_body (name : string) : Auth.RegisterBody :=
  Auth.mkRegisterBody (Some name) (Some "bob@x.com") (Some "secret1").

(** A token signed with the server secret whose payload has no [type]. *)
Definition untyped_token : RawToken :=
  Jwt (mkPayload 1 None 1 901) "s3cret".

End Sample.

(** ** The invariant of the simulation state *)
Module Inv.
Import Engine.

(** Every stored price is at least 1.00, every stored history holds at
    most 50 points, and the seven tickers have both. *)
Record holds (st : State) : Prop := mk {
  floor : forall t p, stockPrices st !! t = Some p -> 100 <= p;
  cap : forall t h, priceHistory st !! t = Some h -> (length h <= 50)%nat;
  keys : forall t, t ∈ SUPPORTED_STOCKS ->
           is_Some (stockPrices st !! t) ∧ is_Some (priceHistory st !! t)
}.

(** What the claim about prices and histories says of one state. *)
Definition bounded (st : State) : Prop :=
  Forall (fun t =>
            exists p h,
              stockPrices st !! t = Some p ∧ 100 <= p
              ∧ priceHistory st !! t = Some h ∧ (length h <= 50)%nat)
         SUPPORTED_STOCKS.

End Inv.

(** ** Proof automation *)

(** Closes the three-part goal about a handler in a branch where it has
    refused the request. *)
Ltac refused :=
  cbn [fst snd Http.status Stocks.invalid_ticker Stocks.server_error Http.fail];
  split; [eauto | split; [intros ?; lia | done]].

(** * Properties *)

(** ** Helper lemmas on strings and the collection *)

Lemma includes_true (x : string) (l : list string) :
  Str.includes x l = true <-> x ∈ l.
Proof. unfold Str.includes. by rewrite bool_decide_eq_true. Qed.

Lemma includes_false (x : string) (l : list string) :
  Str.includes x l = false <-> x ∉ l.
Proof. unfold Str.includes. by rewrite bool_decide_eq_false. Qed.

Lemma neqb_true (s t : string) : negb (String.eqb s t) = true <-> s ≠ t.
Proof.
  rewrite negb_true_iff. destruct (String.eqb_spec s t); split; congruence.
Qed.

Lemma js_filter_notin (t : string) (l : list string) :
  t ∉ l -> List.filter (fun s => negb (String.eqb s t)) l = l.
Proof.
  induction l as [|a l IH]; intros Hn; [done|].
  apply not_elem_of_cons in Hn as [Hne Hn]. simpl.
  assert (negb (String.eqb a t) = true) as -> by (apply neqb_true; congruence).
  by rewrite IH.
Qed.

Lemma js_filter_elem (t x : string) (l : list string) :
  x ∈ List.filter (fun s => negb (String.eqb s t)) l <-> x ∈ l ∧ x ≠ t.
Proof.
  rewrite !list_elem_of_In, List.filter_In, neqb_true. tauto.
Qed.

Lemma js_filter_sublist (t : string) (l : list string) :
  List.filter (fun s => negb (String.eqb s t)) l `sublist_of` l.
Proof.
  induction l as [|a l IH]; simpl; [constructor|].
  destruct (negb (String.eqb a t)); by constructor.
Qed.

Lemma js_filter_count (t s : string) (l : list string) :
  s ≠ t ->
  count_occ String.string_dec (List.filter (fun s => negb (String.eqb s t)) l) s
  = count_occ String.string_dec l s.
Proof.
  intros Hne. induction l as [|a l IH]; simpl; [done|].
  destruct (String.eqb_spec a t) as [->|Ha]; simpl.
  - destruct (String.string_dec t s); [congruence | done].
  - destruct (String.string_dec a s); by rewrite IH.
Qed.

Lemma findById_updateById (id : N) (f : User.t -> User.t) (db : User.Collection)
    (u : User.t) :
  (forall d, User._id (f d) = User._id d) ->
  User.findById id db = Some u ->
  User.findById id (User.updateById id f db) = Some (f u).
Proof.
  intros Hid. unfold User.findById, User.updateById.
  induction db as [|d db IH]; simpl; [done|].
  destruct (N.eqb (User._id d) id) eqn:E.
  - intros [= ->]. simpl. by rewrite Hid, E.
  - intros H. simpl. rewrite E. by apply IH.
Qed.

Lemma findById_updateById_other (id id' : N) (f : User.t -> User.t)
    (db : User.Collection) :
  (forall d, User._id (f d) = User._id d) -> id ≠ id' ->
  User.findById id' (User.updateById id f db) = User.findById id' db.
Proof.
  intros Hid Hne. unfold User.findById, User.updateById.
  induction db as [|d db IH]; simpl; [done|].
  destruct (N.eqb (User._id d) id) eqn:E.
  - apply N.eqb_eq in E. rewrite Hid.
    assert (N.eqb (User._id d) id' = false) as -> by (apply N.eqb_neq; congruence).
    done.
  - destruct (N.eqb (User._id d) id'); [done | apply IH].
Qed.

Lemma validate_subscribedStocks_app (l1 l2 : list string) :
  User.validate_subscribedStocks (l1 ++ l2)
  = (User.validate_subscribedStocks l1 ++ User.validate_subscribedStocks l2)%list.
Proof. unfold User.validate_subscribedStocks. apply omap_app. Qed.

Lemma validate_loaded_drop_last (u : User.t) (l : list string) (t : string) :
  User.validate_loaded (User.set_subscribedStocks (l ++ [t]) u) = [] ->
  User.validate_loaded (User.set_subscribedStocks l u) = [].
Proof.
  unfold User.validate_loaded. simpl.
  rewrite validate_subscribedStocks_app.
  intros H. apply app_eq_nil in H as [-> H].
  apply app_eq_nil in H as [-> H]. apply app_eq_nil in H as [-> _]. done.
Qed.

(** ** Subscriptions (stockController.js) *)

Lemma subscribeStock_invalid db userId ticker :
  Stocks.unsupported (Stocks.normalize ticker) = true ->
  Stocks.subscribeStock db userId ticker = (Stocks.invalid_ticker, db).
Proof. unfold Stocks.subscribeStock, Stocks.subscribeStock_at. by intros ->. Qed.

Lemma unsubscribeStock_invalid db userId ticker :
  Stocks.unsupported (Stocks.normalize ticker) = true ->
  Stocks.unsubscribeStock db userId ticker = (Stocks.invalid_ticker, db).
Proof. unfold Stocks.unsubscribeStock, Stocks.unsubscribeStock_at. by intros ->. Qed.

Lemma subscribeStock_conflict db userId user ticker :
  Stocks.unsupported (Stocks.normalize ticker) = false ->
  User.findById userId db = Some user ->
  Stocks.normalize ticker ∈ User.subscribedStocks user ->
  Stocks.subscribeStock db userId ticker
  = (Http.fail 400 ("Already subscribed to " +:+ Stocks.normalize ticker), db).
Proof.
  unfold Stocks.subscribeStock, Stocks.subscribeStock_at. intros -> -> Hin.
  apply includes_true in Hin. by rewrite Hin.
Qed.

Lemma subscribeStock_fresh db userId user ticker :
  Stocks.unsupported (Stocks.normalize ticker) = false ->
  User.findById userId db = Some user ->
  Stocks.normalize ticker ∉ User.subscribedStocks user ->
  let stocks := (User.subscribedStocks user ++ [Stocks.normalize ticker])%list in
  Stocks.subscribeStock db userId ticker
  = match User.validate_loaded (User.set_subscribedStocks stocks user) with
    | [] => (Http.ok 200
               (Some ("Successfully subscribed to " +:+ Stocks.normalize ticker))
               (Http.TickerList stocks),
             User.updateById userId (User.set_subscribedStocks stocks) db)
    | _ :: _ => (Stocks.server_error, db)
    end.
Proof.
  unfold Stocks.subscribeStock, Stocks.subscribeStock_at. intros -> -> Hin.
  apply includes_false in Hin. by rewrite Hin.
Qed.

Lemma unsubscribeStock_absent db userId user ticker :
  Stocks.unsupported (Stocks.normalize ticker) = false ->
  User.findById userId db = Some user ->
  Stocks.normalize ticker ∉ User.subscribedStocks user ->
  Stocks.unsubscribeStock db userId ticker
  = (Http.fail 400 ("Not subscribed to " +:+ Stocks.normalize ticker), db).
Proof.
  unfold Stocks.unsubscribeStock, Stocks.unsubscribeStock_at. intros -> -> Hin.
  apply includes_false in Hin. by rewrite Hin.
Qed.

Lemma unsubscribeStock_present db userId user ticker :
  Stocks.unsupported (Stocks.normalize ticker) = false ->
  User.findById userId db = Some user ->
  Stocks.normalize ticker ∈ User.subscribedStocks user ->
  let stocks :=
    List.filter (fun s => negb (String.eqb s (Stocks.normalize ticker)))
                (User.subscribedStocks user) in
  Stocks.unsubscribeStock db userId ticker
  = match User.validate_loaded (User.set_subscribedStocks stocks user) with
    | [] => (Http.ok 200
               (Some ("Successfully unsubscribed from " +:+ Stocks.normalize ticker))
               (Http.TickerList stocks),
             User.updateById userId (User.set_subscribedStocks stocks) db)
    | _ :: _ => (Stocks.server_error, db)
    end.
Proof.
  unfold Stocks.unsubscribeStock, Stocks.unsubscribeStock_at. intros -> -> Hin.
  apply includes_true in Hin. by rewrite Hin.
Qed.

Lemma subscribeStock_at_invalid db userId t :
  Stocks.unsupported t = true ->
  Stocks.subscribeStock_at db userId t = (Stocks.invalid_ticker, db).
Proof. unfold Stocks.subscribeStock_at. by intros ->. Qed.

Lemma unsubscribeStock_at_invalid db userId t :
  Stocks.unsupported t = true ->
  Stocks.unsubscribeStock_at db userId t = (Stocks.invalid_ticker, db).
Proof. unfold Stocks.unsubscribeStock_at. by intros ->. Qed.

Lemma subscribeStock_at_conflict db userId user t :
  Stocks.unsupported t = false ->
  User.findById userId db = Some user ->
  t ∈ User.subscribedStocks user ->
  Stocks.subscribeStock_at db userId t
  = (Http.fail 400 ("Already subscribed to " +:+ t), db).
Proof.
  unfold Stocks.subscribeStock_at. intros -> -> Hin.
  apply includes_true in Hin. by rewrite Hin.
Qed.

Lemma subscribeStock_at_fresh db userId user t :
  Stocks.unsupported t = false ->
  User.findById userId db = Some user ->
  t ∉ User.subscribedStocks user ->
  let stocks := (User.subscribedStocks user ++ [t])%list in
  Stocks.subscribeStock_at db userId t
  = match User.validate_loaded (User.set_subscribedStocks stocks user) with
    | [] => (Http.ok 200 (Some ("Successfully subscribed to " +:+ t))
               (Http.TickerList stocks),
             User.updateById userId (User.set_subscribedStocks stocks) db)
    | _ :: _ => (Stocks.server_error, db)
    end.
Proof.
  unfold Stocks.subscribeStock_at. intros -> -> Hin.
  apply includes_false in Hin. by rewrite Hin.
Qed.

Lemma unsubscribeStock_at_absent db userId user t :
  Stocks.unsupported t = false ->
  User.findById userId db = Some user ->
  t ∉ User.subscribedStocks user ->
  Stocks.unsubscribeStock_at db userId t
  = (Http.fail 400 ("Not subscribed to " +:+ t), db).
Proof.
  unfold Stocks.unsubscribeStock_at. intros -> -> Hin.
  apply includes_false in Hin. by rewrite Hin.
Qed.

Lemma unsubscribeStock_at_present db userId user t :
  Stocks.unsupported t = false ->
  User.findById userId db = Some user ->
  t ∈ User.subscribedStocks user ->
  let stocks :=
    List.filter (fun s => negb (String.eqb s t)) (User.subscribedStocks user) in
  Stocks.unsubscribeStock_at db userId t
  = match User.validate_loaded (User.set_subscribedStocks stocks user) with
    | [] => (Http.ok 200 (Some ("Successfully unsubscribed from " +:+ t))
               (Http.TickerList stocks),
             User.updateById userId (User.set_subscribedStocks stocks) db)
    | _ :: _ => (Stocks.server_error, db)
    end.
Proof.
  unfold Stocks.unsubscribeStock_at. intros -> -> Hin.
  apply includes_true in Hin. by rewrite Hin.
Qed.

(** C7. The handlers compute [normalizedTicker] from the request and work
    on that value from then on; the statement is for every value [t] it
    can take, whatever the trimming and upper-casing of the request made
    it. For a user whose list does not contain [t], subscribing and then
    unsubscribing leaves the stored list as it was; and when the first
    subscribe succeeded, the list is the original one with [t] appended,
    the unsubscribe succeeds and returns the original list, a second
    subscribe is answered 400 "Already subscribed to ..." without touching
    the store, and a duplicate-free list stays duplicate-free. *)
Theorem subscribe_unsubscribe_roundtrip
    (db : User.Collection) (userId : N) (user : User.t) (t : string) :
  User.findById userId db = Some user ->
  t ∉ User.subscribedStocks user ->
  let original := User.subscribedStocks user in
  let first := Stocks.subscribeStock_at db userId t in
  let undo := Stocks.unsubscribeStock_at (snd first) userId t in
  let again := Stocks.subscribeStock_at (snd first) userId t in
  User.subscribedStocks <$> User.findById userId (snd undo) = Some original
  ∧ (Http.status (fst first) = 200 ->
       Http.data (fst first) = Http.TickerList (original ++ [t])
       ∧ User.subscribedStocks <$> User.findById userId (snd first)
         = Some (original ++ [t])%list
       ∧ Http.status (fst undo) = 200
       ∧ Http.data (fst undo) = Http.TickerList original
       ∧ Http.status (fst again) = 400
       ∧ Http.message (fst again) = Some ("Already subscribed to " +:+ t)
       ∧ snd again = snd first
       ∧ (NoDup original -> NoDup (original ++ [t]))).
Proof.
  intros Hfind Hnotin original first undo again.
  assert (Hset : forall l d, User._id (User.set_subscribedStocks l d) = User._id d)
    by done.
  destruct (Stocks.unsupported t) eqn:Hbad.
  { subst undo again first.
    rewrite (subscribeStock_at_invalid _ _ _ Hbad). simpl.
    rewrite (unsubscribeStock_at_invalid _ _ _ Hbad). simpl.
    rewrite Hfind. split; [done | intros [=]]. }
  pose proof (subscribeStock_at_fresh _ _ _ _ Hbad Hfind Hnotin) as Hfirst.
  simpl in Hfirst. fold original in Hfirst.
  destruct (User.validate_loaded (User.set_subscribedStocks (original ++ [t]) user))
    as [|e errs] eqn:Hval.
  2:{ subst undo again first. rewrite Hfirst. simpl.
      rewrite (unsubscribeStock_at_absent _ _ _ _ Hbad Hfind Hnotin). simpl.
      rewrite Hfind. split; [done | intros [=]]. }
  set (db1 := User.updateById userId (User.set_subscribedStocks (original ++ [t])) db)
    in *.
  assert (Hfind1 : User.findById userId db1
                   = Some (User.set_subscribedStocks (original ++ [t]) user))
    by (by apply findById_updateById).
  assert (Hin1 : t ∈ User.subscribedStocks
                       (User.set_subscribedStocks (original ++ [t]) user))
    by (simpl; set_solver).
  assert (Hfilter : List.filter (fun s => negb (String.eqb s t)) (original ++ [t])
                    = original).
  { rewrite List.filter_app, js_filter_notin by done. simpl.
    rewrite String.eqb_refl. simpl. by rewrite app_nil_r. }
  pose proof (unsubscribeStock_at_present _ _ _ _ Hbad Hfind1 Hin1) as Hundo.
  simpl in Hundo. rewrite Hfilter in Hundo.
  change (User.validate_loaded
            (User.set_subscribedStocks original
               (User.set_subscribedStocks (original ++ [t]) user)))
    with (User.validate_loaded (User.set_subscribedStocks original user)) in Hundo.
  rewrite (validate_loaded_drop_last _ _ _ Hval) in Hundo.
  pose proof (subscribeStock_at_conflict _ _ _ _ Hbad Hfind1 Hin1) as Hagain.
  subst undo again first. rewrite Hfirst. simpl. rewrite Hundo, Hagain. simpl.
  split.
  { erewrite findById_updateById; [done | done | exact Hfind1]. }
  intros _. rewrite Hfind1. simpl.
  repeat split; try done.
  intros Hnd. apply NoDup_app. repeat split; [done | | apply NoDup_singleton].
  intros x Hx Hx'. apply list_elem_of_singleton in Hx'. by subst.
Qed.

Lemma subscribe_unsubscribe_roundtrip_witness :
  let db := [Sample.ann] in
  let first := Stocks.subscribeStock_at db 1 "AAPL" in
  let undo := Stocks.unsubscribeStock_at (snd first) 1 "AAPL" in
  let again := Stocks.subscribeStock_at (snd first) 1 "AAPL" in
  Http.status (fst first) = 200
  ∧ Stocks.subscribeStock db 1 (Some " aapl ") = first
  ∧ Stocks.unsubscribeStock (snd first) 1 (Some " aapl ") = undo
  ∧ User.subscribedStocks <$> User.findById 1 (snd undo) = Some []
  ∧ (Http.status (fst first) = 200 ->
       Http.data (fst first) = Http.TickerList ["AAPL"]
       ∧ User.subscribedStocks <$> User.findById 1 (snd first) = Some ["AAPL"]
       ∧ Http.status (fst undo) = 200
       ∧ Http.data (fst undo) = Http.TickerList []
       ∧ Http.status (fst again) = 400
       ∧ Http.message (fst again) = Some "Already subscribed to AAPL"
       ∧ snd again = snd first
       ∧ (NoDup ([] : list string) -> NoDup ["AAPL"])).
Proof.
  split; [vm_compute; reflexivity|]. split; [reflexivity|].
  split; [reflexivity|].
  apply (subscribe_unsubscribe_roundtrip [Sample.ann] 1%N Sample.ann "AAPL").
  - reflexivity.
  - apply not_elem_of_nil.
Defined.

(** C10. A successful unsubscribe returns and stores a list with no
    occurrence of the normalised ticker, however often the stored list held
    it; the returned list is a sublist of the stored one (order kept) and
    every other ticker occurs in it as often as before. *)
Theorem unsubscribe_removes_every_occurrence
    (db : User.Collection) (userId : N) (ticker : option string) :
  let t := Stocks.normalize ticker in
  let result := Stocks.unsubscribeStock db userId ticker in
  Http.status (fst result) = 200 ->
  exists (user : User.t) (returned : list string),
    User.findById userId db = Some user
    ∧ t ∈ User.subscribedStocks user
    ∧ Http.data (fst result) = Http.TickerList returned
    ∧ User.subscribedStocks <$> User.findById userId (snd result) = Some returned
    ∧ count_occ String.string_dec returned t = 0%nat
    ∧ returned `sublist_of` User.subscribedStocks user
    ∧ (forall s, s ≠ t ->
         count_occ String.string_dec returned s
         = count_occ String.string_dec (User.subscribedStocks user) s).
Proof.
  intros t result. subst result.
  destruct (Stocks.unsupported t) eqn:Hbad.
  { rewrite (unsubscribeStock_invalid _ _ _ Hbad). intros [=]. }
  destruct (User.findById userId db) as [user|] eqn:Hfind.
  2:{ unfold Stocks.unsubscribeStock, Stocks.unsubscribeStock_at. fold t. rewrite Hbad, Hfind. intros [=]. }
  destruct (decide (t ∈ User.subscribedStocks user)) as [Hin|Hnotin].
  2:{ rewrite (unsubscribeStock_absent _ _ _ _ Hbad Hfind Hnotin). intros [=]. }
  rewrite (unsubscribeStock_present _ _ _ _ Hbad Hfind Hin). fold t.
  set (returned := List.filter (fun s => negb (String.eqb s t))
                               (User.subscribedStocks user)).
  destruct (User.validate_loaded (User.set_subscribedStocks returned user));
    [|intros [=]].
  intros _. exists user, returned. simpl.
  repeat split; try done.
  - by erewrite findById_updateById.
  - apply count_occ_not_In. rewrite <- list_elem_of_In.
    unfold returned. rewrite js_filter_elem. tauto.
  - apply js_filter_sublist.
  - intros s Hs. by apply js_filter_count.
Qed.

Lemma unsubscribe_removes_every_occurrence_witness :
  let db := [Sample.with_stocks ["AAPL"; "GOOG"; "AAPL"; "MSFT"] Sample.ann] in
  let result := Stocks.unsubscribeStock db 1 (Some "aapl") in
  Http.status (fst result) = 200
  ∧ Http.data (fst result) = Http.TickerList ["GOOG"; "MSFT"]
  ∧ exists (user : User.t) (returned : list string),
      User.findById 1 db = Some user
      ∧ "AAPL" ∈ User.subscribedStocks user
      ∧ Http.data (fst result) = Http.TickerList returned
      ∧ User.subscribedStocks <$> User.findById 1 (snd result) = Some returned
      ∧ count_occ String.string_dec returned "AAPL" = 0%nat
      ∧ returned `sublist_of` User.subscribedStocks user
      ∧ (forall s, s ≠ "AAPL" ->
           count_occ String.string_dec returned s
           = count_occ String.string_dec (User.subscribedStocks user) s).
Proof.
  split; [vm_compute; reflexivity|].
  split; [vm_compute; reflexivity|].
  apply (unsubscribe_removes_every_occurrence
           [Sample.with_stocks ["AAPL"; "GOOG"; "AAPL"; "MSFT"] Sample.ann]
           1%N (Some "aapl")).
  vm_compute; reflexivity.
Defined.

(** ** Ticker rooms (stockSocket.js) *)

Lemma getTickerRoom_prefix (t : string) :
  Str.startsWith "ticker:" (Rooms.getTickerRoom t) = true.
Proof.
  unfold Str.startsWith, Rooms.getTickerRoom. destruct t; reflexivity.
Qed.

Lemma leave_loop (desired rooms current : gset string) :
  set_fold (fun room acc =>
              if bool_decide (room ∈ desired) then acc else Rooms.leave room acc)
           rooms current
  = rooms ∖ (current ∖ desired).
Proof.
  apply (set_fold_ind_L
           (fun acc (X : gset string) => acc = rooms ∖ (X ∖ desired))).
  - set_solver.
  - intros x X acc Hx ->. unfold Rooms.leave. case_bool_decide; set_solver.
Qed.

Lemma join_loop (current start desired : gset string) :
  set_fold (fun room acc =>
              if bool_decide (room ∈ current) then acc else Rooms.join room acc)
           start desired
  = start ∪ (desired ∖ current).
Proof.
  apply (set_fold_ind_L
           (fun acc (X : gset string) => acc = start ∪ (X ∖ current))).
  - set_solver.
  - intros x X acc Hx ->. unfold Rooms.join. case_bool_decide; set_solver.
Qed.

Lemma syncTickerRooms_eq (rooms : gset string) (tickers : list string) :
  let desired : gset string := list_to_set (Rooms.getTickerRoom <$> tickers) in
  let current := Rooms.getSocketTickerRooms rooms in
  Rooms.syncTickerRooms rooms tickers
  = (rooms ∖ (current ∖ desired)) ∪ (desired ∖ current).
Proof.
  intros desired current. unfold Rooms.syncTickerRooms.
  fold desired current. by rewrite leave_loop, join_loop.
Qed.

Lemma desired_prefix (tickers : list string) (r : string) :
  r ∈ (list_to_set (Rooms.getTickerRoom <$> tickers) : gset string) ->
  Str.startsWith "ticker:" r = true.
Proof.
  rewrite elem_of_list_to_set, list_elem_of_fmap.
  intros (t & -> & _). apply getTickerRoom_prefix.
Qed.

Lemma elem_of_syncTickerRooms (rooms : gset string) (tickers : list string)
    (r : string) :
  r ∈ Rooms.syncTickerRooms rooms tickers
  <-> (Str.startsWith "ticker:" r = true
       ∧ r ∈ (list_to_set (Rooms.getTickerRoom <$> tickers) : gset string))
      ∨ (Str.startsWith "ticker:" r = false ∧ r ∈ rooms).
Proof.
  rewrite syncTickerRooms_eq.
  pose proof (desired_prefix tickers r) as Hpre.
  unfold Rooms.getSocketTickerRooms.
  rewrite elem_of_union, !elem_of_difference, elem_of_filter.
  destruct (Str.startsWith "ticker:" r) eqn:E;
    destruct (decide (r ∈ rooms));
    destruct (decide (r ∈ (list_to_set (Rooms.getTickerRoom <$> tickers)
                           : gset string)));
    intuition congruence.
Qed.

(** C6. Whatever rooms the socket is in and whatever list is desired, after
    one sync the ticker rooms of the socket are exactly the rooms of the
    listed tickers, every other room is kept, a second sync with the same
    list changes nothing, and the result depends only on which tickers are
    listed, not on their order or multiplicity. *)
Theorem syncTickerRooms_reconciles (rooms : gset string) (tickers : list string) :
  let desired : gset string := list_to_set (Rooms.getTickerRoom <$> tickers) in
  let synced := Rooms.syncTickerRooms rooms tickers in
  Rooms.getSocketTickerRooms synced = desired
  ∧ (forall r, Str.startsWith "ticker:" r = false -> r ∈ synced <-> r ∈ rooms)
  ∧ Rooms.syncTickerRooms synced tickers = synced
  ∧ (forall tickers' : list string,
       (forall t, t ∈ tickers' <-> t ∈ tickers) ->
       Rooms.syncTickerRooms rooms tickers' = synced).
Proof.
  intros desired synced. subst synced. repeat split.
  - apply set_eq. intros r. unfold Rooms.getSocketTickerRooms.
    rewrite elem_of_filter, elem_of_syncTickerRooms. fold desired.
    pose proof (desired_prefix tickers r). fold desired in H.
    destruct (Str.startsWith "ticker:" r); naive_solver.
  - rewrite elem_of_syncTickerRooms. intros [[? _]|[_ ?]]; [congruence | done].
  - rewrite elem_of_syncTickerRooms. naive_solver.
  - apply set_eq. intros r. rewrite !elem_of_syncTickerRooms.
    destruct (Str.startsWith "ticker:" r); naive_solver.
  - intros tickers' Hsame. apply set_eq. intros r.
    rewrite !elem_of_syncTickerRooms.
    assert ((list_to_set (Rooms.getTickerRoom <$> tickers') : gset string)
            = list_to_set (Rooms.getTickerRoom <$> tickers)) as ->; [|done].
    apply set_eq. intros x.
    rewrite !elem_of_list_to_set, !list_elem_of_fmap. naive_solver.
Qed.

(** ** The simulation (stockSocket.js) *)

Lemma generatePrice_floor (currentPrice : Z) (random : Q) :
  100 <= Engine.generatePrice currentPrice random.
Proof. unfold Engine.generatePrice. lia. Qed.

(** The floor acts on the rounded value: the result is the rounded sum, or
    1.00 when that is smaller. *)
Lemma generatePrice_rounded_then_floored (currentPrice : Z) (random : Q) :
  let rounded :=
    Engine.toFixed2 (Engine.of_hundredths currentPrice + (random - (1 # 2)) * 4)%Q in
  Engine.generatePrice currentPrice random
  = if rounded <? 100 then 100 else rounded.
Proof.
  unfold Engine.generatePrice. simpl.
  destruct (Z.ltb_spec
              (Engine.toFixed2
                 (Engine.of_hundredths currentPrice + (random - (1 # 2)) * 4)%Q)
              100); lia.
Qed.

Lemma length_shift {A} (l : list A) : length (tail l) = pred (length l).
Proof. by destruct l. Qed.

Lemma seed_holds : Inv.holds Engine.seed.
Proof.
  split.
  - intros t p H.
    assert (Hall : map_Forall (fun _ (p : Z) => 100 <= p) Engine.initialPrices).
    { unfold Engine.initialPrices. simpl.
      repeat (apply map_Forall_insert_2; [lia|]). apply map_Forall_empty. }
    exact (Hall t p H).
  - intros t h H.
    assert (Hall : map_Forall (fun _ (h : list Z) => (length h <= 50)%nat)
                     Engine.initialHistory).
    { unfold Engine.initialHistory, Engine.SUPPORTED_STOCKS, Engine.initialPrices.
      simpl. repeat (apply map_Forall_insert_2; [simpl; lia|]).
      apply map_Forall_empty. }
    exact (Hall t h H).
  - intros t Ht. unfold Engine.SUPPORTED_STOCKS in Ht.
    repeat (apply elem_of_cons in Ht as [->|Ht];
            [split; vm_compute; eauto|]).
    by apply elem_of_nil in Ht.
Qed.

Lemma updateTicker_holds (random : Q) (ticker : string) (st : Engine.State) :
  Inv.holds st -> ticker ∈ Engine.SUPPORTED_STOCKS ->
  exists st', Engine.updateTicker random ticker st = Some st' ∧ Inv.holds st'.
Proof.
  intros [Hfloor Hcap Hkeys] Hin.
  destruct (Hkeys ticker Hin) as [[p Hp] [h Hh]].
  unfold Engine.updateTicker. rewrite Hp, Hh. simpl.
  eexists; split; [reflexivity|]. split; simpl.
  - intros t q. rewrite lookup_insert. case_decide.
    + intros [= <-]. apply generatePrice_floor.
    + apply Hfloor.
  - intros t k. rewrite lookup_insert. case_decide.
    + intros [= <-]. specialize (Hcap _ _ Hh).
      destruct (Nat.ltb_spec 50 (length (h ++ [Engine.generatePrice p random]))) as [Hlt|Hle].
      * rewrite length_shift, length_app. simpl. lia.
      * lia.
    + apply Hcap.
  - intros t Ht. rewrite !lookup_insert.
    destruct (Hkeys t Ht). repeat case_decide; eauto.
Qed.

Lemma updateLoop_holds (rnd : string -> Q) (l : list string) (st : Engine.State) :
  Inv.holds st -> l ⊆ Engine.SUPPORTED_STOCKS ->
  exists st',
    foldl (fun acc ticker => s ← acc; Engine.updateTicker (rnd ticker) ticker s)
          (Some st) l = Some st'
    ∧ Inv.holds st'.
Proof.
  revert st. induction l as [|t l IH]; intros st Hst Hsub; simpl.
  - eauto.
  - destruct (updateTicker_holds (rnd t) t st Hst) as (st1 & -> & Hst1);
      [set_solver|].
    apply IH; [done | set_solver].
Qed.

Lemma basePrices_keys (t : string) :
  t ∈ Engine.SUPPORTED_STOCKS -> is_Some (Engine.basePrices !! t).
Proof.
  intros Ht. unfold Engine.SUPPORTED_STOCKS in Ht.
  repeat (apply elem_of_cons in Ht as [->|Ht]; [vm_compute; eauto|]).
  by apply elem_of_nil in Ht.
Qed.

Lemma stockDataOf_total (st : Engine.State) (t : string) :
  Inv.holds st -> t ∈ Engine.SUPPORTED_STOCKS ->
  exists p c h,
    Engine.stockPrices st !! t = Some p
    ∧ Engine.priceHistory st !! t = Some h
    ∧ Engine.stockDataOf st t
      = Some (Engine.mkStockData p c (Engine.slice_last 20 h)).
Proof.
  intros [_ _ Hkeys] Ht.
  destruct (Hkeys t Ht) as [[p Hp] [h Hh]].
  destruct (basePrices_keys t Ht) as [b Hb].
  unfold Engine.stockDataOf, Engine.calculateChange.
  rewrite Hp, Hh, Hb. simpl. eauto 10.
Qed.

Lemma fullData_loop (st : Engine.State) (l : list string)
    (acc : gmap string Engine.StockData) :
  (forall t, t ∈ l -> is_Some (Engine.stockDataOf st t)) ->
  exists data,
    foldl (fun acc ticker =>
             data ← acc; d ← Engine.stockDataOf st ticker;
             Some (<[ticker := d]> data))
          (Some acc) l = Some data
    ∧ forall t, data !! t
                = if decide (t ∈ l) then Engine.stockDataOf st t else acc !! t.
Proof.
  revert acc. induction l as [|x l IH]; intros acc Hall; simpl.
  - exists acc. split; [done|]. intros t.
    destruct (decide (t ∈ [])) as [H|H]; [by apply elem_of_nil in H | done].
  - destruct (Hall x) as [d Hd]; [by left|]. rewrite Hd. simpl.
    destruct (IH (<[x := d]> acc)) as (data & Hfold & Hlook).
    { intros t Ht. apply Hall. by right. }
    exists data. split; [done|]. intros t. rewrite Hlook.
    destruct (decide (t ∈ l)) as [Hl|Hl].
    + rewrite decide_True by (by right). done.
    + destruct (decide (t = x)) as [->|Hne].
      * rewrite decide_True by (by left). by rewrite lookup_insert_eq.
      * rewrite decide_False.
        -- by rewrite lookup_insert_ne.
        -- rewrite elem_of_cons. tauto.
Qed.

Lemma getFullStockData_total (st : Engine.State) :
  Inv.holds st ->
  exists data,
    Engine.getFullStockData st = Some data
    ∧ forall t, t ∈ Engine.SUPPORTED_STOCKS ->
                data !! t = Engine.stockDataOf st t.
Proof.
  intros Hst. unfold Engine.getFullStockData.
  destruct (fullData_loop st Engine.SUPPORTED_STOCKS ∅) as (data & -> & Hlook).
  - intros t Ht. destruct (stockDataOf_total st t Hst Ht) as (p & c & h & _ & _ & ->).
    eauto.
  - exists data. split; [done|]. intros t Ht. rewrite Hlook.
    by rewrite decide_True.
Qed.

Lemma updatePrices_total (rnd : string -> Q) (now : Z) (st : Engine.State) :
  Inv.holds st ->
  exists st' data,
    Engine.updatePrices rnd now st = Some (st', Engine.mkPriceData data now)
    ∧ Inv.holds st'
    ∧ forall t, t ∈ Engine.SUPPORTED_STOCKS ->
                data !! t = Engine.stockDataOf st' t.
Proof.
  intros Hst. unfold Engine.updatePrices.
  destruct (updateLoop_holds rnd Engine.SUPPORTED_STOCKS st Hst) as (st' & -> & Hst');
    [done|].
  destruct (getFullStockData_total st' Hst') as (data & Hdata & Hlook).
  cbn [mbind option_bind]. rewrite Hdata. cbn [mbind option_bind]. eauto.
Qed.

Lemma run_ticks_holds (n : nat) (rnd : nat -> string -> Q) (clock : nat -> Z)
    (st : Engine.State) :
  Inv.holds st ->
  exists st', run_ticks n rnd clock st = Some st' ∧ Inv.holds st'.
Proof.
  intros Hst. induction n as [|n (st1 & Hrun & Hst1)]; simpl.
  - eauto.
  - rewrite Hrun. simpl.
    destruct (updatePrices_total (rnd n) (clock n) st1 Hst1)
      as (st' & data & -> & Hst' & _).
    simpl. eauto.
Qed.

Lemma holds_bounded (st : Engine.State) : Inv.holds st -> Inv.bounded st.
Proof.
  intros [Hfloor Hcap Hkeys]. unfold Inv.bounded.
  apply Forall_forall. intros t Ht.
  destruct (Hkeys t Ht) as [[p Hp] [h Hh]].
  exists p, h. repeat split; [done | by eapply Hfloor | done | by eapply Hcap].
Qed.

(** C2. After any number of ticks from the seed state, whatever the random
    draws, the run has produced a state in which every supported ticker has
    a price of at least 1.00 and a history of at most 50 points. *)
Theorem ticks_keep_floor_and_cap (n : nat) (rnd : nat -> string -> Q)
    (clock : nat -> Z) :
  exists st, run_ticks n rnd clock Engine.seed = Some st ∧ Inv.bounded st.
Proof.
  destruct (run_ticks_holds n rnd clock Engine.seed seed_holds) as (st & Hrun & Hst).
  exists st. split; [done | by apply holds_bounded].
Qed.

(** The history after a tick is the last 50 points of the old history with
    the new price appended: the oldest point goes once the cap is passed. *)
Lemma updateTicker_evicts_oldest (random : Q) (ticker : string)
    (st st' : Engine.State) (h : list Z) :
  Engine.priceHistory st !! ticker = Some h -> (length h <= 50)%nat ->
  Engine.updateTicker random ticker st = Some st' ->
  exists p,
    Engine.stockPrices st' !! ticker = Some p
    ∧ Engine.priceHistory st' !! ticker = Some (Engine.slice_last 50 (h ++ [p])).
Proof.
  intros Hh Hlen. unfold Engine.updateTicker. rewrite Hh.
  destruct (Engine.stockPrices st !! ticker) as [cur|]; [|done]. simpl.
  intros [= <-]. simpl. rewrite !lookup_insert_eq.
  eexists; split; [reflexivity|]. f_equal.
  unfold Engine.slice_last. rewrite length_app. simpl.
  destruct (Nat.ltb_spec 50 (length h + 1)) as [Hlt|Hle].
  - replace (length h + 1 - 50)%nat with 1%nat by lia.
    by destruct h.
  - replace (length h + 1 - 50)%nat with 0%nat by lia. done.
Qed.

(** ** The broadcast of one tick (stockSocket.js) *)

Lemma broadcast_inv (rnd : string -> Q) (now : Z) (st st' : Engine.State)
    (emitted : list (Socket.Target * Socket.Event)) :
  Socket.broadcast rnd now st = Some (st', emitted) ->
  exists data updates,
    Engine.updatePrices rnd now st = Some (st', Engine.mkPriceData data now)
    ∧ emitted = (Socket.ToAll, Socket.all_prices_update data now) :: updates
    ∧ Forall2 (fun ticker (te : Socket.Target * Socket.Event) =>
                 exists d, data !! ticker = Some d
                   ∧ te = (Socket.ToRoom (Rooms.getTickerRoom ticker),
                           Socket.price_update ticker (Engine.price d)
                             (Engine.change d) (Engine.history d) now))
              Engine.SUPPORTED_STOCKS updates.
Proof.
  unfold Socket.broadcast. intros H.
  destruct (Engine.updatePrices rnd now st) as [[st1 pd]|] eqn:Hup; [|done].
  assert (Engine.timestamp pd = now) as Hts.
  { unfold Engine.updatePrices in Hup.
    destruct (foldl _ _ _); [|done]. cbn [mbind option_bind] in Hup.
    destruct (Engine.getFullStockData _); [|done]. by injection Hup as _ <-. }
  cbn [mbind option_bind] in H.
  destruct (mapM _ Engine.SUPPORTED_STOCKS) as [updates|] eqn:Hmap; [|done].
  cbn [mbind option_bind] in H. injection H as <- <-.
  destruct pd as [data ts]. cbn [Engine.stocks Engine.timestamp] in *. subst ts.
  exists data, updates. repeat split.
  apply mapM_Some in Hmap.
  eapply Forall2_impl; [exact Hmap|].
  intros ticker te Hte. cbn beta in Hte.
  destruct (data !! ticker) as [d|]; [|done].
  exists d. split; [done|]. cbn [mbind option_bind] in Hte. by injection Hte as <-.
Qed.

Lemma run_ticks_reachable (n : nat) (rnd : nat -> string -> Q) (clock : nat -> Z)
    (st : Engine.State) :
  run_ticks n rnd clock Engine.seed = Some st -> Inv.holds st.
Proof.
  intros Hrun.
  destruct (run_ticks_holds n rnd clock Engine.seed seed_holds) as (st' & Hrun' & Hst').
  congruence.
Qed.

Lemma broadcast_total (rnd : string -> Q) (now : Z) (st : Engine.State) :
  Inv.holds st ->
  exists st' emitted, Socket.broadcast rnd now st = Some (st', emitted).
Proof.
  intros Hst.
  destruct (updatePrices_total rnd now st Hst) as (st' & data & Hup & Hst' & Hlook).
  unfold Socket.broadcast. rewrite Hup. cbn [mbind option_bind].
  cbn [Engine.stocks Engine.timestamp].
  destruct (mapM _ Engine.SUPPORTED_STOCKS) as [updates|] eqn:Hmap.
  - cbn [mbind option_bind]. eauto.
  - exfalso.
    assert (Hsome : is_Some (mapM
              (fun ticker =>
                 d ← data !! ticker;
                 Some (Socket.ToRoom (Rooms.getTickerRoom ticker),
                       Socket.price_update ticker (Engine.price d)
                         (Engine.change d) (Engine.history d) now))
              Engine.SUPPORTED_STOCKS)).
    { apply mapM_is_Some, Forall_forall. intros t Ht. unfold compose.
      rewrite (Hlook t Ht).
      destruct (stockDataOf_total st' t Hst' Ht) as (p & c & h & _ & _ & ->).
      cbn [mbind option_bind]. eauto. }
    rewrite Hmap in Hsome. by destruct Hsome.
Qed.

(** C1. At every state the scheduler can reach, a tick does emit its
    events, and among them there is one [all_prices_update], sent to
    everybody and carrying the snapshot returned by [updatePrices]; for
    every supported ticker a [price_update] is sent to the ticker's room
    with the price, change, history and timestamp of that ticker's entry in
    the same snapshot; and whenever one connection receives a [price_update]
    and another (or the same) receives the [all_prices_update] of that tick,
    the values of the former are the ticker's entry of the latter, with the
    same timestamp. *)
Theorem price_update_agrees_with_all_prices_update
    (n : nat) (rnds : nat -> string -> Q) (clock : nat -> Z) (st : Engine.State)
    (rnd : string -> Q) (now : Z) :
  run_ticks n rnds clock Engine.seed = Some st ->
  exists st' emitted data,
    Socket.broadcast rnd now st = Some (st', emitted)
    ∧ Engine.updatePrices rnd now st = Some (st', Engine.mkPriceData data now)
    ∧ (Socket.ToAll, Socket.all_prices_update data now) ∈ emitted
    ∧ Forall (fun ticker =>
                exists d, data !! ticker = Some d
                  ∧ (Socket.ToRoom (Rooms.getTickerRoom ticker),
                     Socket.price_update ticker (Engine.price d) (Engine.change d)
                       (Engine.history d) now) ∈ emitted)
             Engine.SUPPORTED_STOCKS
    ∧ (forall (rooms1 rooms2 : gset string) ticker p c h ts stocks ts',
         Socket.price_update ticker p c h ts ∈ Socket.received rooms1 emitted ->
         Socket.all_prices_update stocks ts' ∈ Socket.received rooms2 emitted ->
         stocks !! ticker = Some (Engine.mkStockData p c h) ∧ ts = ts').
Proof.
  intros Hrun. apply run_ticks_reachable in Hrun.
  destruct (broadcast_total rnd now st Hrun) as (st' & emitted & H).
  exists st', emitted.
  pose proof H as Hbroadcast.
  apply broadcast_inv in H as (data & updates & Hup & -> & Hall).
  exists data. split; [done|]. split; [done|]. split; [by left|]. split.
  - apply Forall_forall. intros ticker Hin.
    apply list_elem_of_lookup in Hin as [i Hi].
    destruct (Forall2_lookup_l _ _ _ _ _ Hall Hi) as (te & Hte & d & Hd & ->).
    exists d. split; [done|]. right. by eapply list_elem_of_lookup_2.
  - assert (Hupd : forall te, te ∈ updates ->
              exists ticker d, data !! ticker = Some d
                ∧ te = (Socket.ToRoom (Rooms.getTickerRoom ticker),
                        Socket.price_update ticker (Engine.price d)
                          (Engine.change d) (Engine.history d) now)).
    { intros te Hte. apply list_elem_of_lookup in Hte as [i Hi].
      destruct (Forall2_lookup_r _ _ _ _ _ Hall Hi) as (ticker & _ & d & Hd & ->).
      eauto. }
    intros rooms1 rooms2 ticker p c h ts stocks ts' H1 H2.
    unfold Socket.received in H1, H2.
    apply list_elem_of_fmap in H1 as ([tg1 e1] & He1 & Hin1).
    apply list_elem_of_fmap in H2 as ([tg2 e2] & He2 & Hin2).
    simpl in He1, He2. subst e1 e2.
    apply list_elem_of_In, List.filter_In in Hin1 as [Hin1 _].
    apply list_elem_of_In, List.filter_In in Hin2 as [Hin2 _].
    apply list_elem_of_In in Hin1, Hin2.
    apply elem_of_cons in Hin1 as [[=]|Hin1].
    apply Hupd in Hin1 as (t1 & d1 & Hd1 & [= -> -> -> -> -> ->]).
    apply elem_of_cons in Hin2 as [[= -> ->]|Hin2].
    + split; [|done]. by destruct d1.
    + apply Hupd in Hin2 as (t2 & d2 & _ & [=]).
Qed.

Lemma price_update_agrees_with_all_prices_update_witness :
  run_ticks 0 (fun _ _ => 0%Q) (fun _ => 0) Engine.seed = Some Engine.seed
  ∧ exists st' emitted data,
      Socket.broadcast (fun _ => 3 # 4) 1700000000000 Engine.seed
      = Some (st', emitted)
      ∧ Engine.updatePrices (fun _ => 3 # 4) 1700000000000 Engine.seed
        = Some (st', Engine.mkPriceData data 1700000000000)
      ∧ (Socket.ToAll, Socket.all_prices_update data 1700000000000) ∈ emitted
      ∧ Forall (fun ticker =>
                  exists d, data !! ticker = Some d
                    ∧ (Socket.ToRoom (Rooms.getTickerRoom ticker),
                       Socket.price_update ticker (Engine.price d)
                         (Engine.change d) (Engine.history d) 1700000000000)
                      ∈ emitted)
               Engine.SUPPORTED_STOCKS
      ∧ (forall (rooms1 rooms2 : gset string) ticker p c h ts stocks ts',
           Socket.price_update ticker p c h ts ∈ Socket.received rooms1 emitted ->
           Socket.all_prices_update stocks ts' ∈ Socket.received rooms2 emitted ->
           stocks !! ticker = Some (Engine.mkStockData p c h) ∧ ts = ts').
Proof.
  split; [reflexivity|].
  apply (price_update_agrees_with_all_prices_update
           0 (fun _ _ => 0%Q) (fun _ => 0) Engine.seed (fun _ => 3 # 4)
           1700000000000).
  reflexivity.
Defined.

(** One tick from the seed with every draw at 0.75 (a change of +1.00), as
    seen by a connection in the AAPL room. *)
Example tick_example :
  (Socket.received {["ticker:AAPL"]}
     <$> (snd <$> Socket.broadcast (fun _ => 3 # 4) 1700000000000 Engine.seed))
  = Some [Socket.all_prices_update
            (list_to_map
               [("AAPL", Engine.mkStockData 19442 52 [19342; 19442]);
                ("GOOG", Engine.mkStockData 19241 52 [19141; 19241]);
                ("TSLA", Engine.mkStockData 39022 26 [38922; 39022]);
                ("AMZN", Engine.mkStockData 18150 55 [18050; 18150]);
                ("META", Engine.mkStockData 59255 17 [59155; 59255]);
                ("NVDA", Engine.mkStockData 13925 72 [13825; 13925]);
                ("MSFT", Engine.mkStockData 44939 22 [44839; 44939])])
            1700000000000;
          Socket.price_update "AAPL" 19442 52 [19342; 19442] 1700000000000].
Proof. vm_compute. reflexivity. Qed.

(** The same tick as seen by a connection of the same user that is in no
    ticker room: the [all_prices_update] only. *)
Example tick_example_unsubscribed :
  (Socket.received {["user_1"]}
     <$> (snd <$> Socket.broadcast (fun _ => 3 # 4) 1700000000000 Engine.seed))
  = (take 1
       <$> (Socket.received {["ticker:AAPL"]}
              <$> (snd <$> Socket.broadcast (fun _ => 3 # 4) 1700000000000
                             Engine.seed))).
Proof. vm_compute. reflexivity. Qed.

(** ** The HTTP gate (authMiddleware.js) *)

Lemma present_Some (t : option Crypto.RawToken) (t' : Crypto.RawToken) :
  Auth.present t = Some t' -> t = Some t'.
Proof.
  unfold Auth.present.
  destruct t as [[s|p k]|]; try done. destruct s; done.
Qed.

Lemma present_Jwt (p : Crypto.Payload) (k : Crypto.Secret) :
  Auth.present (Some (Crypto.Jwt p k)) = Some (Crypto.Jwt p k).
Proof. reflexivity. Qed.

Lemma verify_inr (t : Crypto.RawToken) (secret : Crypto.Secret) (now : Z)
    (decoded : Crypto.Payload) :
  Jwt.verify t secret now = inr decoded -> t = Crypto.Jwt decoded secret.
Proof.
  unfold Jwt.verify. destruct t as [s|p k]; [done|].
  destruct (String.eqb_spec k secret) as [->|]; [|done].
  destruct (Crypto.p_exp p <=? Jwt.seconds now); [done|]. by intros [= ->].
Qed.

Lemma truthy_Some (o : option string) :
  Str.truthy o = true <-> exists s, o = Some s ∧ s ≠ "".
Proof.
  unfold Str.truthy. destruct o as [s|].
  - rewrite negb_true_iff. destruct (String.eqb_spec s ""); naive_solver.
  - naive_solver.
Qed.

(** C9. The gate answers INVALID_TOKEN_TYPE exactly when the token verifies
    against the secret and its payload carries a (non-empty) [type] other
    than "access"; and a token without a [type] gets the very outcome of
    the same token with type "access". *)
Theorem protect_type_check (env : Auth.Env) (db : User.Collection) (now : Z)
    (token : option Crypto.RawToken) (p : Crypto.Payload) (key : Crypto.Secret) :
  (Gate.code_of (Gate.protect env db now token) = Some "INVALID_TOKEN_TYPE"
   <-> exists q k ty,
         token = Some (Crypto.Jwt q k)
         ∧ Auth.JWT_SECRET env = Some k
         ∧ Jwt.verify (Crypto.Jwt q k) k now = inr q
         ∧ Crypto.p_type q = Some ty ∧ ty ≠ "" ∧ ty ≠ "access")
  ∧ Gate.protect env db now (Some (Crypto.Jwt (Gate.set_type None p) key))
    = Gate.protect env db now
        (Some (Crypto.Jwt (Gate.set_type (Some "access") p) key)).
Proof.
  split.
  - unfold Gate.protect.
    destruct (Auth.present token) as [t|] eqn:Hpresent.
    2:{ split; [done|]. intros (q & k & ty & -> & _). done. }
    apply present_Some in Hpresent as ->.
    destruct (Auth.JWT_SECRET env) as [secret|] eqn:Hsecret.
    2:{ split; [done|]. intros (q & k & ty & _ & [=] & _). }
    destruct t as [s|q k]; simpl.
    { split; [done|]. intros (q & k & ty & [=] & _). }
    destruct (String.eqb_spec k secret) as [->|Hk].
    2:{ split; [done|]. intros (q' & k' & ty & [= <- <-] & [= ->] & _). done. }
    destruct (Z.leb_spec (Crypto.p_exp q) (Jwt.seconds now)) as [Hexp|Hexp].
    { split; [done|]. intros (q' & k' & ty & [= <- <-] & _ & Hv & _).
      simpl in Hv. rewrite String.eqb_refl in Hv.
      destruct (Z.leb_spec (Crypto.p_exp q) (Jwt.seconds now)); [done | lia]. }
    destruct (Str.truthy (Crypto.p_type q)) eqn:Htruthy; simpl.
    + apply truthy_Some in Htruthy as (ty & Hty & Hne).
      case_bool_decide as Hacc; simpl.
      * split.
        -- destruct (User.findById _ db) as [u|]; [|done].
           destruct (User.isActive u); [|done]. simpl.
           destruct (User.changedPasswordAfter _ u); done.
        -- intros (q' & k' & ty' & [= <- <-] & _ & _ & Hty' & _ & Hne').
           congruence.
      * split; [intros _|done].
        exists q, secret, ty. repeat split; try done.
        -- simpl. rewrite String.eqb_refl.
           destruct (Z.leb_spec (Crypto.p_exp q) (Jwt.seconds now)); [lia | done].
        -- congruence.
    + split.
      * destruct (User.findById _ db) as [u|]; [|done].
        destruct (User.isActive u); [|done]. simpl.
        destruct (User.changedPasswordAfter _ u); done.
      * intros (q' & k' & ty' & [= <- <-] & _ & _ & Hty' & Hne' & _).
        assert (Str.truthy (Crypto.p_type q) = true); [|congruence].
        apply truthy_Some. eauto.
  - unfold Gate.protect. simpl.
    destruct (Auth.JWT_SECRET env) as [secret|]; [|done].
    destruct (String.eqb key secret); [|done].
    destruct (Crypto.p_exp p <=? Jwt.seconds now); done.
Qed.

Example protect_admits_untyped_token :
  Gate.protect Sample.env [Sample.ann] 2000 (Some Sample.untyped_token)
  = Gate.Next Sample.ann.
Proof. vm_compute. reflexivity. Qed.

Example protect_rejects_refresh_token :
  Gate.code_of (Gate.protect Sample.env [Sample.ann] 2000 (Some Sample.refresh_token))
  = Some "INVALID_TOKEN_TYPE".
Proof. vm_compute. reflexivity. Qed.

(** ** The socket handshake (stockSocket.js) *)

(** What the handshake does check: a token is present, it verifies against
    the access secret, and its subject is a stored user. *)
Lemma authenticate_accepts_iff (env : Auth.Env) (db : User.Collection) (now : Z)
    (token : option Crypto.RawToken) (userId : N) (user : User.t) :
  Socket.authenticate env db now token = Socket.Accepted userId user
  <-> exists p k,
        token = Some (Crypto.Jwt p k)
        ∧ Auth.JWT_SECRET env = Some k
        ∧ Jwt.verify (Crypto.Jwt p k) k now = inr p
        ∧ User.findById (Crypto.p_id p) db = Some user
        ∧ userId = User._id user.
Proof.
  unfold Socket.authenticate. split.
  - destruct (Auth.present token) as [t|] eqn:Hpresent; [|done].
    apply present_Some in Hpresent as ->.
    destruct (Auth.JWT_SECRET env) as [secret|]; [|done].
    destruct (Jwt.verify t secret now) as [e|decoded] eqn:Hverify; [done|].
    pose proof (verify_inr _ _ _ _ Hverify) as ->.
    destruct (User.findById (Crypto.p_id decoded) db) as [u|] eqn:Hfind; [|done].
    intros [= <- <-]. exists decoded, secret. done.
  - intros (p & k & -> & -> & Hverify & Hfind & ->).
    rewrite present_Jwt, Hverify, Hfind. done.
Qed.

(** C4. The handshake admits connections that the gate turns away: with the
    access token of a deactivated account, and with a refresh token (the
    refresh secret defaulting to the access secret), [authenticate] admits
    while [protect] answers ACCOUNT_DEACTIVATED and INVALID_TOKEN_TYPE. *)
Theorem handshake_skips_type_and_active_checks :
  let off := Sample.deactivated Sample.ann in
  Socket.authenticate Sample.env [off] 2000 (Some Sample.access_token)
  = Socket.Accepted 1 off
  ∧ Gate.code_of (Gate.protect Sample.env [off] 2000 (Some Sample.access_token))
    = Some "ACCOUNT_DEACTIVATED"
  ∧ Socket.authenticate Sample.env [Sample.ann] 2000 (Some Sample.refresh_token)
    = Socket.Accepted 1 Sample.ann
  ∧ Gate.code_of (Gate.protect Sample.env [Sample.ann] 2000 (Some Sample.refresh_token))
    = Some "INVALID_TOKEN_TYPE".
Proof. vm_compute. repeat split; reflexivity. Qed.

(** ** Registration (authController.js, User.js) *)

Lemma truthy_nonempty (s : string) : s ≠ "" -> Str.truthy (Some s) = true.
Proof. intros H. apply truthy_Some. eauto. Qed.






Example register_bad_name_message :
  Http.message (fst (Auth.register [Sample.ann] 2 "salt" 5000
                       (Sample.register_body "A")))
  = Some "User validation failed: name: Name must be at least 2 characters".
Proof. vm_compute. reflexivity. Qed.

(** ** Login and lockout (authController.js, User.js) *)

Lemma lockTimeRemaining_ceil (now l : Z) :
  let m := Auth.lockTimeRemaining now l in
  (m - 1) * 60000 < l - now <= m * 60000.
Proof.
  unfold Auth.lockTimeRemaining. simpl.
  pose proof (Z.div_mod (now - l) (60 * 1000) ltac:(lia)).
  pose proof (Z.mod_pos_bound (now - l) (60 * 1000) ltac:(lia)).
  lia.
Qed.

Lemma login_reaches_user (env : Auth.Env) (db : User.Collection) (now : Z)
    (user : User.t) (email password : string) (rememberMe : bool) :
  email ≠ "" -> password ≠ "" ->
  Auth.findByEmail email db = Some user ->
  User.isActive user = true ->
  Auth.login env db now (Auth.mkLoginBody (Some email) (Some password) rememberMe)
  = if User.isLocked now user
    then (Http.fail 423
            (Auth.locked_message
               (Auth.lockTimeRemaining now (default 0 (User.lockUntil user)))),
          db)
    else if negb (User.comparePassword password user)
    then (Http.fail 401 "Invalid email or password",
          User.incLoginAttempts now user db)
    else
      let db1 := User.resetLoginAttempts now user db in
      match Auth.generateAccessToken env (User._id user) now with
      | inl msg => (Http.fail 500 msg, db1)
      | inr accessToken =>
          match Auth.generateRefreshToken env (User._id user) now with
          | inl msg => (Http.fail 500 msg, db1)
          | inr refreshToken =>
              (Http.mkResponse 200 true (Some "Login successful") None
                 (Http.Session accessToken
                    (if rememberMe then Some refreshToken else None)
                    (15 * 60 * 1000) (Auth.view user))
                 (Some refreshToken),
               User.updateById (User._id user)
                 (User.set_refresh (Some (Crypto.sha256 refreshToken))
                                   (Some (now + Auth.seven_days_ms))) db1)
          end
      end.
Proof.
  intros Hemail Hpw Hfind Hactive. unfold Auth.login.
  cbn [Auth.lb_email Auth.lb_password Auth.lb_rememberMe default from_option].
  cbv [id]. rewrite !truthy_nonempty by done. cbn [andb negb].
  rewrite Hfind, Hactive. cbn [negb]. reflexivity.
Qed.

Lemma generate_tokens_configured (env : Auth.Env) (userId : N) (now : Z) :
  is_Some (Auth.JWT_SECRET env) ->
  (exists a, Auth.generateAccessToken env userId now = inr a)
  ∧ (exists r, Auth.generateRefreshToken env userId now = inr r).
Proof.
  intros [secret Hsecret].
  unfold Auth.generateAccessToken, Auth.generateRefreshToken,
    Auth.JWT_REFRESH_SECRET.
  rewrite Hsecret. split; [eauto|].
  destruct (Str.truthy (Auth.env_JWT_REFRESH_SECRET env)) eqn:Ht.
  - apply truthy_Some in Ht as (s & -> & _). eauto.
  - eauto.
Qed.

(** C5, as the code has it. For an active account and a login carrying its
    e-mail and a non-empty password:
    - while a lockout is set and still ahead, the answer is 423 with the
      remaining minutes (rounded up) and the store is left as it is, whatever
      the password;
    - otherwise a wrong password is answered 401 and the stored failure
      counter is incremented, a lockout ending two hours later being set
      when the counter reaches 5 -- except when a lockout is set but has
      expired: then the counter restarts at 1 and the lockout is cleared;
    - otherwise (in particular once the lockout has passed) the right
      password, with the token secret configured, is answered 200, the
      counter is reset to 0 and the lockout cleared. *)
Theorem login_lockout (env : Auth.Env) (db : User.Collection) (now : Z)
    (user : User.t) (email password : string) (rememberMe : bool) :
  email ≠ "" -> password ≠ "" ->
  Auth.findByEmail email db = Some user ->
  User.findById (User._id user) db = Some user ->
  User.isActive user = true ->
  let result :=
    Auth.login env db now
      (Auth.mkLoginBody (Some email) (Some password) rememberMe) in
  let stored := User.findById (User._id user) (snd result) in
  (forall l, User.lockUntil user = Some l -> now < l ->
     let minutes := Auth.lockTimeRemaining now l in
     Http.status (fst result) = 423
     ∧ Http.message (fst result) = Some (Auth.locked_message minutes)
     ∧ (minutes - 1) * 60000 < l - now <= minutes * 60000
     ∧ snd result = db)
  ∧ (User.isLocked now user = false ->
     User.comparePassword password user = false ->
     Http.status (fst result) = 401
     ∧ exists d, stored = Some d
         ∧ if User.lockExpired now user
           then User.loginAttempts d = 1 ∧ User.lockUntil d = None
           else User.loginAttempts d = User.loginAttempts user + 1
                ∧ User.lockUntil d
                  = if 5 <=? User.loginAttempts user + 1
                    then Some (now + 2 * 60 * 60 * 1000)
                    else User.lockUntil user)
  ∧ (User.isLocked now user = false ->
     User.comparePassword password user = true ->
     is_Some (Auth.JWT_SECRET env) ->
     Http.status (fst result) = 200
     ∧ exists d, stored = Some d
         ∧ User.loginAttempts d = 0 ∧ User.lockUntil d = None
         ∧ User.lastLogin d = Some now).
Proof.
  intros Hemail Hpw Hfind Hid Hactive result stored. subst stored result.
  rewrite (login_reaches_user env db now user email password rememberMe)
    by done.
  split; [|split].
  - intros l Hl Hnow minutes.
    assert (User.isLocked now user = true) as ->.
    { unfold User.isLocked. rewrite Hl. by apply Z.ltb_lt. }
    rewrite Hl. cbn [default from_option fst snd]. cbv [id].
    repeat split; try done; apply lockTimeRemaining_ceil.
  - intros -> ->. cbn [negb fst snd]. split; [done|].
    unfold User.incLoginAttempts.
    destruct (User.lockExpired now user).
    + erewrite findById_updateById; [|done|exact Hid]. eauto.
    + erewrite findById_updateById; [|intros d; by destruct (5 <=? _)|exact Hid].
      eexists; split; [reflexivity|].
      destruct (5 <=? User.loginAttempts user + 1); done.
  - intros -> -> Hsecret. cbn [negb].
    destruct (generate_tokens_configured env (User._id user) now Hsecret)
      as [[a ->] [r ->]].
    cbn [fst snd]. split; [done|].
    unfold User.resetLoginAttempts.
    erewrite findById_updateById; [|done|].
    2:{ erewrite findById_updateById; [reflexivity|done|exact Hid]. }
    eauto.
Qed.

Lemma login_lockout_witness :
  let db := [Sample.locked_ann] in
  let result := Auth.login Sample.env db 3601000 (Sample.login_body "secret1") in
  let stored := User.findById 1 (snd result) in
  Http.status (fst result) = 423
  ∧ Http.message (fst result)
    = Some "Account is locked due to too many failed attempts. Try again in 60 minutes."
  ∧ (forall l, User.lockUntil Sample.locked_ann = Some l -> 3601000 < l ->
       let minutes := Auth.lockTimeRemaining 3601000 l in
       Http.status (fst result) = 423
       ∧ Http.message (fst result) = Some (Auth.locked_message minutes)
       ∧ (minutes - 1) * 60000 < l - 3601000 <= minutes * 60000
       ∧ snd result = db)
  ∧ (User.isLocked 3601000 Sample.locked_ann = false ->
     User.comparePassword "secret1" Sample.locked_ann = false ->
     Http.status (fst result) = 401
     ∧ exists d, stored = Some d
         ∧ if User.lockExpired 3601000 Sample.locked_ann
           then User.loginAttempts d = 1 ∧ User.lockUntil d = None
           else User.loginAttempts d = User.loginAttempts Sample.locked_ann + 1
                ∧ User.lockUntil d
                  = if 5 <=? User.loginAttempts Sample.locked_ann + 1
                    then Some (3601000 + 2 * 60 * 60 * 1000)
                    else User.lockUntil Sample.locked_ann)
  ∧ (User.isLocked 3601000 Sample.locked_ann = false ->
     User.comparePassword "secret1" Sample.locked_ann = true ->
     is_Some (Auth.JWT_SECRET Sample.env) ->
     Http.status (fst result) = 200
     ∧ exists d, stored = Some d
         ∧ User.loginAttempts d = 0 ∧ User.lockUntil d = None
         ∧ User.lastLogin d = Some 3601000).
Proof.
  split; [vm_compute; reflexivity|].
  split; [vm_compute; reflexivity|].
  apply (login_lockout Sample.env [Sample.locked_ann] 3601000 Sample.locked_ann
           "ann@x.com" "secret1" true).
  - discriminate.
  - discriminate.
  - reflexivity.
  - reflexivity.
  - reflexivity.
Defined.

(** A wrong password on an account whose lockout has expired: the stored
    counter goes from 5 to 1, it is not incremented. *)
Lemma mismatch_after_expired_lockout_restarts_counter :
  let result :=
    Auth.login Sample.env [Sample.locked_ann] 7201001 (Sample.login_body "wrong") in
  User.isActive Sample.locked_ann = true
  ∧ User.isLocked 7201001 Sample.locked_ann = false
  ∧ User.comparePassword "wrong" Sample.locked_ann = false
  ∧ Http.status (fst result) = 401
  ∧ User.loginAttempts Sample.locked_ann = 5
  ∧ User.loginAttempts <$> User.findById 1 (snd result) = Some 1
  ∧ User.loginAttempts <$> User.findById 1 (snd result)
    ≠ Some (User.loginAttempts Sample.locked_ann + 1).
Proof. vm_compute. repeat split; try reflexivity. discriminate. Qed.

(** Five wrong passwords lock the account for two hours; the right password
    is then refused until the lockout has passed. *)
Example lockout_scenario :
  User.findById 1 Sample.five_failures
  = Some (User.set_lockUntil (Some (5000 + 2 * 60 * 60 * 1000))
            (User.set_loginAttempts 5 Sample.ann))
  ∧ Http.status (fst (Auth.login Sample.env Sample.five_failures 6000
                        (Sample.login_body "secret1"))) = 423
  ∧ snd (Auth.login Sample.env Sample.five_failures 6000 (Sample.login_body "secret1"))
    = Sample.five_failures
  ∧ Http.status (fst (Auth.login Sample.env Sample.five_failures (5000 + 7200000)
                        (Sample.login_body "secret1"))) = 200
  ∧ User.loginAttempts
      <$> User.findById 1
            (snd (Auth.login Sample.env Sample.five_failures (5000 + 7200000)
                    (Sample.login_body "secret1")))
    = Some 0.
Proof. vm_compute. repeat split; reflexivity. Qed.

(** ** Refresh (authController.js) *)

Lemma find_all_false {A} (f : A -> bool) (l : list A) :
  (forall x, x ∈ l -> f x = false) -> List.find f l = None.
Proof.
  induction l as [|a l IH]; intros H; simpl; [done|].
  rewrite (H a) by (by left). apply IH. intros x Hx. apply H. by right.
Qed.

Lemma refreshToken_ok (env : Auth.Env) (db : User.Collection) (now : Z)
    (p : Crypto.Payload) (k : Crypto.Secret) (body : option Crypto.RawToken) :
  Http.status (fst (Auth.refreshToken env db now (Some (Crypto.Jwt p k)) body)) = 200 ->
  exists access new,
    Auth.JWT_REFRESH_SECRET env = Some k
    ∧ Auth.generateAccessToken env (Crypto.p_id p) now = inr access
    ∧ Auth.generateRefreshToken env (Crypto.p_id p) now = inr new
    ∧ Auth.refreshToken env db now (Some (Crypto.Jwt p k)) body
      = (Http.mkResponse 200 true None None
           (Http.Tokens access new (15 * 60 * 1000)) (Some new),
         User.updateById (Crypto.p_id p)
           (User.set_refresh (Some (Crypto.sha256 new))
                             (Some (now + Auth.seven_days_ms))) db).
Proof.
  unfold Auth.refreshToken. rewrite present_Jwt.
  destruct (Auth.JWT_REFRESH_SECRET env) as [secret|] eqn:Hsecret; [|done].
  destruct (Jwt.verify (Crypto.Jwt p k) secret now) as [e|decoded] eqn:Hverify;
    [done|].
  pose proof (verify_inr _ _ _ _ Hverify) as [= <- ->].
  destruct (User.findOne _ db) as [user|] eqn:Hfound; [|done].
  apply List.find_some in Hfound as [_ Huser].
  apply andb_prop in Huser as [Huser _]. apply andb_prop in Huser as [Huser _].
  apply N.eqb_eq in Huser. rewrite Huser.
  destruct (Auth.generateAccessToken env (Crypto.p_id p) now) as [?|access];
    [done|].
  destruct (Auth.generateRefreshToken env (Crypto.p_id p) now) as [?|new];
    [done|].
  intros _. by exists access, new.
Qed.

(** What a successful refresh does: it answers with a new access token and
    a new refresh token, also set as cookie, and every stored document of
    the user now holds the digest of the new refresh token with an expiry
    seven days ahead. When the new refresh token differs from the presented
    one, presenting the old one again is answered 401, at any later time. *)
Lemma refreshToken_rotates (env : Auth.Env) (db : User.Collection) (now : Z)
    (p : Crypto.Payload) (k : Crypto.Secret) (body : option Crypto.RawToken) :
  let old := Crypto.Jwt p k in
  let first := Auth.refreshToken env db now (Some old) body in
  Http.status (fst first) = 200 ->
  exists access new,
    Auth.generateAccessToken env (Crypto.p_id p) now = inr access
    ∧ Auth.generateRefreshToken env (Crypto.p_id p) now = inr new
    ∧ Http.data (fst first) = Http.Tokens access new (15 * 60 * 1000)
    ∧ Http.cookie (fst first) = Some new
    ∧ (forall d, d ∈ snd first -> User._id d = Crypto.p_id p ->
         User.refreshToken d = Some (Crypto.sha256 new)
         ∧ User.refreshTokenExpiry d = Some (now + 7 * 24 * 60 * 60 * 1000))
    ∧ (new ≠ old ->
       forall now' body',
         Http.status (fst (Auth.refreshToken env (snd first) now' (Some old) body'))
         = 401).
Proof.
  intros old first Hok. subst first old.
  destruct (refreshToken_ok _ _ _ _ _ _ Hok)
    as (access & new & Hsecret & Haccess & Hnew & ->).
  exists access, new. cbn [fst snd Http.data Http.cookie].
  split; [done|]. split; [done|]. split; [done|]. split; [done|]. split.
  - intros d Hd Hid. unfold User.updateById in Hd.
    apply list_elem_of_fmap in Hd as (d0 & -> & _).
    destruct (N.eqb_spec (User._id d0) (Crypto.p_id p)) as [|Hne]; [done|].
    congruence.
  - intros Hne now' body'. unfold Auth.refreshToken.
    rewrite present_Jwt, Hsecret.
    destruct (Jwt.verify (Crypto.Jwt p k) k now') as [e|decoded'] eqn:Hverify';
      [done|].
    pose proof (verify_inr _ _ _ _ Hverify') as [= <-].
    unfold User.findOne. rewrite find_all_false; [done|].
    intros d Hd. unfold User.updateById in Hd.
    apply list_elem_of_fmap in Hd as (d0 & -> & _).
    destruct (N.eqb_spec (User._id d0) (Crypto.p_id p)) as [Heq|Hneq].
    + cbn [User.set_refresh User.refreshToken User._id].
      rewrite bool_decide_eq_false_2; [by rewrite andb_false_r|].
      unfold Crypto.sha256. congruence.
    + apply N.eqb_neq in Hneq. by rewrite Hneq.
Qed.

(** The new refresh token is the presented one exactly when the presented
    one was issued to the same user as a refresh token in the current
    second: a refresh made in a later second than the issue does rotate. *)
Lemma rotation_later_second (env : Auth.Env) (userId : N) (now : Z)
    (p : Crypto.Payload) (k : Crypto.Secret) (new : Crypto.RawToken) :
  Auth.generateRefreshToken env userId now = inr new ->
  Crypto.p_iat p ≠ Jwt.seconds now ->
  new ≠ Crypto.Jwt p k.
Proof.
  unfold Auth.generateRefreshToken, Jwt.sign.
  destruct (Auth.JWT_REFRESH_SECRET env); [|done].
  intros [= <-] Hiat [= Heq]. destruct p. simpl in *. congruence.
Qed.

(** C3. Ann logs in at clock 1000 ms and refreshes at 1500 ms: the refresh
    succeeds, and the refresh token it issues is the very token presented,
    since both were signed over the same claims in the same second. The
    stored digest is therefore unchanged, and presenting the used token
    again at 1600 ms succeeds as well. *)
Theorem refresh_token_reusable_within_its_second :
  let logged := Auth.login Sample.env [Sample.ann] 1000 (Sample.login_body "secret1") in
  let first :=
    Auth.refreshToken Sample.env (snd logged) 1500 (Some Sample.refresh_token) None in
  let second :=
    Auth.refreshToken Sample.env (snd first) 1600 (Some Sample.refresh_token) None in
  Http.status (fst logged) = 200
  ∧ Http.cookie (fst logged) = Some Sample.refresh_token
  ∧ Http.status (fst first) = 200
  ∧ Http.cookie (fst first) = Some Sample.refresh_token
  ∧ Http.status (fst second) = 200.
Proof. vm_compute. repeat split; reflexivity. Qed.

(** The same refresh made one second later rotates: the used token is then
    refused. *)
Example refresh_next_second_rotates :
  let logged := Auth.login Sample.env [Sample.ann] 1000 (Sample.login_body "secret1") in
  let first :=
    Auth.refreshToken Sample.env (snd logged) 2500 (Some Sample.refresh_token) None in
  let second :=
    Auth.refreshToken Sample.env (snd first) 2600 (Some Sample.refresh_token) None in
  Http.status (fst first) = 200
  ∧ Http.cookie (fst first) ≠ Some Sample.refresh_token
  ∧ Http.status (fst second) = 401.
Proof. vm_compute. repeat split; try reflexivity. discriminate. Qed.

(** * Further properties *)

(** ** The gate, the optional gate and the handshake *)

Lemma truthy_false (o : option string) :
  Str.truthy o = false <-> o = None ∨ o = Some "".
Proof.
  unfold Str.truthy. destruct o as [s|].
  - rewrite negb_false_iff. destruct (String.eqb_spec s ""); naive_solver.
  - naive_solver.
Qed.

Lemma protect_Next_iff (env : Auth.Env) (db : User.Collection) (now : Z)
    (token : option Crypto.RawToken) (user : User.t) :
  Gate.protect env db now token = Gate.Next user
  <-> exists p k,
        token = Some (Crypto.Jwt p k)
        ∧ Auth.JWT_SECRET env = Some k
        ∧ Jwt.verify (Crypto.Jwt p k) k now = inr p
        ∧ (Crypto.p_type p = None ∨ Crypto.p_type p = Some ""
           ∨ Crypto.p_type p = Some "access")
        ∧ User.findById (Crypto.p_id p) db = Some user
        ∧ User.isActive user = true
        ∧ User.changedPasswordAfter (Crypto.p_iat p) user = false.
Proof.
  unfold Gate.protect. split.
  - destruct (Auth.present token) as [t|] eqn:Hpresent; [|done].
    apply present_Some in Hpresent as ->.
    destruct (Auth.JWT_SECRET env) as [secret|]; [|done].
    destruct (Jwt.verify t secret now) as [e|decoded] eqn:Hverify;
      [by destruct e|].
    pose proof (verify_inr _ _ _ _ Hverify) as ->.
    destruct (Str.truthy (Crypto.p_type decoded)) eqn:Htruthy.
    + case_bool_decide as Hacc; [|done]. cbn [negb andb].
      destruct (User.findById _ db) as [u|] eqn:Hfind; [|done].
      destruct (User.isActive u) eqn:Hactive; [|done]. cbn [negb].
      destruct (User.changedPasswordAfter _ u) eqn:Hchanged; [done|].
      intros [= ->]. exists decoded, secret. eauto 10.
    + cbn [andb].
      destruct (User.findById _ db) as [u|] eqn:Hfind; [|done].
      destruct (User.isActive u) eqn:Hactive; [|done]. cbn [negb].
      destruct (User.changedPasswordAfter _ u) eqn:Hchanged; [done|].
      intros [= ->]. exists decoded, secret.
      apply truthy_false in Htruthy. repeat split; try done. tauto.
  - intros (p & k & -> & -> & Hverify & Htype & Hfind & Hactive & Hchanged).
    rewrite present_Jwt, Hverify, Hfind, Hactive, Hchanged. cbn [negb].
    destruct Htype as [ -> | [ -> | -> ] ]; reflexivity.
Qed.

Lemma protect_Reply (env : Auth.Env) (db : User.Collection) (now : Z)
    (token : option Crypto.RawToken) (r : Http.Response) :
  Gate.protect env db now token = Gate.Reply r ->
  Http.success r = false
  ∧ ((Http.status r = 401 ∧ is_Some (Http.code r))
     ∨ (Http.status r = 500 ∧ Auth.JWT_SECRET env = None)).
Proof.
  unfold Gate.protect.
  destruct (Auth.present token) as [t|]; [|intros [= <-]; eauto].
  destruct (Auth.JWT_SECRET env) as [secret|]; [|intros [= <-]; eauto].
  destruct (Jwt.verify t secret now) as [e|decoded];
    [destruct e; intros [= <-]; eauto|].
  destruct (_ && _); [intros [= <-]; eauto|].
  destruct (User.findById _ db) as [u|]; [|intros [= <-]; eauto].
  destruct (negb (User.isActive u)); [intros [= <-]; eauto|].
  destruct (User.changedPasswordAfter _ u); [intros [= <-]; eauto|done].
Qed.

(** X1. The gate lets a request through with [req.user = user] exactly
    when the bearer token verifies against the access secret, its type is
    absent, empty or "access", its subject is the stored [user], the user
    is active and the password was not changed after the token's issue.
    Every other request is answered without success: with 401 and a
    machine-readable code, or with 500 when the secret is not configured. *)
Theorem protect_passes_iff (env : Auth.Env) (db : User.Collection) (now : Z)
    (token : option Crypto.RawToken) (user : User.t) :
  (Gate.protect env db now token = Gate.Next user
   <-> exists p k,
         token = Some (Crypto.Jwt p k)
         ∧ Auth.JWT_SECRET env = Some k
         ∧ Jwt.verify (Crypto.Jwt p k) k now = inr p
         ∧ (Crypto.p_type p = None ∨ Crypto.p_type p = Some ""
            ∨ Crypto.p_type p = Some "access")
         ∧ User.findById (Crypto.p_id p) db = Some user
         ∧ User.isActive user = true
         ∧ User.changedPasswordAfter (Crypto.p_iat p) user = false)
  ∧ (forall r, Gate.protect env db now token = Gate.Reply r ->
       Http.success r = false
       ∧ ((Http.status r = 401 ∧ is_Some (Http.code r))
          ∨ (Http.status r = 500 ∧ Auth.JWT_SECRET env = None))).
Proof.
  split; [apply protect_Next_iff | apply protect_Reply].
Qed.

Lemma optionalAuth_iff (env : Auth.Env) (db : User.Collection) (now : Z)
    (token : option Crypto.RawToken) (user : User.t) :
  Gate.optionalAuth env db now token = Some user
  <-> exists p k,
        token = Some (Crypto.Jwt p k)
        ∧ Auth.JWT_SECRET env = Some k
        ∧ Jwt.verify (Crypto.Jwt p k) k now = inr p
        ∧ User.findById (Crypto.p_id p) db = Some user
        ∧ User.isActive user = true.
Proof.
  unfold Gate.optionalAuth. split.
  - destruct (Auth.present token) as [t|] eqn:Hpresent; [|done].
    apply present_Some in Hpresent as ->.
    destruct (Auth.JWT_SECRET env) as [secret|]; [|done].
    destruct (Jwt.verify t secret now) as [e|decoded] eqn:Hverify; [done|].
    pose proof (verify_inr _ _ _ _ Hverify) as ->.
    destruct (User.findById _ db) as [u|] eqn:Hfind; [|done].
    destruct (User.isActive u) eqn:Hactive; [|done].
    intros [= ->]. exists decoded, secret. eauto 10.
  - intros (p & k & -> & -> & Hverify & Hfind & Hactive).
    by rewrite present_Jwt, Hverify, Hfind, Hactive.
Qed.

(** X2. Whatever the gate lets through is also accepted, with the same
    user, by the optional gate and by the socket handshake. *)
Theorem protect_implies_optionalAuth_and_handshake
    (env : Auth.Env) (db : User.Collection) (now : Z)
    (token : option Crypto.RawToken) (user : User.t) :
  Gate.protect env db now token = Gate.Next user ->
  Gate.optionalAuth env db now token = Some user
  ∧ Socket.authenticate env db now token = Socket.Accepted (User._id user) user.
Proof.
  intros H.
  apply protect_Next_iff in H
    as (p & k & -> & Hsecret & Hverify & _ & Hfind & Hactive & _).
  split.
  - apply optionalAuth_iff. exists p, k. eauto 10.
  - apply authenticate_accepts_iff. exists p, k. eauto 10.
Qed.

Lemma protect_implies_optionalAuth_and_handshake_witness :
  Gate.protect Sample.env [Sample.ann] 2000 (Some Sample.access_token)
  = Gate.Next Sample.ann
  ∧ Gate.optionalAuth Sample.env [Sample.ann] 2000 (Some Sample.access_token)
    = Some Sample.ann
  ∧ Socket.authenticate Sample.env [Sample.ann] 2000 (Some Sample.access_token)
    = Socket.Accepted (User._id Sample.ann) Sample.ann.
Proof.
  split; [reflexivity|].
  apply (protect_implies_optionalAuth_and_handshake Sample.env [Sample.ann] 2000
           (Some Sample.access_token) Sample.ann).
  reflexivity.
Defined.

(** ** Revoking refresh tokens: logout and changePassword *)

Lemma refresh_without_digest (env : Auth.Env) (db : User.Collection) (now : Z)
    (p : Crypto.Payload) (k : Crypto.Secret) (body : option Crypto.RawToken) :
  (forall d, d ∈ db -> User._id d = Crypto.p_id p -> User.refreshToken d = None) ->
  Auth.refreshToken env db now (Some (Crypto.Jwt p k)) body
  = (Http.fail 401 "Invalid or expired refresh token", db)
  ∨ Auth.refreshToken env db now (Some (Crypto.Jwt p k)) body
    = (Http.fail 401 "Invalid refresh token or token expired", db).
Proof.
  intros Hnone. unfold Auth.refreshToken. rewrite present_Jwt.
  destruct (Auth.JWT_REFRESH_SECRET env) as [secret|]; [|by left].
  destruct (Jwt.verify (Crypto.Jwt p k) secret now) as [e|decoded] eqn:Hverify;
    [by left|].
  pose proof (verify_inr _ _ _ _ Hverify) as [= <- ->].
  right. unfold User.findOne. rewrite find_all_false; [done|].
  intros d Hd.
  destruct (N.eqb_spec (User._id d) (Crypto.p_id p)) as [Heq|Hne]; [|done].
  rewrite (Hnone d Hd Heq). done.
Qed.

Lemma updateById_elem (id : N) (f : User.t -> User.t) (db : User.Collection)
    (d : User.t) :
  d ∈ User.updateById id f db ->
  exists d0, d0 ∈ db ∧ d = if N.eqb (User._id d0) id then f d0 else d0.
Proof.
  unfold User.updateById. intros H.
  apply list_elem_of_fmap in H as (d0 & -> & Hd0). eauto.
Qed.

Lemma updateById_twice (id : N) (f g : User.t -> User.t) (db : User.Collection) :
  (forall d, User._id (f d) = User._id d) ->
  User.updateById id g (User.updateById id f db)
  = User.updateById id (fun d => g (f d)) db.
Proof.
  intros Hid. unfold User.updateById. rewrite List.map_map.
  apply List.map_ext. intros d.
  destruct (N.eqb (User._id d) id) eqn:E; [by rewrite Hid, E | by rewrite E].
Qed.

(** X3. After [logout] for a user, presenting any token whose subject is
    that user to [refreshToken] is answered 401 and changes nothing; the
    documents of the other users are as before; and a second logout leaves
    the store as the first one did. *)
Theorem logout_revokes_refresh (env : Auth.Env) (db : User.Collection) (now : Z)
    (p : Crypto.Payload) (k : Crypto.Secret) (body : option Crypto.RawToken) :
  let userId := Crypto.p_id p in
  let db' := snd (Auth.logout db (Some userId)) in
  let again := Auth.refreshToken env db' now (Some (Crypto.Jwt p k)) body in
  Http.status (fst again) = 401 ∧ snd again = db'
  ∧ (forall other, other ≠ userId -> User.findById other db' = User.findById other db)
  ∧ snd (Auth.logout db' (Some userId)) = db'.
Proof.
  intros userId db' again. subst again db' userId.
  cbn [Auth.logout snd].
  split; [|split; [|split]].
  - destruct (refresh_without_digest env
                (User.updateById (Crypto.p_id p) (User.set_refresh None None) db)
                now p k body) as [-> | ->]; [|done|done].
    intros d Hd Hid. apply updateById_elem in Hd as (d0 & _ & ->).
    destruct (N.eqb_spec (User._id d0) (Crypto.p_id p)); [done|].
    congruence.
  - destruct (refresh_without_digest env
                (User.updateById (Crypto.p_id p) (User.set_refresh None None) db)
                now p k body) as [-> | ->]; [|done|done].
    intros d Hd Hid. apply updateById_elem in Hd as (d0 & _ & ->).
    destruct (N.eqb_spec (User._id d0) (Crypto.p_id p)); [done|].
    congruence.
  - intros other Hother. by apply findById_updateById_other.
  - by rewrite updateById_twice.
Qed.

Lemma changePassword_ok (db : User.Collection) (userId : N) (salt : string)
    (now : Z) (body : Auth.ChangePasswordBody) (user : User.t) :
  User.findById userId db = Some user ->
  Http.status (fst (Auth.changePassword db userId salt now body)) = 200 ->
  exists current new,
    Auth.cb_currentPassword body = Some current
    ∧ Auth.cb_newPassword body = Some new
    ∧ User.comparePassword current user = true
    ∧ (6 <= String.length new)%nat
    ∧ User.validate_loaded user = []
    ∧ snd (Auth.changePassword db userId salt now body)
      = User.updateById userId
          (fun d => User.set_refresh None None
                      (User.hash_changed_password salt new now d)) db.
Proof.
  intros Hfind. unfold Auth.changePassword.
  destruct (Str.truthy (Auth.cb_currentPassword body)) eqn:Hc; [|done].
  destruct (Str.truthy (Auth.cb_newPassword body)) eqn:Hn; [|done].
  apply truthy_Some in Hc as (current & Hcur & _).
  apply truthy_Some in Hn as (new & Hnew & _).
  rewrite Hcur, Hnew. cbn [andb negb default from_option]. cbv [id].
  destruct (Nat.ltb_spec (String.length new) 6) as [|Hlen]; [done|].
  rewrite Hfind.
  destruct (User.comparePassword current user) eqn:Hmatch; [|done].
  cbn [negb].
  destruct (User.validate_loaded user ++ User.validate_password new)%list
    as [|e l] eqn:Hval; [|done].
  apply app_eq_nil in Hval as [Hval _].
  intros _. exists current, new. cbn [snd].
  rewrite updateById_twice by done. done.
Qed.

(** X4. When [changePassword] answers 200, the current password given was
    accepted by the stored hash, and the stored document of the user now
    holds the hash of the new password under the fresh salt, which accepts
    the new password, has [passwordChangedAt] one second before the change
    and holds no refresh-token digest; its name, e-mail, subscriptions and
    activity flag are as before, and presenting any refresh token of that
    user is answered 401. *)
Theorem changePassword_effects (env : Auth.Env) (db : User.Collection)
    (userId : N) (salt : string) (now : Z) (body : Auth.ChangePasswordBody)
    (user : User.t) :
  User.findById userId db = Some user ->
  Http.status (fst (Auth.changePassword db userId salt now body)) = 200 ->
  let db' := snd (Auth.changePassword db userId salt now body) in
  exists current new d,
    Auth.cb_currentPassword body = Some current
    ∧ Auth.cb_newPassword body = Some new
    ∧ User.comparePassword current user = true
    ∧ User.findById userId db' = Some d
    ∧ User.password d = Crypto.Bcrypt salt new
    ∧ User.comparePassword new d = true
    ∧ User.passwordChangedAt d = Some (now - 1000)
    ∧ User.refreshToken d = None ∧ User.refreshTokenExpiry d = None
    ∧ User.name d = User.name user ∧ User.email d = User.email user
    ∧ User.subscribedStocks d = User.subscribedStocks user
    ∧ User.isActive d = User.isActive user
    ∧ (forall now' p k body',
         Crypto.p_id p = userId ->
         Http.status (fst (Auth.refreshToken env db' now' (Some (Crypto.Jwt p k)) body'))
         = 401).
Proof.
  intros Hfind Hok db'. subst db'.
  destruct (changePassword_ok _ _ _ _ _ _ Hfind Hok)
    as (current & new & Hcur & Hnew & Hmatch & Hlen & Hval & ->).
  assert (Hrevoked : forall now' p k body',
            Crypto.p_id p = userId ->
            Http.status
              (fst (Auth.refreshToken env
                      (User.updateById userId
                         (fun d => User.set_refresh None None
                                     (User.hash_changed_password salt new now d)) db)
                      now' (Some (Crypto.Jwt p k)) body'))
            = 401).
  { intros now' p k body' Hid.
    match goal with
    | |- context [Auth.refreshToken env ?db0 now' _ body'] =>
        destruct (refresh_without_digest env db0 now' p k body') as [-> | ->];
          [|done|done]
    end.
    intros d Hd Hidd. apply updateById_elem in Hd as (d0 & _ & ->).
    destruct (N.eqb_spec (User._id d0) userId); [done|]. congruence. }
  exists current, new. eexists.
  split; [done|]. split; [done|]. split; [done|].
  split; [by apply findById_updateById|].
  split; [done|]. split.
  { unfold User.comparePassword. cbn [User.password User.hash_changed_password
      User.set_password User.set_refresh Crypto.bcrypt_compare].
    apply String.eqb_refl. }
  repeat (split; [done|]). exact Hrevoked.
Qed.

Lemma changePassword_effects_witness :
  let body := Auth.mkChangePasswordBody (Some "secret1") (Some "secret2") in
  let db' := snd (Auth.changePassword [Sample.ann] 1 "pepper" 9000 body) in
  Http.status (fst (Auth.changePassword [Sample.ann] 1 "pepper" 9000 body)) = 200
  ∧ exists current new d,
      Auth.cb_currentPassword body = Some current
      ∧ Auth.cb_newPassword body = Some new
      ∧ User.comparePassword current Sample.ann = true
      ∧ User.findById 1 db' = Some d
      ∧ User.password d = Crypto.Bcrypt "pepper" new
      ∧ User.comparePassword new d = true
      ∧ User.passwordChangedAt d = Some (9000 - 1000)
      ∧ User.refreshToken d = None ∧ User.refreshTokenExpiry d = None
      ∧ User.name d = User.name Sample.ann ∧ User.email d = User.email Sample.ann
      ∧ User.subscribedStocks d = User.subscribedStocks Sample.ann
      ∧ User.isActive d = User.isActive Sample.ann
      ∧ (forall now' p k body',
           Crypto.p_id p = 1%N ->
           Http.status
             (fst (Auth.refreshToken Sample.env db' now' (Some (Crypto.Jwt p k)) body'))
           = 401).
Proof.
  split; [vm_compute; reflexivity|].
  apply (changePassword_effects Sample.env [Sample.ann] 1%N "pepper" 9000
           (Auth.mkChangePasswordBody (Some "secret1") (Some "secret2"))
           Sample.ann).
  - reflexivity.
  - vm_compute; reflexivity.
Defined.

Lemma sign_verifies (id : N) (type : string) (secret : Crypto.Secret)
    (expiresIn issued now : Z) :
  Jwt.seconds now < Jwt.seconds issued + expiresIn ->
  Jwt.verify (Jwt.sign id type secret expiresIn issued) secret now
  = inr (Crypto.mkPayload id (Some type) (Jwt.seconds issued)
           (Jwt.seconds issued + expiresIn)).
Proof.
  intros Hfresh. unfold Jwt.verify, Jwt.sign. rewrite String.eqb_refl. cbn.
  destruct (Z.leb_spec (Jwt.seconds issued + expiresIn) (Jwt.seconds now));
    [lia | done].
Qed.

(** X5. After a successful [changePassword] at clock [now] (at least one
    second after the epoch), an access token of that user issued two
    seconds or more before the change is answered PASSWORD_CHANGED by the
    gate for as long as it has not expired, while one issued no earlier
    than one second before the change still passes. *)
Theorem changePassword_cuts_off_older_tokens
    (env : Auth.Env) (db : User.Collection) (userId : N) (salt : string)
    (now : Z) (body : Auth.ChangePasswordBody) (user : User.t)
    (issued now' : Z) (token : Crypto.RawToken) :
  User.findById userId db = Some user ->
  User.isActive user = true ->
  Http.status (fst (Auth.changePassword db userId salt now body)) = 200 ->
  1000 <= now ->
  Auth.generateAccessToken env userId issued = inr token ->
  Jwt.seconds now' < Jwt.seconds issued + 15 * 60 ->
  let db' := snd (Auth.changePassword db userId salt now body) in
  (issued + 2000 <= now ->
   Gate.code_of (Gate.protect env db' now' (Some token)) = Some "PASSWORD_CHANGED")
  ∧ (now - 1000 <= issued ->
     exists d, Gate.protect env db' now' (Some token) = Gate.Next d
               ∧ User._id d = userId).
Proof.
  intros Hfind Hactive Hok Hnow Htoken Hfresh db'. subst db'.
  destruct (changePassword_ok _ _ _ _ _ _ Hfind Hok)
    as (current & new & _ & _ & _ & _ & _ & ->).
  unfold Auth.generateAccessToken in Htoken.
  destruct (Auth.JWT_SECRET env) as [secret|] eqn:Hsecret; [|done].
  injection Htoken as <-.
  pose proof (findById_updateById userId
                (fun d => User.set_refresh None None
                            (User.hash_changed_password salt new now d))
                db user ltac:(done) Hfind) as Hfind'.
  assert (Hprotect :
    Gate.protect env
      (User.updateById userId
         (fun d => User.set_refresh None None
                     (User.hash_changed_password salt new now d)) db)
      now' (Some (Jwt.sign userId "access" secret (15 * 60) issued))
    = if Jwt.seconds issued <? Z.quot (now - 1000) 1000
      then Gate.Reply (Http.fail_code 401
                         "Password recently changed. Please login again."
                         "PASSWORD_CHANGED")
      else Gate.Next (User.set_refresh None None
                        (User.hash_changed_password salt new now user))).
  { unfold Gate.protect. rewrite Hsecret.
    change (Auth.present (Some (Jwt.sign userId "access" secret (15 * 60) issued)))
      with (Some (Jwt.sign userId "access" secret (15 * 60) issued)).
    cbv beta iota. cbn beta in Hfind'.
    rewrite sign_verifies by done.
    cbn [Crypto.p_type Crypto.p_id Crypto.p_iat].
    rewrite Hfind'.
    change (Str.truthy (Some "access")) with true.
    rewrite bool_decide_eq_true_2 by done. cbn [negb andb].
    cbn [User.isActive User.set_refresh User.hash_changed_password
         User.set_password].
    rewrite Hactive. cbn [negb]. reflexivity. }
  rewrite Hprotect. rewrite Z.quot_div_nonneg by lia.
  unfold Jwt.seconds. split.
  - intros Hold.
    assert (issued / 1000 < (now - 1000) / 1000) as Hlt.
    { apply Z.lt_le_trans with ((issued + 1000) / 1000).
      - replace (issued + 1000) with (issued + 1 * 1000) by lia.
        rewrite Z.div_add by lia. lia.
      - apply Z.div_le_mono; lia. }
    apply Z.ltb_lt in Hlt. rewrite Hlt. reflexivity.
  - intros Hrecent.
    assert ((now - 1000) / 1000 <= issued / 1000) as Hle
      by (apply Z.div_le_mono; lia).
    destruct (Z.ltb_spec (issued / 1000) ((now - 1000) / 1000)); [lia|].
    eexists; split; [reflexivity|]. cbn.
    apply N.eqb_eq. unfold User.findById in Hfind.
    apply List.find_some in Hfind as [_ Hfind]. exact Hfind.
Qed.

Lemma changePassword_cuts_off_older_tokens_witness :
  let body := Auth.mkChangePasswordBody (Some "secret1") (Some "secret2") in
  let db' := snd (Auth.changePassword [Sample.ann] 1 "pepper" 9000 body) in
  Gate.code_of (Gate.protect Sample.env db' 10000 (Some Sample.access_token))
  = Some "PASSWORD_CHANGED"
  ∧ ((1000 + 2000 <= 9000 ->
      Gate.code_of (Gate.protect Sample.env db' 10000 (Some Sample.access_token))
      = Some "PASSWORD_CHANGED")
     ∧ (9000 - 1000 <= 1000 ->
        exists d, Gate.protect Sample.env db' 10000 (Some Sample.access_token)
                  = Gate.Next d
                  ∧ User._id d = 1%N)).
Proof.
  split; [vm_compute; reflexivity|].
  apply (changePassword_cuts_off_older_tokens Sample.env [Sample.ann] 1%N "pepper"
           9000 (Auth.mkChangePasswordBody (Some "secret1") (Some "secret2"))
           Sample.ann 1000 10000 Sample.access_token).
  - reflexivity.
  - reflexivity.
  - vm_compute; reflexivity.
  - lia.
  - reflexivity.
  - vm_compute; reflexivity.
Defined.

(** ** What a successful login hands out *)

Lemma refresh_secret_configured (env : Auth.Env) :
  is_Some (Auth.JWT_SECRET env) -> is_Some (Auth.JWT_REFRESH_SECRET env).
Proof.
  intros [s Hs]. unfold Auth.JWT_REFRESH_SECRET.
  destruct (Str.truthy (Auth.env_JWT_REFRESH_SECRET env)) eqn:Ht; [|eauto].
  apply truthy_Some in Ht as (r & -> & _). eauto.
Qed.

Lemma login_success (env : Auth.Env) (db : User.Collection) (now : Z)
    (user : User.t) (email password : string) (rememberMe : bool)
    (secret rsecret : Crypto.Secret) :
  email ≠ "" -> password ≠ "" ->
  Auth.findByEmail email db = Some user ->
  User.isActive user = true ->
  User.isLocked now user = false ->
  User.comparePassword password user = true ->
  Auth.JWT_SECRET env = Some secret ->
  Auth.JWT_REFRESH_SECRET env = Some rsecret ->
  let accessToken := Jwt.sign (User._id user) "access" secret (15 * 60) now in
  let refreshToken :=
    Jwt.sign (User._id user) "refresh" rsecret (7 * 24 * 60 * 60) now in
  Auth.login env db now (Auth.mkLoginBody (Some email) (Some password) rememberMe)
  = (Http.mkResponse 200 true (Some "Login successful") None
       (Http.Session accessToken
          (if rememberMe then Some refreshToken else None)
          (15 * 60 * 1000) (Auth.view user))
       (Some refreshToken),
     User.updateById (User._id user)
       (fun d => User.set_refresh (Some (Crypto.sha256 refreshToken))
                   (Some (now + Auth.seven_days_ms))
                   (User.set_lockUntil None
                      (User.set_lastLogin (Some now)
                         (User.set_loginAttempts 0 d)))) db).
Proof.
  intros Hemail Hpw Hfind Hactive Hlocked Hmatch Hsecret Hrsecret.
  rewrite (login_reaches_user env db now user email password rememberMe) by done.
  rewrite Hlocked, Hmatch. cbn [negb].
  unfold Auth.generateAccessToken, Auth.generateRefreshToken.
  rewrite Hsecret, Hrsecret. cbv zeta. unfold User.resetLoginAttempts.
  rewrite updateById_twice by done. reflexivity.
Qed.

Lemma find_some_exists {A} (f : A -> bool) (l : list A) (x : A) :
  x ∈ l -> f x = true -> exists y, List.find f l = Some y ∧ f y = true.
Proof.
  induction l as [|a l IH]; intros Hx Hf; [by apply elem_of_nil in Hx|].
  simpl. destruct (f a) eqn:Ha; [eauto|].
  apply elem_of_cons in Hx as [->|Hx]; [congruence|]. by apply IH.
Qed.

Lemma findById_elem (id : N) (db : User.Collection) (u : User.t) :
  User.findById id db = Some u -> u ∈ db ∧ User._id u = id.
Proof.
  unfold User.findById. intros H. apply List.find_some in H as [Hin Hid].
  split; [by apply list_elem_of_In | by apply N.eqb_eq].
Qed.

(** X6. The refresh token set by a successful login is accepted by
    [refreshToken] exactly as long as the token itself has not expired,
    that is while the clock second is less than the second of the login
    plus seven days: the expiry stored beside the digest never decides. *)
Theorem login_refresh_token_valid_seven_days
    (env : Auth.Env) (db : User.Collection) (now now' : Z)
    (user : User.t) (email password : string) (rememberMe : bool) :
  email ≠ "" -> password ≠ "" ->
  Auth.findByEmail email db = Some user ->
  User.findById (User._id user) db = Some user ->
  User.isActive user = true ->
  User.isLocked now user = false ->
  User.comparePassword password user = true ->
  is_Some (Auth.JWT_SECRET env) ->
  let logged :=
    Auth.login env db now (Auth.mkLoginBody (Some email) (Some password) rememberMe) in
  exists refreshToken,
    Http.cookie (fst logged) = Some refreshToken
    ∧ (Http.status (fst (Auth.refreshToken env (snd logged) now'
                           (Some refreshToken) None)) = 200
       <-> Jwt.seconds now' < Jwt.seconds now + 7 * 24 * 60 * 60).
Proof.
  intros Hemail Hpw Hfind Hid Hactive Hlocked Hmatch Hconf logged. subst logged.
  destruct Hconf as [secret Hsecret].
  destruct (refresh_secret_configured env) as [rsecret Hrsecret]; [eauto|].
  rewrite (login_success env db now user email password rememberMe secret rsecret)
    by done.
  cbn [fst snd Http.cookie].
  eexists; split; [reflexivity|].
  set (rt := Jwt.sign (User._id user) "refresh" rsecret (7 * 24 * 60 * 60) now).
  set (db2 := User.updateById _ _ db).
  assert (Hstored : exists d, d ∈ db2 ∧ User._id d = User._id user
            ∧ User.refreshToken d = Some (Crypto.sha256 rt)
            ∧ User.refreshTokenExpiry d = Some (now + Auth.seven_days_ms)).
  { exists (User.set_refresh (Some (Crypto.sha256 rt))
              (Some (now + Auth.seven_days_ms))
              (User.set_lockUntil None
                 (User.set_lastLogin (Some now) (User.set_loginAttempts 0 user)))).
    split; [|done].
    eapply findById_elem. subst db2.
    by apply (findById_updateById (User._id user)
                (fun d => User.set_refresh (Some (Crypto.sha256 rt))
                            (Some (now + Auth.seven_days_ms))
                            (User.set_lockUntil None
                               (User.set_lastLogin (Some now)
                                  (User.set_loginAttempts 0 d))))). }
  destruct Hstored as (d & Hd & Hdid & Hdigest & Hexpiry).
  unfold Auth.refreshToken.
  change (Auth.present (Some rt)) with (Some rt). cbv beta iota.
  rewrite Hrsecret.
  destruct (Z.lt_ge_cases (Jwt.seconds now') (Jwt.seconds now + 7 * 24 * 60 * 60))
    as [Hfresh|Hstale].
  - split; [done|]. intros _. subst rt. rewrite sign_verifies by done.
    cbn [Crypto.p_id].
    destruct (find_some_exists
                (fun u => N.eqb (User._id u) (User._id user)
                          && bool_decide
                               (User.refreshToken u
                                = Some (Crypto.sha256
                                          (Jwt.sign (User._id user) "refresh" rsecret
                                             (7 * 24 * 60 * 60) now)))
                          && Auth.expiry_in_future now' u)
                db2 d Hd) as (u & Hu & _).
    { rewrite Hdid, N.eqb_refl, bool_decide_eq_true_2 by done.
      unfold Auth.expiry_in_future. rewrite Hexpiry. cbn [andb].
      apply Z.ltb_lt. unfold Auth.seven_days_ms, Jwt.seconds in *.
      pose proof (Z.div_mod now' 1000 ltac:(lia)).
      pose proof (Z.mod_pos_bound now' 1000 ltac:(lia)).
      pose proof (Z.div_mod now 1000 ltac:(lia)).
      pose proof (Z.mod_pos_bound now 1000 ltac:(lia)).
      lia. }
    unfold User.findOne. rewrite Hu.
    unfold Auth.generateAccessToken, Auth.generateRefreshToken.
    rewrite Hsecret, Hrsecret. reflexivity.
  - split; [|lia]. subst rt. unfold Jwt.verify, Jwt.sign.
    rewrite String.eqb_refl. cbn [Crypto.p_exp].
    destruct (Z.leb_spec (Jwt.seconds now + 7 * 24 * 60 * 60) (Jwt.seconds now'));
      [done | lia].
Qed.

Lemma login_refresh_token_valid_seven_days_witness :
  let logged := Auth.login Sample.env [Sample.ann] 1000 (Sample.login_body "secret1") in
  exists refreshToken,
    Http.cookie (fst logged) = Some refreshToken
    ∧ (Http.status (fst (Auth.refreshToken Sample.env (snd logged) 604800999
                           (Some refreshToken) None)) = 200
       <-> Jwt.seconds 604800999 < Jwt.seconds 1000 + 7 * 24 * 60 * 60).
Proof.
  apply (login_refresh_token_valid_seven_days Sample.env [Sample.ann] 1000
           604800999 Sample.ann "ann@x.com" "secret1" true).
  - discriminate.
  - discriminate.
  - reflexivity.
  - reflexivity.
  - reflexivity.
  - reflexivity.
  - reflexivity.
  - vm_compute. eauto.
Defined.

(** X7. A successful login answers with a session whose refresh token is
    in the body only with [rememberMe] but always in the cookie; the store
    then holds the digest of that token with an expiry seven days ahead, a
    failure counter of 0 and [lastLogin = now], while the user projection in
    the answer still carries the [lastLogin] from before this login. The
    access token of the answer passes the gate, as that user, exactly while
    the clock second is less than the second of the login plus 15 minutes
    (the password not having been changed after the login). *)
Theorem login_session (env : Auth.Env) (db : User.Collection) (now : Z)
    (user : User.t) (email password : string) (rememberMe : bool) :
  email ≠ "" -> password ≠ "" ->
  Auth.findByEmail email db = Some user ->
  User.findById (User._id user) db = Some user ->
  User.isActive user = true ->
  User.isLocked now user = false ->
  User.comparePassword password user = true ->
  User.changedPasswordAfter (Jwt.seconds now) user = false ->
  is_Some (Auth.JWT_SECRET env) ->
  let logged :=
    Auth.login env db now (Auth.mkLoginBody (Some email) (Some password) rememberMe) in
  exists accessToken refreshToken d,
    Http.status (fst logged) = 200
    ∧ Http.data (fst logged)
      = Http.Session accessToken (if rememberMe then Some refreshToken else None)
          (15 * 60 * 1000) (Auth.view user)
    ∧ Http.cookie (fst logged) = Some refreshToken
    ∧ Http.v_lastLogin (Auth.view user) = User.lastLogin user
    ∧ User.findById (User._id user) (snd logged) = Some d
    ∧ User.refreshToken d = Some (Crypto.sha256 refreshToken)
    ∧ User.refreshTokenExpiry d = Some (now + 7 * 24 * 60 * 60 * 1000)
    ∧ User.loginAttempts d = 0 ∧ User.lockUntil d = None
    ∧ User.lastLogin d = Some now
    ∧ (forall now',
         Gate.protect env (snd logged) now' (Some accessToken) = Gate.Next d
         <-> Jwt.seconds now' < Jwt.seconds now + 15 * 60).
Proof.
  intros Hemail Hpw Hfind Hid Hactive Hlocked Hmatch Hchanged Hconf logged.
  subst logged. destruct Hconf as [secret Hsecret].
  destruct (refresh_secret_configured env) as [rsecret Hrsecret]; [eauto|].
  rewrite (login_success env db now user email password rememberMe secret rsecret)
    by done.
  cbn [fst snd Http.cookie Http.data Http.status].
  set (rt := Jwt.sign (User._id user) "refresh" rsecret (7 * 24 * 60 * 60) now).
  set (f := fun d => User.set_refresh (Some (Crypto.sha256 rt))
                       (Some (now + Auth.seven_days_ms))
                       (User.set_lockUntil None
                          (User.set_lastLogin (Some now)
                             (User.set_loginAttempts 0 d)))).
  assert (Hstored : User.findById (User._id user)
                      (User.updateById (User._id user) f db) = Some (f user))
    by (by apply findById_updateById).
  exists (Jwt.sign (User._id user) "access" secret (15 * 60) now), rt, (f user).
  repeat (split; [done|]).
  intros now'. rewrite protect_Next_iff. split.
  - intros (p & k & [= <- <-] & _ & Hverify & _).
    unfold Jwt.verify in Hverify. rewrite String.eqb_refl in Hverify.
    cbn [Crypto.p_exp] in Hverify.
    destruct (Z.leb_spec (Jwt.seconds now + 15 * 60) (Jwt.seconds now'));
      [done | lia].
  - intros Hfresh. do 2 eexists. split; [reflexivity|]. split; [done|].
    split; [by apply sign_verifies|]. cbn [Crypto.p_type Crypto.p_id Crypto.p_iat].
    split; [eauto|]. split; [done|]. split; done.
Qed.

Lemma login_session_witness :
  let logged := Auth.login Sample.env [Sample.ann] 1000 (Sample.login_body "secret1") in
  exists accessToken refreshToken d,
    Http.status (fst logged) = 200
    ∧ Http.data (fst logged)
      = Http.Session accessToken (if true then Some refreshToken else None)
          (15 * 60 * 1000) (Auth.view Sample.ann)
    ∧ Http.cookie (fst logged) = Some refreshToken
    ∧ Http.v_lastLogin (Auth.view Sample.ann) = User.lastLogin Sample.ann
    ∧ User.findById (User._id Sample.ann) (snd logged) = Some d
    ∧ User.refreshToken d = Some (Crypto.sha256 refreshToken)
    ∧ User.refreshTokenExpiry d = Some (1000 + 7 * 24 * 60 * 60 * 1000)
    ∧ User.loginAttempts d = 0 ∧ User.lockUntil d = None
    ∧ User.lastLogin d = Some 1000
    ∧ (forall now',
         Gate.protect Sample.env (snd logged) now' (Some accessToken) = Gate.Next d
         <-> Jwt.seconds now' < Jwt.seconds 1000 + 15 * 60).
Proof.
  apply (login_session Sample.env [Sample.ann] 1000 Sample.ann
           "ann@x.com" "secret1" true).
  - discriminate.
  - discriminate.
  - reflexivity.
  - reflexivity.
  - reflexivity.
  - reflexivity.
  - reflexivity.
  - reflexivity.
  - vm_compute. eauto.
Defined.

(** ** What refreshToken leaves alone *)

Lemma refreshToken_store (env : Auth.Env) (db : User.Collection) (now : Z)
    (p : Crypto.Payload) (k : Crypto.Secret) (body : option Crypto.RawToken) :
  let r := Auth.refreshToken env db now (Some (Crypto.Jwt p k)) body in
  (Http.status (fst r) ≠ 200 ∧ snd r = db)
  ∨ (Http.status (fst r) = 200
     ∧ exists digest expiry,
         snd r = User.updateById (Crypto.p_id p)
                   (User.set_refresh digest expiry) db).
Proof.
  cbv zeta.
  destruct (decide (Http.status
                      (fst (Auth.refreshToken env db now (Some (Crypto.Jwt p k)) body))
                    = 200)) as [Hok|Hko].
  - right. split; [done|].
    destruct (refreshToken_ok _ _ _ _ _ _ Hok) as (a & n & _ & _ & _ & ->).
    cbn [snd]. eauto.
  - left. split; [done|]. revert Hko. unfold Auth.refreshToken.
    rewrite present_Jwt.
    destruct (Auth.JWT_REFRESH_SECRET env); [|done].
    destruct (Jwt.verify _ _ _); [done|].
    destruct (User.findOne _ db); [|done].
    destruct (Auth.generateAccessToken _ _ _); [done|].
    destruct (Auth.generateRefreshToken _ _ _); [done|]. cbn. done.
Qed.

(** X8. Whatever token is presented, [refreshToken] leaves the store as it
    is unless it answers 200; the documents of users other than the
    token's subject are never changed; and in every stored document the
    name, e-mail, password, subscriptions, failure counter, lockout and
    activity flag are as before. *)
Theorem refreshToken_touches_only_refresh_fields
    (env : Auth.Env) (db : User.Collection) (now : Z)
    (p : Crypto.Payload) (k : Crypto.Secret) (body : option Crypto.RawToken) :
  let r := Auth.refreshToken env db now (Some (Crypto.Jwt p k)) body in
  (Http.status (fst r) ≠ 200 -> snd r = db)
  ∧ (forall other, other ≠ Crypto.p_id p ->
       User.findById other (snd r) = User.findById other db)
  ∧ Forall2 (fun d d' =>
               User._id d' = User._id d ∧ User.name d' = User.name d
               ∧ User.email d' = User.email d
               ∧ User.password d' = User.password d
               ∧ User.subscribedStocks d' = User.subscribedStocks d
               ∧ User.loginAttempts d' = User.loginAttempts d
               ∧ User.lockUntil d' = User.lockUntil d
               ∧ User.passwordChangedAt d' = User.passwordChangedAt d
               ∧ User.isActive d' = User.isActive d)
            db (snd r).
Proof.
  intros r. subst r.
  destruct (refreshToken_store env db now p k body)
    as [[Hko ->] | [Hok (digest & expiry & ->)]].
  - split; [done|]. split; [done|].
    apply Forall2_same_length_lookup. split; [done|].
    intros i d d' Hd Hd'. by simplify_eq.
  - split; [done|]. split.
    + intros other Hother. apply findById_updateById_other; [done|congruence].
    + unfold User.updateById. apply Forall2_fmap_r, Forall_Forall2_diag.
      apply Forall_forall. intros d _. unfold compose.
      destruct (N.eqb (User._id d) (Crypto.p_id p)); repeat split; reflexivity.
Qed.

(** ** Registration, provisioning and the uniqueness of e-mails *)

Lemma create_inr (newId : N) (salt : string) (now : Z)
    (name email password : string) (user : User.t) :
  Auth.create newId salt now name email password = inr user ->
  user = User.mk newId (User.set_name name) (User.set_email email)
           (Crypto.Bcrypt salt password) [] None None None 0 None None true now
  ∧ User.validate_name (User.set_name name) = []
  ∧ User.validate_email (User.set_email email) = []
  ∧ User.validate_password password = [].
Proof.
  unfold Auth.create.
  destruct (_ ++ _)%list as [|e l] eqn:Hval; [|done].
  intros [= <-]. apply app_eq_nil in Hval as [-> Hval].
  apply app_eq_nil in Hval as [-> ->]. done.
Qed.

Lemma register_created (db : User.Collection) (newId : N) (salt : string)
    (now : Z) (body : Auth.RegisterBody) :
  Http.status (fst (Auth.register db newId salt now body)) = 201 ->
  exists name email password user,
    Auth.rb_name body = Some name ∧ Auth.rb_email body = Some email
    ∧ Auth.rb_password body = Some password
    ∧ email ≠ "" ∧ password ≠ ""
    ∧ Auth.findByEmail email db = None
    ∧ Auth.create newId salt now name email password = inr user
    ∧ Auth.register db newId salt now body
      = (Http.ok 201 (Some "Registration successful! Please login.")
           (Http.Registered (User._id user) (User.name user) (User.email user)),
         (db ++ [user])%list).
Proof.
  unfold Auth.register.
  destruct (Str.truthy (Auth.rb_name body)) eqn:Hn; [|done].
  destruct (Str.truthy (Auth.rb_email body)) eqn:He; [|done].
  destruct (Str.truthy (Auth.rb_password body)) eqn:Hp; [|done].
  apply truthy_Some in Hn as (name & Hname & _).
  apply truthy_Some in He as (email & Hemail & Hemail').
  apply truthy_Some in Hp as (password & Hpassword & Hpassword').
  rewrite Hname, Hemail, Hpassword. cbn [andb negb default from_option]. cbv [id].
  destruct (String.length password <? 6)%nat; [done|].
  destruct (Auth.findByEmail email db) eqn:Hfind; [done|].
  destruct (Auth.create newId salt now name email password) as [errs|user] eqn:Hc;
    [done|].
  intros _. exists name, email, password, user. done.
Qed.

Lemma findByEmail_app_new (email : string) (db : User.Collection) (user : User.t) :
  Auth.findByEmail email db = None ->
  User.email user = User.set_email email ->
  Auth.findByEmail email (db ++ [user])%list = Some user.
Proof.
  unfold Auth.findByEmail, User.findOne. intros Hnone Hemail.
  induction db as [|d db IH]; simpl in *.
  - by rewrite Hemail, String.eqb_refl.
  - destruct (String.eqb (User.email d) (User.set_email email)); [done|].
    by apply IH.
Qed.

(** X9. For a name, an e-mail and a password of ASCII characters: when
    [register] answers 201, the collection has grown by exactly one user,
    stored with the trimmed name, the trimmed lower-cased e-mail, no
    subscriptions and an active flag; a login with the same e-mail and
    password then succeeds (the token secret being configured), a login
    with a password the stored hash does not accept is answered 400 or
    401, and registering again with an e-mail that normalises to the same
    address is answered 400 and creates nothing. *)
Theorem register_then_login (env : Auth.Env) (db : User.Collection) (newId : N)
    (salt : string) (now : Z) (name email password : string) :
  let body := Auth.mkRegisterBody (Some name) (Some email) (Some password) in
  Str.is_ascii name = true -> Str.is_ascii email = true ->
  Str.is_ascii password = true ->
  Http.status (fst (Auth.register db newId salt now body)) = 201 ->
  is_Some (Auth.JWT_SECRET env) ->
  let db' := snd (Auth.register db newId salt now body) in
  exists user,
    db' = (db ++ [user])%list
    ∧ User.name user = Str.trim name
    ∧ User.email user = Str.toLowerCase (Str.trim email)
    ∧ User.subscribedStocks user = [] ∧ User.isActive user = true
    ∧ (forall now' rememberMe,
         Http.status (fst (Auth.login env db' now'
                             (Auth.mkLoginBody (Some email) (Some password) rememberMe)))
         = 200)
    ∧ (forall now' rememberMe other,
         User.comparePassword other user = false ->
         Http.status (fst (Auth.login env db' now'
                             (Auth.mkLoginBody (Some email) (Some other) rememberMe)))
         ∈ [400; 401])
    ∧ (forall newId' salt' now' name' email' password',
         User.set_email email' = User.set_email email ->
         Http.status (fst (Auth.register db' newId' salt' now'
                             (Auth.mkRegisterBody (Some name') (Some email')
                                (Some password'))))
         = 400
         ∧ snd (Auth.register db' newId' salt' now'
                  (Auth.mkRegisterBody (Some name') (Some email') (Some password')))
           = db').
Proof.
  intros body _ _ _ Hok Hconf db'. subst db' body.
  destruct (register_created _ _ _ _ _ Hok)
    as (n & e & pw & user & [= <-] & [= <-] & [= <-] & Hemail & Hpw & Hnone & Hc & ->).
  apply create_inr in Hc as (-> & _).
  eexists. cbn [snd]. split; [reflexivity|].
  split; [done|]. split; [done|]. split; [done|]. split; [done|].
  set (user := User.mk _ _ _ _ _ _ _ _ _ _ _ _ _).
  assert (Hfound : Auth.findByEmail email (db ++ [user])%list = Some user)
    by (by apply findByEmail_app_new).
  destruct Hconf as [secret Hsecret].
  destruct (refresh_secret_configured env) as [rsecret Hrsecret]; [eauto|].
  split; [|split].
  - intros now' rememberMe.
    rewrite (login_success env _ now' user email password rememberMe secret rsecret);
      try done.
    unfold User.comparePassword, user.
    cbn [User.password Crypto.bcrypt_compare]. apply String.eqb_refl.
  - intros now' rememberMe other Hother.
    destruct (decide (other = "")) as [->|Hne].
    + unfold Auth.login. cbn [Auth.lb_email Auth.lb_password].
      rewrite truthy_nonempty by done. cbn. set_solver.
    + rewrite (login_reaches_user env _ now' user email other rememberMe) by done.
      change (User.isLocked now' user) with false. cbv beta iota.
      rewrite Hother. cbn. set_solver.
  - intros newId' salt' now' name' email' password' Hsame.
    unfold Auth.register.
    cbn [Auth.rb_name Auth.rb_email Auth.rb_password default from_option].
    cbv [id].
    destruct (negb _); [done|].
    destruct (String.length password' <? 6)%nat; [done|].
    assert (Auth.findByEmail email' (db ++ [user])%list = Some user) as ->; [|done].
    unfold Auth.findByEmail in *. by rewrite Hsame.
Qed.

Lemma register_then_login_witness :
  let body := Auth.mkRegisterBody (Some " Bob ") (Some "Bob@X.com ") (Some "hunter22") in
  let db' := snd (Auth.register [Sample.ann] 2 "salt" 5000 body) in
  exists user,
    db' = ([Sample.ann] ++ [user])%list
    ∧ User.name user = Str.trim " Bob "
    ∧ User.email user = Str.toLowerCase (Str.trim "Bob@X.com ")
    ∧ User.subscribedStocks user = [] ∧ User.isActive user = true
    ∧ (forall now' rememberMe,
         Http.status (fst (Auth.login Sample.env db' now'
                             (Auth.mkLoginBody (Some "Bob@X.com ") (Some "hunter22")
                                rememberMe)))
         = 200)
    ∧ (forall now' rememberMe other,
         User.comparePassword other user = false ->
         Http.status (fst (Auth.login Sample.env db' now'
                             (Auth.mkLoginBody (Some "Bob@X.com ") (Some other)
                                rememberMe)))
         ∈ [400; 401])
    ∧ (forall newId' salt' now' name' email' password',
         User.set_email email' = User.set_email "Bob@X.com " ->
         Http.status (fst (Auth.register db' newId' salt' now'
                             (Auth.mkRegisterBody (Some name') (Some email')
                                (Some password'))))
         = 400
         ∧ snd (Auth.register db' newId' salt' now'
                  (Auth.mkRegisterBody (Some name') (Some email') (Some password')))
           = db').
Proof.
  apply (register_then_login Sample.env [Sample.ann] 2%N "salt" 5000
           " Bob " "Bob@X.com " "hunter22").
  - reflexivity.
  - reflexivity.
  - reflexivity.
  - vm_compute; reflexivity.
  - vm_compute. eauto.
Defined.

Lemma findByEmail_None (email : string) (db : User.Collection) :
  Auth.findByEmail email db = None -> User.set_email email ∉ User.email <$> db.
Proof.
  unfold Auth.findByEmail, User.findOne. intros Hnone Hin.
  apply list_elem_of_fmap in Hin as (u & Hu & Hin).
  apply list_elem_of_In in Hin.
  pose proof (List.find_none _ _ Hnone u Hin) as Hfalse. cbn beta in Hfalse.
  rewrite <- Hu, String.eqb_refl in Hfalse. done.
Qed.

Lemma emails_updateById (id : N) (f : User.t -> User.t) (db : User.Collection) :
  (forall d, User.email (f d) = User.email d) ->
  User.email <$> User.updateById id f db = User.email <$> db.
Proof.
  intros Hf. unfold User.updateById.
  induction db as [|d db IH]; [done|]. cbn. f_equal; [|exact IH].
  destruct (N.eqb (User._id d) id); [apply Hf | done].
Qed.

Lemma register_store (db : User.Collection) (newId : N) (salt : string)
    (now : Z) (body : Auth.RegisterBody) :
  snd (Auth.register db newId salt now body) = db
  ∨ exists email user,
      Auth.findByEmail email db = None
      ∧ User.email user = User.set_email email
      ∧ snd (Auth.register db newId salt now body) = (db ++ [user])%list.
Proof.
  unfold Auth.register.
  destruct (negb _); [by left|].
  destruct (String.length _ <? 6)%nat; [by left|].
  destruct (Auth.findByEmail _ db) eqn:Hfind; [by left|].
  destruct (Auth.create _ _ _ _ _ _) as [errs|user] eqn:Hc; [by left|].
  right. apply create_inr in Hc as (-> & _).
  do 2 eexists. split; [exact Hfind|]. split; [|reflexivity]. reflexivity.
Qed.

Lemma emailLogin_store (env : Auth.Env) (db : User.Collection) (newId : N)
    (salt randomPassword : string) (now : Z) (body : Auth.EmailLoginBody) :
  exists db1,
    (db1 = db
     ∨ exists email created,
         Auth.findByEmail email db = None
         ∧ User.email created = User.set_email email
         ∧ db1 = (db ++ [created])%list)
    ∧ (snd (Auth.emailLogin env db newId salt randomPassword now body) = db1
       ∨ exists id digest expiry,
           snd (Auth.emailLogin env db newId salt randomPassword now body)
           = User.updateById id (User.set_refresh digest expiry) db1).
Proof.
  unfold Auth.emailLogin.
  destruct (negb _); [exists db; eauto|].
  set (normalizedEmail := Str.toLowerCase _).
  destruct (Auth.findByEmail normalizedEmail db) as [user|] eqn:Hfind.
  - exists db. split; [by left|].
    destruct (negb (User.isActive user)); [by left|].
    destruct (Auth.generateAccessToken _ _ _); [by left|].
    destruct (Auth.generateRefreshToken _ _ _); [by left|].
    right. cbn [snd]. eauto.
  - destruct (Auth.create _ _ _ _ _ _) as [errs|created] eqn:Hc.
    + exists db. split; [by left | by left].
    + apply create_inr in Hc as (-> & _).
      match goal with
      | |- context [(db ++ [?c])%list] =>
          exists (db ++ [c])%list; split; [right; by exists normalizedEmail, c|]
      end.
      destruct (negb (User.isActive _)); [by left|].
      destruct (Auth.generateAccessToken _ _ _); [by left|].
      destruct (Auth.generateRefreshToken _ _ _); [by left|].
      right. cbn [snd]. eauto.
Qed.

(** X10. [register] and [emailLogin] keep the stored e-mail addresses
    pairwise distinct: neither ever adds a second document with an address
    that is already stored. *)
Theorem emails_stay_unique (env : Auth.Env) (db : User.Collection) (newId : N)
    (salt randomPassword : string) (now : Z)
    (rbody : Auth.RegisterBody) (ebody : Auth.EmailLoginBody) :
  NoDup (User.email <$> db) ->
  NoDup (User.email <$> snd (Auth.register db newId salt now rbody))
  ∧ NoDup (User.email
             <$> snd (Auth.emailLogin env db newId salt randomPassword now ebody)).
Proof.
  intros Hnd.
  assert (Happ : forall email user,
            Auth.findByEmail email db = None ->
            User.email user = User.set_email email ->
            NoDup (User.email <$> (db ++ [user])%list)).
  { intros email user Hnone Huser. rewrite fmap_app. apply NoDup_app.
    split; [done|]. split; [|apply NoDup_singleton].
    intros x Hx Hx'. cbn in Hx'. apply list_elem_of_singleton in Hx' as ->.
    rewrite Huser in Hx. by apply findByEmail_None in Hnone. }
  split.
  - destruct (register_store db newId salt now rbody)
      as [-> | (email & user & Hnone & Huser & ->)]; [done | by eapply Happ].
  - destruct (emailLogin_store env db newId salt randomPassword now ebody)
      as (db1 & Hdb1 & Hsnd).
    assert (NoDup (User.email <$> db1)) as Hnd1.
    { destruct Hdb1 as [-> | (email & created & Hnone & Hc & ->)];
        [done | by eapply Happ]. }
    destruct Hsnd as [-> | (id & digest & expiry & ->)]; [done|].
    by rewrite emails_updateById.
Qed.

Lemma emails_stay_unique_witness :
  NoDup (User.email <$> [Sample.ann])
  ∧ NoDup (User.email
             <$> snd (Auth.register [Sample.ann] 2 "salt" 5000
                        (Sample.register_body "Bob")))
  ∧ NoDup (User.email
             <$> snd (Auth.emailLogin Sample.env [Sample.ann] 2 "salt"
                        "0123456789abcdef01234567" 5000
                        (Auth.mkEmailLoginBody (Some " ANN@x.com") false))).
Proof.
  assert (H : NoDup (User.email <$> [Sample.ann]))
    by (apply NoDup_singleton).
  split; [exact H|].
  exact (emails_stay_unique Sample.env [Sample.ann] 2%N "salt"
           "0123456789abcdef01234567" 5000 (Sample.register_body "Bob")
           (Auth.mkEmailLoginBody (Some " ANN@x.com") false) H).
Defined.

Lemma length_updateById (id : N) (f : User.t -> User.t) (db : User.Collection) :
  length (User.updateById id f db) = length db.
Proof. unfold User.updateById. apply length_map. Qed.

(** X11. [emailLogin] with the address of a stored, active user needs no
    password and does not look at the lockout: it answers 200 with a
    session for that user and sets the refresh cookie, the store then holds
    the digest of that token, no document is added, and the user's
    password, failure counter, lockout and [lastLogin] are left as they
    were. *)
Theorem emailLogin_existing_user (env : Auth.Env) (db : User.Collection)
    (newId : N) (salt randomPassword email : string) (now : Z)
    (rememberMe : bool) (user : User.t) :
  email ≠ "" ->
  Auth.findByEmail (Str.toLowerCase (Str.trim email)) db = Some user ->
  User.findById (User._id user) db = Some user ->
  User.isActive user = true ->
  is_Some (Auth.JWT_SECRET env) ->
  let result :=
    Auth.emailLogin env db newId salt randomPassword now
      (Auth.mkEmailLoginBody (Some email) rememberMe) in
  exists accessToken refreshToken d,
    Http.status (fst result) = 200
    ∧ Http.data (fst result)
      = Http.Session accessToken (if rememberMe then Some refreshToken else None)
          (15 * 60 * 1000) (Auth.view user)
    ∧ Http.cookie (fst result) = Some refreshToken
    ∧ length (snd result) = length db
    ∧ User.findById (User._id user) (snd result) = Some d
    ∧ User.refreshToken d = Some (Crypto.sha256 refreshToken)
    ∧ User.password d = User.password user
    ∧ User.loginAttempts d = User.loginAttempts user
    ∧ User.lockUntil d = User.lockUntil user
    ∧ User.lastLogin d = User.lastLogin user.
Proof.
  intros Hemail Hfind Hid Hactive Hconf result. subst result.
  destruct Hconf as [secret Hsecret].
  destruct (refresh_secret_configured env) as [rsecret Hrsecret]; [eauto|].
  unfold Auth.emailLogin.
  cbn [Auth.eb_email Auth.eb_rememberMe default from_option]. cbv [id].
  rewrite truthy_nonempty by done. cbn [negb].
  rewrite Hfind, Hactive. cbn [negb].
  unfold Auth.generateAccessToken, Auth.generateRefreshToken.
  rewrite Hsecret, Hrsecret.
  cbn [fst snd Http.status Http.data Http.cookie].
  do 3 eexists. split; [reflexivity|]. split; [reflexivity|].
  split; [reflexivity|]. split; [apply length_updateById|].
  split; [by apply findById_updateById|]. done.
Qed.

Lemma emailLogin_existing_user_witness :
  let result :=
    Auth.emailLogin Sample.env [Sample.locked_ann] 2 "salt"
      "0123456789abcdef01234567" 2000
      (Auth.mkEmailLoginBody (Some " Ann@X.com ") false) in
  User.isLocked 2000 Sample.locked_ann = true
  ∧ exists accessToken refreshToken d,
      Http.status (fst result) = 200
      ∧ Http.data (fst result)
        = Http.Session accessToken (if false then Some refreshToken else None)
            (15 * 60 * 1000) (Auth.view Sample.locked_ann)
      ∧ Http.cookie (fst result) = Some refreshToken
      ∧ length (snd result) = length [Sample.locked_ann]
      ∧ User.findById (User._id Sample.locked_ann) (snd result) = Some d
      ∧ User.refreshToken d = Some (Crypto.sha256 refreshToken)
      ∧ User.password d = User.password Sample.locked_ann
      ∧ User.loginAttempts d = User.loginAttempts Sample.locked_ann
      ∧ User.lockUntil d = User.lockUntil Sample.locked_ann
      ∧ User.lastLogin d = User.lastLogin Sample.locked_ann.
Proof.
  split; [reflexivity|].
  apply (emailLogin_existing_user Sample.env [Sample.locked_ann] 2%N "salt"
           "0123456789abcdef01234567" " Ann@X.com " 2000 false Sample.locked_ann).
  - discriminate.
  - vm_compute; reflexivity.
  - reflexivity.
  - reflexivity.
  - vm_compute. eauto.
Defined.

Lemma findById_app_new (db : User.Collection) (user : User.t) :
  User.findById (User._id user) db = None ->
  User.findById (User._id user) (db ++ [user])%list = Some user.
Proof.
  unfold User.findById. intros Hnone.
  induction db as [|d db IH]; simpl in *.
  - by rewrite N.eqb_refl.
  - destruct (N.eqb (User._id d) (User._id user)); [done | by apply IH].
Qed.

(** X12. [emailLogin] with an address of ASCII characters that is not
    stored (and a fresh identifier, a generated password of ASCII
    characters, the token secret being configured) provisions a user: the
    name is the part of the normalised address before the first [@], or
    "User" when that part has fewer than two characters. When name, address
    and password pass the schema validators, the answer is 200, exactly one
    document is added, with that name, the normalised address, no
    subscriptions and the digest of the refresh cookie, and a later
    [emailLogin] with the same address finds it; otherwise the answer is 500
    and the store is unchanged. *)
Theorem emailLogin_provisions (env : Auth.Env) (db : User.Collection)
    (newId : N) (salt randomPassword email : string) (now : Z)
    (rememberMe : bool) :
  Str.is_ascii email = true -> Str.is_ascii randomPassword = true ->
  email ≠ "" ->
  let normalizedEmail := Str.toLowerCase (Str.trim email) in
  Auth.findByEmail normalizedEmail db = None ->
  User.findById newId db = None ->
  is_Some (Auth.JWT_SECRET env) ->
  let local := Str.before_first "@"%char normalizedEmail in
  let name := if (2 <=? String.length local)%nat then local else "User" in
  let errors :=
    (User.validate_name (User.set_name name)
     ++ User.validate_email (User.set_email normalizedEmail)
     ++ User.validate_password randomPassword)%list in
  let result :=
    Auth.emailLogin env db newId salt randomPassword now
      (Auth.mkEmailLoginBody (Some email) rememberMe) in
  (errors ≠ [] -> Http.status (fst result) = 500 ∧ snd result = db)
  ∧ (errors = [] ->
     exists refreshToken d,
       Http.status (fst result) = 200
       ∧ Http.cookie (fst result) = Some refreshToken
       ∧ length (snd result) = S (length db)
       ∧ User.findById newId (snd result) = Some d
       ∧ User.name d = User.set_name name
       ∧ User.email d = User.set_email normalizedEmail
       ∧ User.subscribedStocks d = []
       ∧ User.refreshToken d = Some (Crypto.sha256 refreshToken)
       ∧ Auth.findByEmail normalizedEmail (snd result) = Some d).
Proof.
  intros _ _ Hemail normalizedEmail Hnone Hfresh Hconf local name errors result.
  destruct Hconf as [secret Hsecret].
  destruct (refresh_secret_configured env) as [rsecret Hrsecret]; [eauto|].
  assert (Hname : (if (2 <=? String.length
                                (if String.eqb local "" then "User" else local))%nat
                   then (if String.eqb local "" then "User" else local)
                   else "User") = name).
  { subst name. destruct (String.eqb_spec local "") as [->|Hne]; [done|reflexivity]. }
  subst result. unfold Auth.emailLogin.
  cbn [Auth.eb_email Auth.eb_rememberMe default from_option]. cbv [id].
  rewrite truthy_nonempty by done. cbn [negb].
  fold normalizedEmail. rewrite Hnone. fold local. rewrite Hname.
  unfold Auth.create. fold errors.
  destruct errors as [|e errs] eqn:Herrors.
  - split; [done|]. intros _.
    set (created := User.mk newId _ _ _ _ _ _ _ _ _ _ _ _).
    assert (Hreload : User.findById (User._id created) (db ++ [created])%list
                      = Some created) by (by apply findById_app_new).
    rewrite Hreload. cbn [default from_option]. cbv [id].
    change (User.isActive created) with true. cbn [negb].
    unfold Auth.generateAccessToken, Auth.generateRefreshToken.
    rewrite Hsecret, Hrsecret.
    cbn [fst snd Http.status Http.cookie].
    do 2 eexists. split; [reflexivity|]. split; [reflexivity|].
    split; [rewrite length_updateById, length_app; simpl; lia|].
    split; [by apply (findById_updateById newId)|].
    do 4 (split; [reflexivity|]).
    assert (Hfound : Auth.findByEmail normalizedEmail (db ++ [created])%list
                     = Some created) by (by apply findByEmail_app_new).
    unfold Auth.findByEmail, User.findOne, User.updateById in *.
    revert Hfound. generalize (db ++ [created])%list. intros l.
    induction l as [|x l IH]; [done|]. cbn.
    destruct (N.eqb (User._id x) newId) eqn:Hx.
    + cbn. destruct (String.eqb (User.email x) _) eqn:Hex.
      * intros [= ->]. done.
      * intros H. by apply IH.
    + destruct (String.eqb (User.email x) _) eqn:Hex.
      * intros [= ->]. cbn in Hx. by rewrite N.eqb_refl in Hx.
      * intros H. by apply IH.
  - split; [|done]. intros _. done.
Qed.

Lemma emailLogin_provisions_witness :
  let normalizedEmail := Str.toLowerCase (Str.trim "Bob.Roe@X.com") in
  let local := Str.before_first "@"%char normalizedEmail in
  let name := if (2 <=? String.length local)%nat then local else "User" in
  let errors :=
    (User.validate_name (User.set_name name)
     ++ User.validate_email (User.set_email normalizedEmail)
     ++ User.validate_password "0123456789abcdef01234567")%list in
  let result :=
    Auth.emailLogin Sample.env [Sample.ann] 2 "salt" "0123456789abcdef01234567"
      5000 (Auth.mkEmailLoginBody (Some "Bob.Roe@X.com") false) in
  name = "bob.roe" ∧ errors = []
  ∧ (errors ≠ [] -> Http.status (fst result) = 500 ∧ snd result = [Sample.ann])
  ∧ (errors = [] ->
     exists refreshToken d,
       Http.status (fst result) = 200
       ∧ Http.cookie (fst result) = Some refreshToken
       ∧ length (snd result) = S (length [Sample.ann])
       ∧ User.findById 2 (snd result) = Some d
       ∧ User.name d = User.set_name name
       ∧ User.email d = User.set_email normalizedEmail
       ∧ User.subscribedStocks d = []
       ∧ User.refreshToken d = Some (Crypto.sha256 refreshToken)
       ∧ Auth.findByEmail normalizedEmail (snd result) = Some d).
Proof.
  split; [vm_compute; reflexivity|]. split; [vm_compute; reflexivity|].
  apply (emailLogin_provisions Sample.env [Sample.ann] 2%N "salt"
           "0123456789abcdef01234567" "Bob.Roe@X.com" 5000 false).
  - reflexivity.
  - reflexivity.
  - discriminate.
  - vm_compute; reflexivity.
  - reflexivity.
  - vm_compute. eauto.
Defined.

(** ** Subscriptions: what the two handlers preserve *)

Lemma stocks_store (op : User.Collection -> N -> option string
                         -> Http.Response * User.Collection)
    (db : User.Collection) (userId : N) (ticker : option string) :
  op = Stocks.subscribeStock ∨ op = Stocks.unsubscribeStock ->
  (Http.status (fst (op db userId ticker)) ≠ 200 ∧ snd (op db userId ticker) = db)
  ∨ exists user stocks,
      User.findById userId db = Some user
      ∧ Http.status (fst (op db userId ticker)) = 200
      ∧ User.validate_loaded (User.set_subscribedStocks stocks user) = []
      ∧ (stocks = (User.subscribedStocks user ++ [Stocks.normalize ticker])%list
           ∧ Stocks.normalize ticker ∉ User.subscribedStocks user
         ∨ stocks = List.filter
                      (fun s => negb (String.eqb s (Stocks.normalize ticker)))
                      (User.subscribedStocks user))
      ∧ snd (op db userId ticker)
        = User.updateById userId (User.set_subscribedStocks stocks) db.
Proof.
  intros [-> | ->].
  - unfold Stocks.subscribeStock, Stocks.subscribeStock_at.
    destruct (Stocks.unsupported _); [by left|].
    destruct (User.findById userId db) as [user|] eqn:Hfind; [|by left].
    destruct (Str.includes _ _) eqn:Hinc; [by left|].
    destruct (User.validate_loaded _) as [|e l] eqn:Hval; [|by left].
    right. exists user. eexists. split; [done|]. split; [done|].
    split; [exact Hval|]. split; [|done]. left. split; [done|].
    by apply includes_false.
  - unfold Stocks.unsubscribeStock, Stocks.unsubscribeStock_at.
    destruct (Stocks.unsupported _); [by left|].
    destruct (User.findById userId db) as [user|] eqn:Hfind; [|by left].
    destruct (negb (Str.includes _ _)); [by left|].
    destruct (User.validate_loaded _) as [|e l] eqn:Hval; [|by left].
    right. exists user. eexists. split; [done|]. split; [done|].
    split; [exact Hval|]. split; [|done]. by right.
Qed.

Lemma validate_subscribedStocks_nil (l : list string) :
  User.validate_subscribedStocks l = [] <-> Forall (fun t => t ∈ User.enum_values) l.
Proof.
  unfold User.validate_subscribedStocks. induction l as [|a l IH]; simpl.
  - split; [constructor | done].
  - destruct (Str.includes a User.enum_values) eqn:Ha; simpl.
    + apply includes_true in Ha. rewrite IH. split.
      * by constructor.
      * by intros [_ ?]%Forall_cons.
    + apply includes_false in Ha. split; [done|]. by intros [? _]%Forall_cons.
Qed.

Lemma validate_loaded_stocks (u : User.t) :
  User.validate_loaded u = [] ->
  Forall (fun t => t ∈ User.enum_values) (User.subscribedStocks u).
Proof.
  unfold User.validate_loaded. intros H.
  apply app_eq_nil in H as [_ H]. apply app_eq_nil in H as [_ H].
  by apply validate_subscribedStocks_nil.
Qed.

Lemma js_filter_NoDup (t : string) (l : list string) :
  NoDup l -> NoDup (List.filter (fun s => negb (String.eqb s t)) l).
Proof.
  intros H. exact (sublist_NoDup _ _ H (js_filter_sublist t l)).
Qed.

(** X13. For [subscribeStock] and [unsubscribeStock] alike: the documents
    of the other users are never changed; the user's own document keeps
    its name, e-mail, password and tokens; a duplicate-free list stays
    duplicate-free; and whenever the answer is 200 every ticker of the
    stored list is one of the seven supported ones. *)
Theorem subscription_handlers_preserve
    (op : User.Collection -> N -> option string -> Http.Response * User.Collection)
    (db : User.Collection) (userId : N) (ticker : option string) (user : User.t) :
  op = Stocks.subscribeStock ∨ op = Stocks.unsubscribeStock ->
  User.findById userId db = Some user ->
  let db' := snd (op db userId ticker) in
  (forall other, other ≠ userId -> User.findById other db' = User.findById other db)
  ∧ exists user',
      User.findById userId db' = Some user'
      ∧ User.name user' = User.name user ∧ User.email user' = User.email user
      ∧ User.password user' = User.password user
      ∧ User.refreshToken user' = User.refreshToken user
      ∧ (NoDup (User.subscribedStocks user) -> NoDup (User.subscribedStocks user'))
      ∧ (Http.status (fst (op db userId ticker)) = 200 ->
         Forall (fun t => t ∈ Stocks.SUPPORTED_STOCKS) (User.subscribedStocks user')).
Proof.
  intros Hop Hfind db'. subst db'.
  destruct (stocks_store op db userId ticker Hop)
    as [[Hko Hsame] | (u & stocks & Hu & Hok & Hval & Hstocks & Hdb)].
  - rewrite Hsame. split; [done|]. exists user. repeat split; done.
  - rewrite Hdb. rewrite Hfind in Hu. injection Hu as <-. split.
    + intros other Hother. by apply findById_updateById_other.
    + eexists. split; [by apply findById_updateById|].
      cbn [User.set_subscribedStocks User.name User.email User.password
           User.refreshToken User.subscribedStocks].
      repeat (split; [done|]). split.
      * intros Hnd. destruct Hstocks as [[-> Hnotin] | ->].
        -- apply NoDup_app. repeat split; [done| |apply NoDup_singleton].
           intros x Hx Hx'. apply list_elem_of_singleton in Hx'. by subst.
        -- by apply js_filter_NoDup.
      * intros _. apply validate_loaded_stocks in Hval. exact Hval.
Qed.

Lemma subscription_handlers_preserve_witness :
  let db := [Sample.with_stocks ["GOOG"] Sample.ann] in
  let db' := snd (Stocks.subscribeStock db 1 (Some "msft")) in
  Http.status (fst (Stocks.subscribeStock db 1 (Some "msft"))) = 200
  ∧ (forall other, other ≠ 1%N -> User.findById other db' = User.findById other db)
  ∧ exists user',
      User.findById 1 db' = Some user'
      ∧ User.name user' = User.name (Sample.with_stocks ["GOOG"] Sample.ann)
      ∧ User.email user' = User.email (Sample.with_stocks ["GOOG"] Sample.ann)
      ∧ User.password user' = User.password (Sample.with_stocks ["GOOG"] Sample.ann)
      ∧ User.refreshToken user'
        = User.refreshToken (Sample.with_stocks ["GOOG"] Sample.ann)
      ∧ (NoDup (User.subscribedStocks (Sample.with_stocks ["GOOG"] Sample.ann)) ->
         NoDup (User.subscribedStocks user'))
      ∧ (Http.status (fst (Stocks.subscribeStock db 1 (Some "msft"))) = 200 ->
         Forall (fun t => t ∈ Stocks.SUPPORTED_STOCKS) (User.subscribedStocks user')).
Proof.
  split; [vm_compute; reflexivity|].
  apply (subscription_handlers_preserve Stocks.subscribeStock
           [Sample.with_stocks ["GOOG"] Sample.ann] 1%N (Some "msft")
           (Sample.with_stocks ["GOOG"] Sample.ann)).
  - left; reflexivity.
  - reflexivity.
Defined.

(** ** Ticker spelling *)

Lemma upper_char_space (c : ascii) :
  Str.is_js_space (Str.upper_char c) = Str.is_js_space c.
Proof. destruct c as [[] [] [] [] [] [] [] []]; reflexivity. Qed.

Lemma upper_char_idem (c : ascii) :
  Str.upper_char (Str.upper_char c) = Str.upper_char c.
Proof. destruct c as [[] [] [] [] [] [] [] []]; reflexivity. Qed.

Lemma drop_spaces_no_leading (l : list ascii) :
  Str.no_leading_space (Str.drop_spaces l).
Proof.
  induction l as [|c l IH]; simpl; [done|].
  destruct (Str.is_js_space c) eqn:E; [exact IH | exact E].
Qed.

Lemma drop_spaces_fixed (l : list ascii) :
  Str.no_leading_space l -> Str.drop_spaces l = l.
Proof. destruct l as [|c l]; simpl; [done|]. by intros ->. Qed.

Lemma drop_spaces_suffix (l : list ascii) :
  exists pre, l = (pre ++ Str.drop_spaces l)%list.
Proof.
  induction l as [|c l [pre IH]]; simpl.
  - by exists [].
  - destruct (Str.is_js_space c).
    + exists (c :: pre). simpl. by rewrite <- IH.
    + by exists [].
Qed.

Lemma drop_spaces_map_upper (l : list ascii) :
  Str.drop_spaces (List.map Str.upper_char l)
  = List.map Str.upper_char (Str.drop_spaces l).
Proof.
  induction l as [|c l IH]; simpl; [done|].
  rewrite upper_char_space. by destruct (Str.is_js_space c).
Qed.

Lemma trim_list_map_upper (l : list ascii) :
  Str.trim_list (List.map Str.upper_char l) = List.map Str.upper_char (Str.trim_list l).
Proof.
  unfold Str.trim_list.
  by rewrite drop_spaces_map_upper, <- List.map_rev, drop_spaces_map_upper,
       List.map_rev.
Qed.

Lemma trim_list_idem (l : list ascii) : Str.trim_list (Str.trim_list l) = Str.trim_list l.
Proof.
  unfold Str.trim_list.
  set (a := Str.drop_spaces l). set (b := Str.drop_spaces (List.rev a)).
  assert (Ha : Str.no_leading_space a) by apply drop_spaces_no_leading.
  assert (Hb : Str.no_leading_space b) by apply drop_spaces_no_leading.
  destruct (drop_spaces_suffix (List.rev a)) as [pre Hpre]. fold b in Hpre.
  assert (Hrb : Str.no_leading_space (List.rev b)).
  { apply (f_equal (@List.rev ascii)) in Hpre.
    rewrite List.rev_involutive, List.rev_app_distr in Hpre.
    destruct (List.rev b) as [|c r]; [done|]. rewrite Hpre in Ha. exact Ha. }
  rewrite (drop_spaces_fixed _ Hrb), List.rev_involutive.
  by rewrite (drop_spaces_fixed _ Hb).
Qed.

Lemma list_of_map_chars (f : ascii -> ascii) (s : string) :
  String.list_ascii_of_string (Str.map_chars f s)
  = List.map f (String.list_ascii_of_string s).
Proof. induction s as [|c s IH]; simpl; [done | by rewrite IH]. Qed.

Lemma list_of_trim (s : string) :
  String.list_ascii_of_string (Str.trim s)
  = Str.trim_list (String.list_ascii_of_string s).
Proof. unfold Str.trim. apply String.list_ascii_of_string_of_list_ascii. Qed.

Lemma normalize_idem (ticker : option string) :
  Stocks.normalize (Some (Stocks.normalize ticker)) = Stocks.normalize ticker.
Proof.
  unfold Stocks.normalize. cbn [default from_option]. cbv [id].
  set (s := match ticker with Some x => x | None => "" end).
  replace (from_option (fun x => x) "" ticker) with s
    by (by destruct ticker).
  rewrite <- (String.string_of_list_ascii_of_string
                (Str.toUpperCase (Str.trim (Str.toUpperCase (Str.trim s))))).
  rewrite <- (String.string_of_list_ascii_of_string
                (Str.toUpperCase (Str.trim s))) at 2.
  f_equal. unfold Str.toUpperCase.
  rewrite !list_of_map_chars, !list_of_trim, !list_of_map_chars, !list_of_trim.
  rewrite trim_list_map_upper, trim_list_idem, List.map_map.
  apply List.map_ext. intros c. apply upper_char_idem.
Qed.

(** X14. For a ticker of ASCII characters (absent counting as the empty
    string): normalising it twice is the same as normalising it once, so
    both handlers give the same answer and the same store for the ticker
    as for its trimmed upper-case form: spelling in other case or with
    surrounding white space makes no difference. *)
Theorem ticker_spelling_irrelevant (db : User.Collection) (userId : N)
    (ticker : option string) :
  Str.is_ascii (default "" ticker) = true ->
  let normal := Stocks.normalize ticker in
  Stocks.normalize (Some normal) = normal
  ∧ Stocks.subscribeStock db userId (Some normal)
    = Stocks.subscribeStock db userId ticker
  ∧ Stocks.unsubscribeStock db userId (Some normal)
    = Stocks.unsubscribeStock db userId ticker.
Proof.
  intros _ normal. subst normal.
  split; [apply normalize_idem|].
  unfold Stocks.subscribeStock, Stocks.unsubscribeStock,
    Stocks.subscribeStock_at, Stocks.unsubscribeStock_at.
  by rewrite normalize_idem.
Qed.

Lemma ticker_spelling_irrelevant_witness :
  Stocks.normalize (Some "  tSla ") = "TSLA"
  ∧ Stocks.normalize (Some "TSLA") = "TSLA"
  ∧ Stocks.subscribeStock [Sample.ann] 1 (Some "TSLA")
    = Stocks.subscribeStock [Sample.ann] 1 (Some "  tSla ")
  ∧ Stocks.unsubscribeStock [Sample.ann] 1 (Some "TSLA")
    = Stocks.unsubscribeStock [Sample.ann] 1 (Some "  tSla ").
Proof.
  split; [reflexivity|].
  apply (ticker_spelling_irrelevant [Sample.ann] 1%N (Some "  tSla ")).
  reflexivity.
Defined.

(** ** Rounding of the reported change *)

Lemma hundredths_times_100 (n : Z) : (Engine.of_hundredths n * 100 == inject_Z n)%Q.
Proof.
  unfold Engine.of_hundredths. rewrite (Qmake_Qdiv n 100). field.
Qed.

Lemma floor_half (y : Q) :
  (y - (1#2) < inject_Z (Qfloor (y + (1 # 2))) /\ inject_Z (Qfloor (y + (1 # 2))) <= y + (1#2))%Q.
Proof.
  pose proof (Qfloor_le (y + (1#2))). pose proof (Qlt_floor (y + (1#2))) as H1.
  rewrite inject_Z_plus in H1. change (inject_Z 1) with 1%Q in H1. split; lra.
Qed.

Lemma toFixed2_nearest (x : Q) :
  (- (1#2) <= inject_Z (Engine.toFixed2 x) - x * 100 <= 1#2)%Q
  /\ ((0 <= x)%Q -> 0 <= Engine.toFixed2 x)
  /\ ((x <= 0)%Q -> Engine.toFixed2 x <= 0).
Proof.
  unfold Engine.toFixed2.
  destruct (Qle_bool 0 x) eqn:Hsign.
  - apply Qle_bool_iff in Hsign.
    pose proof (floor_half (x * 100)) as [H1 H2].
    split; [lra|]. split.
    + intros _. rewrite <- (Qfloor_Z 0). apply Qfloor_resp_le.
      change (inject_Z 0) with 0%Q. lra.
    + intros Hx.
      assert (inject_Z (Qfloor (x * 100 + (1 # 2))) < inject_Z 1)%Q as H
        by (change (inject_Z 1) with 1%Q; lra).
      rewrite <- Zlt_Qlt in H. lia.
  - assert (x < 0)%Q as Hneg.
    { apply Qnot_le_lt. intros H. apply Qle_bool_iff in H. congruence. }
    pose proof (floor_half (- x * 100)) as [H1 H2].
    rewrite inject_Z_opp.
    assert (0 <= Qfloor (- x * 100 + (1#2))) as Hpos.
    { rewrite <- (Qfloor_Z 0). apply Qfloor_resp_le. change (inject_Z 0) with 0%Q. lra. }
    split; [lra|]. split; [lra | lia].
Qed.

Lemma calculateChange_nearest (st : Engine.State) (ticker : string) (b c ch : Z) :
  Engine.basePrices !! ticker = Some b -> 0 < b ->
  Engine.stockPrices st !! ticker = Some c ->
  Engine.calculateChange st ticker = Some ch ->
  2 * Z.abs (ch * b - 10000 * (c - b)) <= b
  /\ (b <= c -> 0 <= ch) /\ (c <= b -> ch <= 0).
Proof.
  intros Hb Hpos Hc. unfold Engine.calculateChange. rewrite Hb, Hc. cbn.
  intros [= <-].
  set (x := ((Engine.of_hundredths c - Engine.of_hundredths b)
             / Engine.of_hundredths b * 100)%Q).
  pose proof (toFixed2_nearest x) as ([Hlo Hhi] & Hge & Hle).
  pose proof (hundredths_times_100 b) as Eb.
  pose proof (hundredths_times_100 c) as Ec.
  assert (Hb' : (0 < inject_Z b)%Q) by (rewrite (Zlt_Qlt 0 b) in Hpos; exact Hpos).
  assert (Hx : (x * inject_Z b == 100 * (inject_Z c - inject_Z b))%Q).
  { subst x. rewrite <- Eb, <- Ec. field.
    intros H0. rewrite H0 in Eb. lra. }
  split; [|split].
  - assert (Hq : (- inject_Z b <= 2 * (inject_Z (Engine.toFixed2 x) * inject_Z b
                     - 10000 * (inject_Z c - inject_Z b)) <= inject_Z b)%Q).
    { set (k := inject_Z (Engine.toFixed2 x)) in *. clearbody k.
      set (B := inject_Z b) in *. set (C := inject_Z c) in *. clearbody B C.
      split; nra. }
    assert (Hz : (inject_Z (2 * (Engine.toFixed2 x * b + - (10000 * (c + - b))))
                  == 2 * (inject_Z (Engine.toFixed2 x) * inject_Z b
                          - 10000 * (inject_Z c - inject_Z b)))%Q).
    { repeat (rewrite ?inject_Z_mult, ?inject_Z_plus, ?inject_Z_opp).
      change (inject_Z 2) with 2%Q. change (inject_Z 10000) with 10000%Q. ring. }
    rewrite <- Hz in Hq. rewrite <- inject_Z_opp in Hq.
    destruct Hq as [Hq1 Hq2]. rewrite <- Zle_Qle in Hq1, Hq2. lia.
  - intros Hbc. apply Hge.
    rewrite (Zle_Qle b c) in Hbc.
    assert (0 <= x * inject_Z b)%Q by (rewrite Hx; lra).
    set (B := inject_Z b) in *. clearbody B. clearbody x. nra.
  - intros Hcb. apply Hle.
    rewrite (Zle_Qle c b) in Hcb.
    assert (x * inject_Z b <= 0)%Q by (rewrite Hx; lra).
    set (B := inject_Z b) in *. clearbody B. clearbody x. nra.
Qed.

Lemma basePrices_positive (t : string) (b : Z) :
  Engine.basePrices !! t = Some b -> 0 < b.
Proof.
  intros H.
  assert (Hall : map_Forall (fun _ (b : Z) => 0 < b) Engine.basePrices).
  { unfold Engine.basePrices. simpl.
    repeat (apply map_Forall_insert_2; [lia|]). apply map_Forall_empty. }
  exact (Hall t b H).
Qed.

(** X16. For a supported ticker with a current price, the reported change
    is the percentage move from the base price to the nearest hundredth of
    a percent: with base [b] and price [c] in hundredths, the reported
    value [ch] satisfies [2 |ch b - 10000 (c - b)| <= b]; it is never
    negative when the price is at or above the base and never positive when
    it is at or below. *)
Theorem change_is_nearest_hundredth (st : Engine.State) (ticker : string) (c : Z) :
  ticker ∈ Engine.SUPPORTED_STOCKS ->
  Engine.stockPrices st !! ticker = Some c ->
  exists b ch,
    Engine.basePrices !! ticker = Some b ∧ 0 < b
    ∧ Engine.calculateChange st ticker = Some ch
    ∧ 2 * Z.abs (ch * b - 10000 * (c - b)) <= b
    ∧ (b <= c -> 0 <= ch) ∧ (c <= b -> ch <= 0).
Proof.
  intros Hin Hc. destruct (basePrices_keys ticker Hin) as [b Hb].
  pose proof (basePrices_positive ticker b Hb) as Hpos.
  assert (Hch : exists ch, Engine.calculateChange st ticker = Some ch).
  { unfold Engine.calculateChange. rewrite Hb, Hc. cbn. eauto. }
  destruct Hch as [ch Hch]. exists b, ch.
  split; [done|]. split; [done|]. split; [done|].
  exact (calculateChange_nearest st ticker b c ch Hb Hpos Hc Hch).
Qed.

Lemma change_is_nearest_hundredth_witness :
  "TSLA" ∈ Engine.SUPPORTED_STOCKS
  ∧ exists b ch,
      Engine.basePrices !! "TSLA" = Some b ∧ 0 < b
      ∧ Engine.calculateChange
          (Engine.mkState (<["TSLA" := 39022]> Engine.initialPrices)
             Engine.initialHistory) "TSLA" = Some ch
      ∧ 2 * Z.abs (ch * b - 10000 * (39022 - b)) <= b
      ∧ (b <= 39022 -> 0 <= ch) ∧ (39022 <= b -> ch <= 0).
Proof.
  assert (Hin : "TSLA" ∈ Engine.SUPPORTED_STOCKS)
    by (unfold Engine.SUPPORTED_STOCKS; do 2 right; left).
  split; [exact Hin|].
  apply (change_is_nearest_hundredth
           (Engine.mkState (<["TSLA" := 39022]> Engine.initialPrices)
              Engine.initialHistory) "TSLA" 39022 Hin).
  vm_compute; reflexivity.
Defined.

(** ** Histories and what the chart is sent *)

Lemma updateTicker_tracks (random : Q) (t : string) (st : Engine.State) (k : nat) :
  Chart.tracks k st t -> (k <= 50)%nat ->
  exists st',
    Engine.updateTicker random t st = Some st'
    ∧ Chart.tracks (Nat.min (k + 1) 50) st' t
    ∧ (forall t' k', t' ≠ t -> Chart.tracks k' st t' -> Chart.tracks k' st' t').
Proof.
  intros (p & h & Hp & Hh & Hlast & Hlen) Hk.
  unfold Engine.updateTicker. rewrite Hp, Hh. cbn [mbind option_bind].
  eexists. split; [reflexivity|]. split.
  - unfold Chart.tracks. cbn [Engine.stockPrices Engine.priceHistory].
    rewrite !lookup_insert_eq. do 2 eexists.
    split; [reflexivity|]. split; [reflexivity|].
    destruct (Nat.ltb_spec 50 (length (h ++ [Engine.generatePrice p random])%list))
      as [Hlt|Hle]; rewrite length_app in *; simpl in *.
    + destruct h as [|x h]; [simpl in *; lia|]. cbn [app tail].
      split; [apply last_snoc|]. rewrite length_app. simpl in *. lia.
    + split; [apply last_snoc|]. lia.
  - intros t' k' Hne (p' & h' & Hp' & Hh' & Hrest).
    exists p', h'. cbn [Engine.stockPrices Engine.priceHistory].
    by rewrite !lookup_insert_ne.
Qed.

Lemma updateLoop_tracks (rnd : string -> Q) (l : list string)
    (st : Engine.State) (k : nat) :
  NoDup l -> (k <= 50)%nat ->
  (forall t, t ∈ l -> Chart.tracks k st t) ->
  exists st',
    foldl (fun acc ticker => s ← acc; Engine.updateTicker (rnd ticker) ticker s)
          (Some st) l = Some st'
    ∧ (forall t, t ∈ l -> Chart.tracks (Nat.min (k + 1) 50) st' t)
    ∧ (forall t k', t ∉ l -> Chart.tracks k' st t -> Chart.tracks k' st' t).
Proof.
  revert st. induction l as [|x l IH]; intros st Hnd Hk Hall; simpl.
  - exists st. split; [done|]. split; [|done].
    intros t Ht. by apply elem_of_nil in Ht.
  - apply NoDup_cons in Hnd as [Hx Hnd].
    destruct (updateTicker_tracks (rnd x) x st k) as (st1 & -> & Hx1 & Hothers);
      [apply Hall; by left | done |].
    destruct (IH st1 Hnd Hk) as (st' & Hfold & Hin & Hout).
    { intros t Ht. apply Hothers; [intros ->; done|]. apply Hall. by right. }
    exists st'. split; [exact Hfold|]. split.
    + intros t Ht. apply elem_of_cons in Ht as [->|Ht]; [by apply Hout | by apply Hin].
    + intros t k' Ht Htr. apply not_elem_of_cons in Ht as [Hne Ht].
      apply Hout; [done|]. by apply Hothers.
Qed.

Lemma SUPPORTED_NoDup : NoDup Engine.SUPPORTED_STOCKS.
Proof. apply (bool_decide_unpack _). by vm_compute. Qed.

Lemma seed_tracks (t : string) :
  t ∈ Engine.SUPPORTED_STOCKS -> Chart.tracks 1 Engine.seed t.
Proof.
  intros Ht. unfold Engine.SUPPORTED_STOCKS in Ht.
  repeat (apply elem_of_cons in Ht as [->|Ht];
          [do 2 eexists; repeat split; vm_compute; reflexivity|]).
  by apply elem_of_nil in Ht.
Qed.

Lemma run_ticks_tracks (n : nat) (rnd : nat -> string -> Q) (clock : nat -> Z) :
  exists st,
    run_ticks n rnd clock Engine.seed = Some st
    ∧ Inv.holds st
    ∧ forall t, t ∈ Engine.SUPPORTED_STOCKS ->
                Chart.tracks (Nat.min (n + 1) 50) st t.
Proof.
  induction n as [|n (st & Hrun & Hst & Htr)].
  - exists Engine.seed. split; [done|]. split; [apply seed_holds|].
    intros t Ht. by apply seed_tracks.
  - simpl. rewrite Hrun. cbn [mbind option_bind].
    destruct (updatePrices_total (rnd n) (clock n) st Hst)
      as (st' & data & Hup & Hst' & _).
    rewrite Hup. cbn. exists st'. split; [done|]. split; [done|].
    unfold Engine.updatePrices in Hup.
    destruct (updateLoop_tracks (rnd n) Engine.SUPPORTED_STOCKS st
                (Nat.min (n + 1) 50) SUPPORTED_NoDup ltac:(lia) Htr)
      as (st1 & Hfold & Hin & _).
    rewrite Hfold in Hup. cbn [mbind option_bind] in Hup.
    destruct (Engine.getFullStockData st1); [|done].
    cbn [mbind option_bind] in Hup. injection Hup as <- _.
    intros t Ht.
    match goal with
    | |- Chart.tracks ?k _ _ =>
        replace k with (Nat.min (Nat.min (n + 1) 50 + 1) 50) by lia
    end.
    by apply Hin.
Qed.

Lemma slice_last_facts {A} (n : nat) (l : list A) :
  (0 < n)%nat ->
  Engine.slice_last n l `suffix_of` l
  ∧ length (Engine.slice_last n l) = Nat.min (length l) n
  ∧ last (Engine.slice_last n l) = last l.
Proof.
  intros Hn. unfold Engine.slice_last. split; [|split].
  - exists (take (length l - n) l). by rewrite take_drop.
  - rewrite length_drop. lia.
  - destruct l as [|x l]; [done|].
    rewrite !last_lookup, length_drop, lookup_drop. f_equal. simpl. lia.
Qed.

(** X17. After [n] ticks from the seed, whatever the draws, every supported
    ticker has a history of exactly [min (n + 1) 50] points whose newest
    point is its current price; and its entry in the full stock data
    carries that price together with the newest [min (n + 1) 20] points of
    the history, ending with the price. *)
Theorem history_after_ticks (n : nat) (rnd : nat -> string -> Q) (clock : nat -> Z) :
  exists st data,
    run_ticks n rnd clock Engine.seed = Some st
    ∧ Engine.getFullStockData st = Some data
    ∧ Forall (fun t =>
                exists p h d,
                  Engine.stockPrices st !! t = Some p
                  ∧ Engine.priceHistory st !! t = Some h
                  ∧ length h = Nat.min (n + 1) 50
                  ∧ last h = Some p
                  ∧ data !! t = Some d
                  ∧ Engine.price d = p
                  ∧ Engine.history d `suffix_of` h
                  ∧ length (Engine.history d) = Nat.min (n + 1) 20
                  ∧ last (Engine.history d) = Some p)
             Engine.SUPPORTED_STOCKS.
Proof.
  destruct (run_ticks_tracks n rnd clock) as (st & Hrun & Hst & Htr).
  destruct (getFullStockData_total st Hst) as (data & Hdata & Hlook).
  exists st, data. split; [done|]. split; [done|].
  apply Forall_forall. intros t Ht.
  destruct (Htr t Ht) as (p & h & Hp & Hh & Hlast & Hlen).
  destruct (stockDataOf_total st t Hst Ht) as (p' & c & h' & Hp' & Hh' & Hd).
  rewrite Hp in Hp'. rewrite Hh in Hh'. injection Hp' as <-. injection Hh' as <-.
  destruct (slice_last_facts 20 h ltac:(lia)) as (Hsuf & Hslen & Hslast).
  exists p, h. eexists. split; [done|]. split; [done|]. split; [done|].
  split; [done|]. split; [by rewrite (Hlook t Ht)|].
  cbn [Engine.price Engine.history]. split; [done|]. split; [done|].
  split; [lia | congruence].
Qed.

(** ** Connections, resynchronisation and the tick (stockSocket.js) *)

Lemma getTickerRoom_inj (t t' : string) :
  Rooms.getTickerRoom t = Rooms.getTickerRoom t' -> t = t'.
Proof. unfold Rooms.getTickerRoom. simpl. by intros [=]. Qed.

Lemma userRoom_prefix (userId : N) :
  Str.startsWith "ticker:" (Socket.userRoom userId) = false.
Proof. reflexivity. Qed.

Lemma ticker_room_synced (rooms : gset string) (tickers : list string) (t : string) :
  Rooms.getTickerRoom t ∈ Rooms.syncTickerRooms rooms tickers <-> t ∈ tickers.
Proof.
  rewrite elem_of_syncTickerRooms, getTickerRoom_prefix.
  rewrite elem_of_list_to_set, list_elem_of_fmap. split.
  - intros [[_ (t' & Heq & Ht')]|[? _]]; [|done].
    by apply getTickerRoom_inj in Heq as ->.
  - intros Ht. left. split; [done|]. by exists t.
Qed.

Lemma received_price_update (rnd : string -> Q) (now : Z) (st st' : Engine.State)
    (emitted : list (Socket.Target * Socket.Event)) (rooms : gset string)
    (t : string) :
  Socket.broadcast rnd now st = Some (st', emitted) ->
  (exists p c h ts,
     Socket.price_update t p c h ts ∈ Socket.received rooms emitted)
  <-> t ∈ Engine.SUPPORTED_STOCKS ∧ Rooms.getTickerRoom t ∈ rooms.
Proof.
  intros H. apply broadcast_inv in H as (data & updates & _ & -> & Hall).
  unfold Socket.received. split.
  - intros (p & c & h & ts & Hin).
    apply list_elem_of_fmap in Hin as ([tg e] & He & Hin). simpl in He. subst e.
    apply list_elem_of_In, List.filter_In in Hin as [Hin Hreach].
    apply list_elem_of_In in Hin. apply elem_of_cons in Hin as [[=]|Hin].
    apply list_elem_of_lookup in Hin as [i Hi].
    destruct (Forall2_lookup_r _ _ _ _ _ Hall Hi)
      as (ticker & Hticker & d & _ & [= -> -> _ _ _ _]).
    split; [by eapply list_elem_of_lookup_2|].
    cbn [fst Socket.reaches] in Hreach. by apply bool_decide_eq_true in Hreach.
  - intros [Ht Hroom]. apply list_elem_of_lookup in Ht as [i Hi].
    destruct (Forall2_lookup_l _ _ _ _ _ Hall Hi) as (te & Hte & d & _ & ->).
    exists (Engine.price d), (Engine.change d), (Engine.history d), now.
    apply list_elem_of_fmap.
    exists (Socket.ToRoom (Rooms.getTickerRoom t),
            Socket.price_update t (Engine.price d) (Engine.change d)
              (Engine.history d) now).
    split; [done|]. apply list_elem_of_In, List.filter_In. split.
    + apply list_elem_of_In. right. by eapply list_elem_of_lookup_2.
    + cbn [fst Socket.reaches]. by apply bool_decide_eq_true.
Qed.

Lemma resync_receives (db : User.Collection) (st st2 : Engine.State)
    (nowc now : Z) (userId : N) (user : User.t) (rooms : gset string)
    (rnd : string -> Q) :
  Inv.holds st -> Inv.holds st2 ->
  User.findById userId db = Some user ->
  exists rooms' data st' emitted,
    Socket.resync db st nowc userId rooms
    = Some (rooms', [Socket.subscribed_stocks (User.subscribedStocks user);
                     Socket.prices_snapshot data nowc])
    ∧ Engine.getFullStockData st = Some data
    ∧ (forall r, Str.startsWith "ticker:" r = false -> r ∈ rooms' <-> r ∈ rooms)
    ∧ Socket.broadcast rnd now st2 = Some (st', emitted)
    ∧ forall t,
        (exists p c h ts,
           Socket.price_update t p c h ts ∈ Socket.received rooms' emitted)
        <-> t ∈ Engine.SUPPORTED_STOCKS ∧ t ∈ User.subscribedStocks user.
Proof.
  intros Hst Hst2 Hfind.
  destruct (getFullStockData_total st Hst) as (data & Hdata & _).
  destruct (broadcast_total rnd now st2 Hst2) as (st' & emitted & Hb).
  exists (Rooms.syncTickerRooms rooms (User.subscribedStocks user)), data, st', emitted.
  split.
  { unfold Socket.resync. rewrite Hfind. cbn [mbind option_bind].
    by rewrite Hdata. }
  split; [done|]. split.
  { intros r Hr. rewrite elem_of_syncTickerRooms. rewrite Hr. naive_solver. }
  split; [done|].
  intros t. rewrite (received_price_update rnd now st2 st' emitted _ t Hb).
  by rewrite ticker_room_synced.
Qed.

(** X18. A connection made at any state the scheduler can reach, by a
    user whose document exists, is sent its stored list and the full stock
    data, keeps its personal room, and from then on receives at a tick a
    [price_update] for a ticker exactly when the ticker is supported and in
    the stored list; the rooms the socket was in before do not matter. *)
Theorem connection_receives_subscribed_updates
    (db : User.Collection) (userId : N) (user : User.t) (rooms : gset string)
    (n m : nat) (rnds : nat -> string -> Q) (clock : nat -> Z)
    (st st2 : Engine.State) (nowc now : Z) (rnd : string -> Q) :
  run_ticks n rnds clock Engine.seed = Some st ->
  run_ticks m rnds clock Engine.seed = Some st2 ->
  User.findById userId db = Some user ->
  exists rooms' data st' emitted,
    Socket.onConnection db st nowc userId rooms
    = Some (rooms', [Socket.subscribed_stocks (User.subscribedStocks user);
                     Socket.prices_snapshot data nowc])
    ∧ Engine.getFullStockData st = Some data
    ∧ Socket.userRoom userId ∈ rooms'
    ∧ Socket.broadcast rnd now st2 = Some (st', emitted)
    ∧ forall t,
        (exists p c h ts,
           Socket.price_update t p c h ts ∈ Socket.received rooms' emitted)
        <-> t ∈ Engine.SUPPORTED_STOCKS ∧ t ∈ User.subscribedStocks user.
Proof.
  intros Hst Hst2 Hfind.
  apply run_ticks_reachable in Hst, Hst2.
  destruct (resync_receives db st st2 nowc now userId user
              (Rooms.join (Socket.userRoom userId) rooms) rnd Hst Hst2 Hfind)
    as (rooms' & data & st' & emitted & Hre & Hdata & Hkeep & Hb & Hrecv).
  exists rooms', data, st', emitted.
  split; [exact Hre|]. split; [done|]. split.
  { apply Hkeep; [apply userRoom_prefix|]. unfold Rooms.join. set_solver. }
  split; [done|]. exact Hrecv.
Qed.

Lemma connection_receives_subscribed_updates_witness :
  exists rooms' data st' emitted,
    Socket.onConnection [Sample.with_stocks ["GOOG"; "DOGE"] Sample.ann]
      Engine.seed 5 1%N {["ticker:AAPL"]}
    = Some (rooms', [Socket.subscribed_stocks ["GOOG"; "DOGE"];
                     Socket.prices_snapshot data 5])
    ∧ Engine.getFullStockData Engine.seed = Some data
    ∧ Socket.userRoom 1%N ∈ rooms'
    ∧ Socket.broadcast (fun _ => 3 # 4) 1000 Engine.seed = Some (st', emitted)
    ∧ forall t,
        (exists p c h ts,
           Socket.price_update t p c h ts ∈ Socket.received rooms' emitted)
        <-> t ∈ Engine.SUPPORTED_STOCKS ∧ t ∈ ["GOOG"; "DOGE"].
Proof.
  apply (connection_receives_subscribed_updates
           [Sample.with_stocks ["GOOG"; "DOGE"] Sample.ann] 1%N
           (Sample.with_stocks ["GOOG"; "DOGE"] Sample.ann) {["ticker:AAPL"]}
           0 0 (fun _ _ => 0%Q) (fun _ => 0) Engine.seed Engine.seed 5 1000
           (fun _ => 3 # 4)); reflexivity.
Defined.

(** X19. A subscription change reaches the socket through the next
    resynchronisation: after an accepted subscribe, the resync of a
    connection of that user makes it receive the ticker's [price_update]
    at a tick; after an accepted unsubscribe, the resync makes it receive
    none for that ticker. *)
Theorem subscription_change_reaches_socket
    (db : User.Collection) (userId : N) (ticker : option string)
    (rooms : gset string) (n m : nat) (rnds : nat -> string -> Q)
    (clock : nat -> Z) (st st2 : Engine.State) (nowc now : Z)
    (rnd : string -> Q) :
  run_ticks n rnds clock Engine.seed = Some st ->
  run_ticks m rnds clock Engine.seed = Some st2 ->
  (forall resp db',
     Stocks.subscribeStock db userId ticker = (resp, db') ->
     Http.success resp = true ->
     exists rooms' evs st' emitted,
       Socket.resync db' st nowc userId rooms = Some (rooms', evs)
       ∧ Socket.broadcast rnd now st2 = Some (st', emitted)
       ∧ exists p c h,
           Socket.price_update (Stocks.normalize ticker) p c h now
           ∈ Socket.received rooms' emitted)
  ∧ (forall resp db',
       Stocks.unsubscribeStock db userId ticker = (resp, db') ->
       Http.success resp = true ->
       exists rooms' evs st' emitted,
         Socket.resync db' st nowc userId rooms = Some (rooms', evs)
         ∧ Socket.broadcast rnd now st2 = Some (st', emitted)
         ∧ forall p c h ts,
             Socket.price_update (Stocks.normalize ticker) p c h ts
             ∉ Socket.received rooms' emitted).
Proof.
  intros Hst Hst2. apply run_ticks_reachable in Hst, Hst2.
  split; intros resp db' Hop Hok.
  - unfold Stocks.subscribeStock, Stocks.subscribeStock_at in Hop.
    destruct (Stocks.unsupported (Stocks.normalize ticker)) eqn:Hsup;
      [by injection Hop as <- _|].
    destruct (User.findById userId db) as [user|] eqn:Hfind;
      [|by injection Hop as <- _].
    destruct (Str.includes _ (User.subscribedStocks user));
      [by injection Hop as <- _|].
    destruct (User.validate_loaded _); [|by injection Hop as <- _].
    injection Hop as _ <-.
    pose proof (findById_updateById userId
                  (User.set_subscribedStocks
                     (User.subscribedStocks user ++ [Stocks.normalize ticker]))
                  db user (fun _ => eq_refl) Hfind) as Hfind'.
    destruct (resync_receives _ st st2 nowc now userId _ rooms rnd Hst Hst2 Hfind')
      as (rooms' & data & st' & emitted & Hre & _ & _ & Hb & Hrecv).
    exists rooms'. eexists. exists st', emitted.
    split; [exact Hre|]. split; [exact Hb|].
    destruct (proj2 (Hrecv (Stocks.normalize ticker))) as (p & c & h & ts & Hin).
    { split.
      - unfold Stocks.unsupported in Hsup.
        apply orb_false_elim in Hsup as [_ Hinc].
        apply negb_false_iff, includes_true in Hinc. exact Hinc.
      - cbn [User.subscribedStocks User.set_subscribedStocks].
        apply elem_of_app. right. by left. }
    exists p, c, h.
    assert (ts = now) as <-; [|done].
    apply broadcast_inv in Hb as (data2 & updates & _ & -> & Hall).
    unfold Socket.received in Hin.
    apply list_elem_of_fmap in Hin as ([tg e] & He & Hin). simpl in He. subst e.
    apply list_elem_of_In, List.filter_In in Hin as [Hin _].
    apply list_elem_of_In in Hin. apply elem_of_cons in Hin as [[=]|Hin].
    apply list_elem_of_lookup in Hin as [i Hi].
    by destruct (Forall2_lookup_r _ _ _ _ _ Hall Hi)
      as (tk & _ & d & _ & [= _ _ _ _ _ ->]).
  - unfold Stocks.unsubscribeStock, Stocks.unsubscribeStock_at in Hop.
    destruct (Stocks.unsupported (Stocks.normalize ticker)) eqn:Hsup;
      [by injection Hop as <- _|].
    destruct (User.findById userId db) as [user|] eqn:Hfind;
      [|by injection Hop as <- _].
    destruct (negb (Str.includes _ (User.subscribedStocks user)));
      [by injection Hop as <- _|].
    destruct (User.validate_loaded _); [|by injection Hop as <- _].
    injection Hop as _ <-.
    pose proof (findById_updateById userId
                  (User.set_subscribedStocks
                     (List.filter
                        (fun s => negb (String.eqb s (Stocks.normalize ticker)))
                        (User.subscribedStocks user)))
                  db user (fun _ => eq_refl) Hfind) as Hfind'.
    destruct (resync_receives _ st st2 nowc now userId _ rooms rnd Hst Hst2 Hfind')
      as (rooms' & data & st' & emitted & Hre & _ & _ & Hb & Hrecv).
    exists rooms'. eexists. exists st', emitted.
    split; [exact Hre|]. split; [exact Hb|].
    intros p c h ts Hin.
    destruct (proj1 (Hrecv (Stocks.normalize ticker))) as [_ Hmem]; [eauto|].
    cbn [User.subscribedStocks User.set_subscribedStocks] in Hmem.
    apply js_filter_elem in Hmem as [_ Hne]. by apply Hne.
Qed.

Lemma subscription_change_reaches_socket_witness :
  (forall resp db',
     Stocks.subscribeStock [Sample.ann] 1%N (Some " goog ") = (resp, db') ->
     Http.success resp = true ->
     exists rooms' evs st' emitted,
       Socket.resync db' Engine.seed 5 1%N ∅ = Some (rooms', evs)
       ∧ Socket.broadcast (fun _ => 3 # 4) 1000 Engine.seed = Some (st', emitted)
       ∧ exists p c h,
           Socket.price_update (Stocks.normalize (Some " goog ")) p c h 1000
           ∈ Socket.received rooms' emitted)
  ∧ (forall resp db',
       Stocks.unsubscribeStock [Sample.ann] 1%N (Some " goog ") = (resp, db') ->
       Http.success resp = true ->
       exists rooms' evs st' emitted,
         Socket.resync db' Engine.seed 5 1%N ∅ = Some (rooms', evs)
         ∧ Socket.broadcast (fun _ => 3 # 4) 1000 Engine.seed = Some (st', emitted)
         ∧ forall p c h ts,
             Socket.price_update (Stocks.normalize (Some " goog ")) p c h ts
             ∉ Socket.received rooms' emitted).
Proof.
  apply (subscription_change_reaches_socket [Sample.ann] 1%N (Some " goog ") ∅
           0 0 (fun _ _ => 0%Q) (fun _ => 0) Engine.seed Engine.seed 5 1000
           (fun _ => 3 # 4)); reflexivity.
Defined.

(** ** The per-user snapshot (stockSocket.js) *)

Lemma snapshot_loop (st : Engine.State) (l : list string)
    (acc : gmap string Engine.StockData) :
  Inv.holds st ->
  exists snapshot,
    foldl (fun acc t =>
             snapshot ← acc;
             if Str.includes t Engine.SUPPORTED_STOCKS
             then d ← Engine.stockDataOf st t; Some (<[t := d]> snapshot)
             else Some snapshot)
          (Some acc) l = Some snapshot
    ∧ forall t, snapshot !! t
                = if decide (t ∈ l ∧ t ∈ Engine.SUPPORTED_STOCKS)
                  then Engine.stockDataOf st t else acc !! t.
Proof.
  intros Hst. revert acc. induction l as [|x l IH]; intros acc.
  - exists acc. split; [done|]. intros t.
    rewrite decide_False; [done|]. intros [H _]. by apply elem_of_nil in H.
  - cbn [foldl mbind option_bind].
    destruct (Str.includes x Engine.SUPPORTED_STOCKS) eqn:Hinc.
    + apply includes_true in Hinc.
      destruct (stockDataOf_total st x Hst Hinc) as (p & c & h & _ & _ & Hd).
      rewrite Hd. cbn [mbind option_bind].
      destruct (IH (<[x := Engine.mkStockData p c (Engine.slice_last 20 h)]> acc))
        as (snapshot & Hfold & Hlook).
      exists snapshot. split; [done|]. intros t. rewrite Hlook.
      destruct (decide (t ∈ l ∧ t ∈ Engine.SUPPORTED_STOCKS)) as [[Hl Hs]|Hn].
      * rewrite decide_True; [done|]. split; [by right | done].
      * destruct (decide (t = x)) as [->|Hne].
        -- rewrite lookup_insert_eq, decide_True; [done|]. split; [by left | done].
        -- rewrite lookup_insert_ne by done. rewrite decide_False; [done|].
           rewrite elem_of_cons. tauto.
    + apply includes_false in Hinc.
      destruct (IH acc) as (snapshot & Hfold & Hlook).
      exists snapshot. split; [done|]. intros t. rewrite Hlook.
      destruct (decide (t ∈ l ∧ t ∈ Engine.SUPPORTED_STOCKS)) as [[Hl Hs]|Hn].
      * rewrite decide_True; [done|]. split; [by right | done].
      * rewrite decide_False; [done|]. rewrite elem_of_cons.
        intros [[->|?] ?]; tauto.
Qed.

(** X20. At every state the scheduler can reach and for every list of
    tickers, listed in any order, repeated or unsupported, the per-user
    snapshot is built, and it is the full stock data restricted to the
    listed tickers: a listed supported ticker has the entry it has in the
    full data, every other ticker has none. *)
Theorem snapshot_is_full_data_restricted
    (n : nat) (rnds : nat -> string -> Q) (clock : nat -> Z) (st : Engine.State)
    (subscribedTickers : list string) :
  run_ticks n rnds clock Engine.seed = Some st ->
  exists snapshot data,
    Engine.getSubscribedPriceSnapshot st subscribedTickers = Some snapshot
    ∧ Engine.getFullStockData st = Some data
    ∧ (forall t, snapshot !! t
                 = if decide (t ∈ subscribedTickers) then data !! t else None)
    ∧ (forall t, is_Some (snapshot !! t)
                 <-> t ∈ subscribedTickers ∧ t ∈ Engine.SUPPORTED_STOCKS).
Proof.
  intros Hst. apply run_ticks_reachable in Hst.
  destruct (snapshot_loop st subscribedTickers ∅ Hst) as (snapshot & Hsnap & Hlook).
  destruct (fullData_loop st Engine.SUPPORTED_STOCKS ∅) as (data & Hdata & Hfull).
  { intros t Ht. destruct (stockDataOf_total st t Hst Ht) as (p & c & h & _ & _ & ->).
    eauto. }
  exists snapshot, data. split; [exact Hsnap|]. split; [exact Hdata|]. split.
  - intros t. rewrite Hlook, Hfull.
    destruct (decide (t ∈ subscribedTickers)) as [Hl|Hl];
      destruct (decide (t ∈ Engine.SUPPORTED_STOCKS)) as [Hs|Hs].
    + by rewrite decide_True.
    + rewrite decide_False by tauto. done.
    + rewrite decide_False by tauto. done.
    + rewrite decide_False by tauto. done.
  - intros t. rewrite Hlook.
    destruct (decide (t ∈ subscribedTickers ∧ t ∈ Engine.SUPPORTED_STOCKS))
      as [[Hl Hs]|Hn].
    + destruct (stockDataOf_total st t Hst Hs) as (p & c & h & _ & _ & ->).
      split; [done | eauto].
    + rewrite lookup_empty. split; [by intros [? ?] | done].
Qed.

Lemma snapshot_is_full_data_restricted_witness :
  exists snapshot data,
    Engine.getSubscribedPriceSnapshot Engine.seed ["MSFT"; "DOGE"; "MSFT"]
    = Some snapshot
    ∧ Engine.getFullStockData Engine.seed = Some data
    ∧ (forall t, snapshot !! t
                 = if decide (t ∈ ["MSFT"; "DOGE"; "MSFT"]) then data !! t else None)
    ∧ (forall t, is_Some (snapshot !! t)
                 <-> t ∈ ["MSFT"; "DOGE"; "MSFT"] ∧ t ∈ Engine.SUPPORTED_STOCKS).
Proof.
  apply (snapshot_is_full_data_restricted 0 (fun _ _ => 0%Q) (fun _ => 0)
           Engine.seed ["MSFT"; "DOGE"; "MSFT"]).
  reflexivity.
Defined.

(** ** The clean-up script (cleanupSubscriptions.js) *)

Lemma filter_length_le {A} (f : A -> bool) (l : list A) :
  (length (List.filter f l) <= length l)%nat.
Proof. induction l as [|a l IH]; simpl; [done|]. destruct (f a); simpl; lia. Qed.

Lemma filter_length_id {A} (f : A -> bool) (l : list A) :
  length (List.filter f l) = length l -> List.filter f l = l.
Proof.
  induction l as [|a l IH]; simpl; [done|].
  pose proof (filter_length_le f l).
  destruct (f a); simpl; intros H'; [f_equal; apply IH|]; lia.
Qed.

Lemma validSubscriptions_supported (l : list string) (t : string) :
  t ∈ Cleanup.validSubscriptions l <-> t ∈ l ∧ t ∈ Cleanup.SUPPORTED_STOCKS.
Proof.
  unfold Cleanup.validSubscriptions.
  by rewrite !list_elem_of_In, List.filter_In, includes_true, !list_elem_of_In.
Qed.

Lemma validSubscriptions_idem (l : list string) :
  Cleanup.validSubscriptions (Cleanup.validSubscriptions l)
  = Cleanup.validSubscriptions l.
Proof.
  unfold Cleanup.validSubscriptions.
  induction l as [|a l IH]; simpl; [done|].
  destruct (Str.includes a Cleanup.SUPPORTED_STOCKS) eqn:E; simpl; [|done].
  by rewrite E, IH.
Qed.

Lemma validate_validSubscriptions (l : list string) :
  User.validate_subscribedStocks (Cleanup.validSubscriptions l) = [].
Proof.
  unfold User.validate_subscribedStocks, Cleanup.validSubscriptions.
  induction l as [|a l IH]; simpl; [done|].
  destruct (Str.includes a Cleanup.SUPPORTED_STOCKS) eqn:E; simpl; [|done].
  change User.enum_values with Cleanup.SUPPORTED_STOCKS. by rewrite E.
Qed.

Lemma updateById_fresh (id : N) (f : User.t -> User.t) (db : User.Collection) :
  id ∉ User._id <$> db -> User.updateById id f db = db.
Proof.
  unfold User.updateById. induction db as [|d db IH]; simpl; [done|].
  intros Hn. apply not_elem_of_cons in Hn as [Hne Hn].
  destruct (N.eqb_spec (User._id d) id) as [E|_]; [congruence|].
  f_equal. by apply IH.
Qed.

Lemma cleanUser_step (pre rest : User.Collection) (u : User.t) :
  let cleaned := fun d : User.t =>
    User.set_subscribedStocks
      (Cleanup.validSubscriptions (User.subscribedStocks d)) d in
  NoDup (User._id <$> (pre ++ u :: rest)%list) ->
  Cleanup.cleanUser u ((cleaned <$> pre) ++ u :: rest)%list
  = if decide (Cleanup.validSubscriptions (User.subscribedStocks u)
               = User.subscribedStocks u
               ∨ (User.validate_name (User.name u)
                    ++ User.validate_email (User.email u))%list = [])
    then Some ((cleaned <$> (pre ++ [u])%list) ++ rest)%list
    else None.
Proof.
  intros cleaned Hnd. unfold Cleanup.cleanUser.
  destruct (Nat.eqb_spec (length (User.subscribedStocks u))
              (length (Cleanup.validSubscriptions (User.subscribedStocks u))))
    as [Hlen|Hlen].
  - symmetry in Hlen. apply filter_length_id in Hlen.
    fold (Cleanup.validSubscriptions (User.subscribedStocks u)) in Hlen.
    rewrite decide_True by (by left).
    rewrite fmap_app, <- app_assoc. cbn [fmap list_fmap app].
    assert (cleaned u = u) as ->; [|done].
    unfold cleaned. rewrite Hlen. by destruct u.
  - assert (Cleanup.validSubscriptions (User.subscribedStocks u)
            ≠ User.subscribedStocks u) as Hne by (intros E; by rewrite E in Hlen).
    unfold User.validate_loaded.
    cbn [User.name User.email User.subscribedStocks User.set_subscribedStocks].
    rewrite validate_validSubscriptions, app_nil_r.
    destruct (User.validate_name (User.name u) ++ User.validate_email (User.email u))%list
      as [|e errs] eqn:Hval.
    + rewrite decide_True by (by right). f_equal.
      rewrite fmap_app, <- app_assoc. cbn [fmap list_fmap app].
      rewrite fmap_app, fmap_cons in Hnd.
      apply NoDup_app in Hnd as (_ & Hpre & Hrest).
      apply NoDup_cons in Hrest as [Hrest _].
      unfold User.updateById. rewrite List.map_app. cbn [List.map].
      rewrite N.eqb_refl. f_equal; [|f_equal].
      * apply updateById_fresh. rewrite <- list_fmap_compose.
        intros Hin. apply (Hpre (User._id u)); [exact Hin | by left].
      * by apply updateById_fresh.
    + rewrite decide_False; [done|]. intros [?|?]; done.
Qed.

Lemma cleanup_loop_ok (pre users : User.Collection) :
  let cleaned := fun d : User.t =>
    User.set_subscribedStocks
      (Cleanup.validSubscriptions (User.subscribedStocks d)) d in
  NoDup (User._id <$> (pre ++ users)%list) ->
  Forall (fun u =>
            Cleanup.validSubscriptions (User.subscribedStocks u)
            = User.subscribedStocks u
            ∨ (User.validate_name (User.name u)
                 ++ User.validate_email (User.email u))%list = []) users ->
  Cleanup.loop users ((cleaned <$> pre) ++ users)%list
  = (cleaned <$> (pre ++ users)%list, 0).
Proof.
  cbv zeta. revert pre.
  induction users as [|u rest IH]; intros pre Hnd Hall.
  - by rewrite !app_nil_r.
  - apply Forall_cons in Hall as [Hu Hall]. cbn [Cleanup.loop].
    rewrite (cleanUser_step pre rest u Hnd). rewrite decide_True by done.
    rewrite (IH (pre ++ [u])%list); rewrite <- ?app_assoc; done.
Qed.

Lemma cleanup_loop_stops (pre mid suf : User.Collection) (u : User.t) :
  let cleaned := fun d : User.t =>
    User.set_subscribedStocks
      (Cleanup.validSubscriptions (User.subscribedStocks d)) d in
  let savable := fun u : User.t =>
    Cleanup.validSubscriptions (User.subscribedStocks u)
    = User.subscribedStocks u
    ∨ (User.validate_name (User.name u)
         ++ User.validate_email (User.email u))%list = [] in
  NoDup (User._id <$> (pre ++ mid ++ u :: suf)%list) ->
  Forall savable mid -> ¬ savable u ->
  Cleanup.loop (mid ++ u :: suf) ((cleaned <$> pre) ++ mid ++ u :: suf)%list
  = ((cleaned <$> (pre ++ mid)%list) ++ u :: suf, 1)%list.
Proof.
  cbv zeta. revert pre.
  induction mid as [|x mid IH]; intros pre Hnd Hall Hu.
  - cbn [app Cleanup.loop]. rewrite (cleanUser_step pre suf u Hnd).
    rewrite decide_False by exact Hu. by rewrite app_nil_r.
  - apply Forall_cons in Hall as [Hx Hall]. cbn [app Cleanup.loop].
    rewrite (cleanUser_step pre (mid ++ u :: suf)%list x Hnd).
    rewrite decide_True by exact Hx.
    rewrite (IH (pre ++ [x])%list); rewrite <- ?app_assoc; done.
Qed.

Lemma first_failure {A} (P : A -> Prop) (l : list A) :
  (forall x, Decision (P x)) ->
  Forall P l
  ∨ exists pre u suf, l = (pre ++ u :: suf)%list ∧ Forall P pre ∧ ¬ P u.
Proof.
  intros Hdec. induction l as [|x l [IH|(pre & u & suf & -> & Hpre & Hu)]].
  - by left.
  - destruct (Hdec x) as [Hx|Hx].
    + left. by constructor.
    + right. exists [], x, l. by repeat split.
  - destruct (Hdec x) as [Hx|Hx].
    + right. exists (x :: pre), u, suf. repeat split; [|done]. by constructor.
    + right. exists [], x, (pre ++ u :: suf)%list. by repeat split.
Qed.

(** X21. With distinct ids in the collection, the clean-up script has one
    of two outcomes. A user is savable when its list holds supported
    tickers only (it is then skipped) or its stored name and e-mail pass
    the schema validators. If every user is savable, the script exits
    with 0 and every list is filtered down to the supported tickers, in
    order, nothing else changing. Otherwise it exits with 1 at the first
    user that is not savable: the users before it are cleaned and stay
    cleaned, that user and the ones after it are left as they were. After
    an exit with 0 only supported tickers are stored and a second run
    changes nothing. *)
Theorem cleanupSubscriptions_outcome (db : User.Collection) :
  let cleaned := fun d : User.t =>
    User.set_subscribedStocks
      (Cleanup.validSubscriptions (User.subscribedStocks d)) d in
  let savable := fun u : User.t =>
    Cleanup.validSubscriptions (User.subscribedStocks u)
    = User.subscribedStocks u
    ∨ (User.validate_name (User.name u)
         ++ User.validate_email (User.email u))%list = [] in
  NoDup (User._id <$> db) ->
  (Forall savable db -> Cleanup.cleanupSubscriptions db = (cleaned <$> db, 0))
  ∧ (forall pre u suf,
       db = (pre ++ u :: suf)%list -> Forall savable pre -> ¬ savable u ->
       Cleanup.cleanupSubscriptions db = ((cleaned <$> pre) ++ u :: suf, 1)%list)
  ∧ (forall db',
       Cleanup.cleanupSubscriptions db = (db', 0) ->
       Forall (fun u => Forall (fun t => t ∈ Cleanup.SUPPORTED_STOCKS)
                               (User.subscribedStocks u)) db'
       ∧ Cleanup.cleanupSubscriptions db' = (db', 0)).
Proof.
  intros cleaned savable Hnd.
  assert (Hok : forall l, NoDup (User._id <$> l) -> Forall savable l ->
                          Cleanup.cleanupSubscriptions l = (cleaned <$> l, 0)).
  { intros l Hl Hall. unfold Cleanup.cleanupSubscriptions.
    exact (cleanup_loop_ok [] l Hl Hall). }
  assert (Hstop : forall pre u suf,
            db = (pre ++ u :: suf)%list -> Forall savable pre -> ¬ savable u ->
            Cleanup.cleanupSubscriptions db
            = ((cleaned <$> pre) ++ u :: suf, 1)%list).
  { intros pre u suf -> Hpre Hu. unfold Cleanup.cleanupSubscriptions.
    exact (cleanup_loop_stops [] pre suf u Hnd Hpre Hu). }
  split; [by apply Hok|]. split; [exact Hstop|].
  intros db' Hrun.
  destruct (first_failure savable db) as [Hall|(pre & u & suf & Hdb & Hpre & Hu)].
  { intros x. unfold savable. apply _. }
  - rewrite (Hok db Hnd Hall) in Hrun. injection Hrun as <-. split.
    + apply Forall_fmap, Forall_forall. intros u _. apply Forall_forall.
      intros t Ht. cbn in Ht. by apply validSubscriptions_supported in Ht as [_ ?].
    + assert (cleaned <$> (cleaned <$> db) = cleaned <$> db) as Hagain.
      { rewrite <- list_fmap_compose. apply list_fmap_ext. intros i u _.
        unfold compose, cleaned. cbn [User.subscribedStocks User.set_subscribedStocks].
        rewrite validSubscriptions_idem. by destruct u. }
      rewrite <- Hagain at 2. apply Hok.
      * rewrite <- list_fmap_compose. exact Hnd.
      * apply Forall_fmap, Forall_forall. intros u _. left.
        cbn. apply validSubscriptions_idem.
  - rewrite (Hstop pre u suf Hdb Hpre Hu) in Hrun. by injection Hrun.
Qed.

Lemma cleanupSubscriptions_outcome_witness :
  let db := [Sample.with_stocks ["AAPL"; "DOGE"; "MSFT"] Sample.ann;
             User.mk 2 "B" "bob@x.com" (Crypto.Bcrypt "salt" "secret2")
               ["GOOG"; "IBM"] None None None 0 None None true 0;
             User.mk 3 "Cy" "cy@x.com" (Crypto.Bcrypt "salt" "secret3")
               ["XYZ"] None None None 0 None None true 0] in
  let cleaned := fun d : User.t =>
    User.set_subscribedStocks
      (Cleanup.validSubscriptions (User.subscribedStocks d)) d in
  let savable := fun u : User.t =>
    Cleanup.validSubscriptions (User.subscribedStocks u)
    = User.subscribedStocks u
    ∨ (User.validate_name (User.name u)
         ++ User.validate_email (User.email u))%list = [] in
  NoDup (User._id <$> db)
  ∧ (Forall savable db -> Cleanup.cleanupSubscriptions db = (cleaned <$> db, 0))
  ∧ (forall pre u suf,
       db = (pre ++ u :: suf)%list -> Forall savable pre -> ¬ savable u ->
       Cleanup.cleanupSubscriptions db = ((cleaned <$> pre) ++ u :: suf, 1)%list)
  ∧ (forall db',
       Cleanup.cleanupSubscriptions db = (db', 0) ->
       Forall (fun u => Forall (fun t => t ∈ Cleanup.SUPPORTED_STOCKS)
                               (User.subscribedStocks u)) db'
       ∧ Cleanup.cleanupSubscriptions db' = (db', 0)).
Proof.
  intros db cleaned savable.
  assert (H : NoDup (User._id <$> db)).
  { apply (bool_decide_unpack _). vm_compute. reflexivity. }
  split; [exact H|].
  exact (cleanupSubscriptions_outcome db H).
Defined.

(** The script on that collection: Ann is cleaned, Bob (a one-letter name)
    makes [save()] throw, Cy is never reached. *)
Example cleanup_example :
  Cleanup.cleanupSubscriptions
    [Sample.with_stocks ["AAPL"; "DOGE"; "MSFT"] Sample.ann;
     User.mk 2 "B" "bob@x.com" (Crypto.Bcrypt "salt" "secret2")
       ["GOOG"; "IBM"] None None None 0 None None true 0;
     User.mk 3 "Cy" "cy@x.com" (Crypto.Bcrypt "salt" "secret3")
       ["XYZ"] None None None 0 None None true 0]
  = ([Sample.with_stocks ["AAPL"; "MSFT"] Sample.ann;
      User.mk 2 "B" "bob@x.com" (Crypto.Bcrypt "salt" "secret2")
        ["GOOG"; "IBM"] None None None 0 None None true 0;
      User.mk 3 "Cy" "cy@x.com" (Crypto.Bcrypt "salt" "secret3")
        ["XYZ"] None None None 0 None None true 0], 1).
Proof. vm_compute. reflexivity. Qed.

(** ** The session kept by the client (api.js) *)

Lemma logout_clears (b : Client.Browser) :
  Client.logout b
  = Client.mkBrowser (Client.mkStore None None None None None None)
                     (Client.mkStore None None None None None None).
Proof. reflexivity. Qed.

Lemma present_idem (t : option Crypto.RawToken) :
  Auth.present (Auth.present t) = Auth.present t.
Proof. by destruct t as [[[|? ?]|? ?]|]. Qed.

Lemma client_login_stored (b : Client.Browser) (response : Http.Response)
    (a : Crypto.RawToken) (r : option Crypto.RawToken) (e : Z)
    (u : Http.UserView) (rememberMe : bool) (t0 : Z) (sid : string) :
  Http.success response = true ->
  Http.data response = Http.Session a r e u ->
  let kept :=
    Client.mkStore (Some a) (Auth.present r) (Some u) (Some (t0 + e)) (Some sid) in
  Client.login response rememberMe t0 sid (Client.logout b)
  = Some (if rememberMe
          then Client.mkBrowser (kept (Some "true"))
                 (Client.mkStore None None None None None None)
          else Client.mkBrowser
                 (Client.mkStore None None None None None (Some "false"))
                 (kept None)).
Proof.
  intros Hok Hdata. unfold Client.login. rewrite Hok, Hdata, logout_clears.
  destruct rememberMe; cbn; unfold Client.store_session; cbn;
    by destruct (Auth.present r).
Qed.

(** X22. Whatever the browser held, after [logout] nothing of the session
    is left in either storage area; and a session answer stored by
    [login] from there goes to local storage with [rememberMe] and to
    session storage without, the other area holding no session data. The
    getters then return the stored token, user and session id, the
    refresh request carries the refresh token of the answer if it had a
    truthy one, [isAuthenticated] holds up to the stored expiry and after it
    only with a stored refresh token, and [isTokenExpiringSoon] holds from
    two minutes before the expiry on. *)
Theorem client_session (b : Client.Browser) (response : Http.Response)
    (a : Crypto.RawToken) (r : option Crypto.RawToken) (e : Z)
    (u : Http.UserView) (rememberMe : bool) (t0 : Z) (sid : string) :
  Http.success response = true ->
  Http.data response = Http.Session a r e u ->
  (forall now,
     Client.isAuthenticated now (Client.logout b) = false
     ∧ Client.isTokenExpiringSoon now (Client.logout b) = false)
  ∧ Client.getToken (Client.logout b) = None
  ∧ Client.getCurrentUser (Client.logout b) = None
  ∧ Client.refreshToken_body (Client.logout b) = None
  ∧ exists b1,
      Client.login response rememberMe t0 sid (Client.logout b) = Some b1
      ∧ Client.getStorage b1 = (if rememberMe then Client.InLocal else Client.InSession)
      ∧ Client.area (if rememberMe then Client.InSession else Client.InLocal) b1
        = Client.mkStore None None None None None
            (if rememberMe then None else Some "false")
      ∧ Client.getToken b1 = Some a
      ∧ Client.getCurrentUser b1 = Some u
      ∧ Client.getSessionId b1 = Some sid
      ∧ Client.refreshToken_body b1 = Auth.present r
      ∧ (forall now,
           Client.isAuthenticated now b1
           = match Auth.present (Some a) with
             | None => false
             | Some _ =>
                 if t0 + e <? now
                 then bool_decide (is_Some (Auth.present r))
                 else true
             end)
      ∧ (forall now,
           Client.isTokenExpiringSoon now b1 = (t0 + e - 2 * 60 * 1000 <? now)).
Proof.
  intros Hok Hdata. rewrite logout_clears.
  split; [done|]. split; [done|]. split; [done|]. split; [done|].
  eexists. split.
  { rewrite <- (logout_clears b).
    exact (client_login_stored b response a r e u rememberMe t0 sid Hok Hdata). }
  destruct rememberMe;
    unfold Client.getToken, Client.getCurrentUser, Client.getSessionId,
      Client.refreshToken_body, Client.isAuthenticated, Client.isTokenExpiringSoon;
    cbn [Client.getStorage Client.area Client.localStorage Client.sessionStorage
         Client.rememberMe Client.accessToken Client.refreshToken Client.user
         Client.tokenExpiry Client.sessionId String.eqb Ascii.eqb Bool.eqb];
    rewrite present_idem; by repeat split.
Qed.

Lemma client_session_witness :
  let response :=
    Http.ok 200 (Some "Login successful")
      (Http.Session Sample.access_token None 900000 (Auth.view Sample.ann)) in
  let b := Client.mkBrowser
             (Client.mkStore (Some (Crypto.Garbage "old")) None None (Some 7) None
                (Some "true"))
             (Client.mkStore None None None None None None) in
  (forall now,
     Client.isAuthenticated now (Client.logout b) = false
     ∧ Client.isTokenExpiringSoon now (Client.logout b) = false)
  ∧ Client.getToken (Client.logout b) = None
  ∧ Client.getCurrentUser (Client.logout b) = None
  ∧ Client.refreshToken_body (Client.logout b) = None
  ∧ exists b1,
      Client.login response false 5000 "session_5000_k3" (Client.logout b) = Some b1
      ∧ Client.getStorage b1 = Client.InSession
      ∧ Client.area Client.InLocal b1
        = Client.mkStore None None None None None (Some "false")
      ∧ Client.getToken b1 = Some Sample.access_token
      ∧ Client.getCurrentUser b1 = Some (Auth.view Sample.ann)
      ∧ Client.getSessionId b1 = Some "session_5000_k3"
      ∧ Client.refreshToken_body b1 = Auth.present None
      ∧ (forall now,
           Client.isAuthenticated now b1
           = match Auth.present (Some Sample.access_token) with
             | None => false
             | Some _ =>
                 if 5000 + 900000 <? now
                 then bool_decide (is_Some (Auth.present None))
                 else true
             end)
      ∧ (forall now,
           Client.isTokenExpiringSoon now b1 = (5000 + 900000 - 2 * 60 * 1000 <? now)).
Proof.
  intros response b.
  apply (client_session b response Sample.access_token None 900000
           (Auth.view Sample.ann) false 5000 "session_5000_k3"); reflexivity.
Defined.

(** X23. End to end: a successful login on the server, stored by the
    client from a logged-out browser. The token the request interceptor
    attaches is the access token of the answer and passes the gate exactly
    while the server's clock second is below the login second plus 15
    minutes. On the client's own clock [isAuthenticated] holds for the
    first 15 minutes after storing and afterwards only with [rememberMe]:
    without it the client holds no refresh token and its refresh request
    is never sent, although the server has set the refresh cookie; with it
    the stored refresh token is the one of the cookie. Accordingly a tick
    of the periodic refresh does nothing up to 13 minutes after storing,
    and later asks for a refresh with that token when [rememberMe] was
    set and signs the user out when it was not. *)
Theorem login_stored_by_client (env : Auth.Env) (db : User.Collection) (now : Z)
    (user : User.t) (email password : string) (rememberMe : bool)
    (b : Client.Browser) (t0 : Z) (sid : string) :
  email ≠ "" -> password ≠ "" ->
  Auth.findByEmail email db = Some user ->
  User.findById (User._id user) db = Some user ->
  User.isActive user = true ->
  User.isLocked now user = false ->
  User.comparePassword password user = true ->
  User.changedPasswordAfter (Jwt.seconds now) user = false ->
  is_Some (Auth.JWT_SECRET env) ->
  let logged :=
    Auth.login env db now (Auth.mkLoginBody (Some email) (Some password) rememberMe) in
  exists b1 accessToken d,
    Client.login (fst logged) rememberMe t0 sid (Client.logout b) = Some b1
    ∧ Client.authorization b1 = Some accessToken
    ∧ User.findById (User._id user) (snd logged) = Some d
    ∧ (forall now',
         Gate.protect env (snd logged) now' (Client.authorization b1) = Gate.Next d
         <-> Jwt.seconds now' < Jwt.seconds now + 15 * 60)
    ∧ (forall t,
         Client.isAuthenticated t b1
         = if t0 + 15 * 60 * 1000 <? t then rememberMe else true)
    ∧ is_Some (Http.cookie (fst logged))
    ∧ Client.refreshToken_body b1
      = (if rememberMe then Http.cookie (fst logged) else None)
    ∧ (forall t,
         AuthContext.refresh_tick t b1
         = if t0 + 13 * 60 * 1000 <? t
           then match Client.refreshToken_body b1 with
                | Some refreshToken => AuthContext.Request refreshToken
                | None => AuthContext.SignOut
                end
           else AuthContext.Idle).
Proof.
  intros Hemail Hpw Hfind Hid Hactive Hlocked Hmatch Hchanged Hconf logged.
  subst logged. destruct Hconf as [secret Hsecret].
  destruct (refresh_secret_configured env) as [rsecret Hrsecret]; [eauto|].
  rewrite (login_success env db now user email password rememberMe secret rsecret)
    by done.
  cbn [fst snd Http.cookie].
  set (at_ := Jwt.sign (User._id user) "access" secret (15 * 60) now).
  set (rt := Jwt.sign (User._id user) "refresh" rsecret (7 * 24 * 60 * 60) now).
  set (f := fun d => User.set_refresh (Some (Crypto.sha256 rt))
                       (Some (now + Auth.seven_days_ms))
                       (User.set_lockUntil None
                          (User.set_lastLogin (Some now)
                             (User.set_loginAttempts 0 d)))).
  assert (Hstored : User.findById (User._id user)
                      (User.updateById (User._id user) f db) = Some (f user))
    by (by apply findById_updateById).
  eexists. exists at_, (f user). split.
  { apply client_login_stored; reflexivity. }
  assert (Hauth : forall b1 : Client.Browser,
            Client.getToken b1 = Some at_ -> Client.authorization b1 = Some at_).
  { intros b1 Hb1. unfold Client.authorization. by rewrite Hb1. }
  split; [by destruct rememberMe|]. split; [done|].
  split.
  { rewrite Hauth by (by destruct rememberMe).
    intros now'. rewrite protect_Next_iff. split.
    - intros (p & k & [= <- <-] & _ & Hverify & _).
      unfold Jwt.verify in Hverify. rewrite String.eqb_refl in Hverify.
      cbn [Crypto.p_exp] in Hverify.
      destruct (Z.leb_spec (Jwt.seconds now + 15 * 60) (Jwt.seconds now'));
        [done | lia].
    - intros Hfresh. do 2 eexists. split; [reflexivity|]. split; [done|].
      split; [by apply sign_verifies|].
      cbn [Crypto.p_type Crypto.p_id Crypto.p_iat].
      split; [eauto|]. split; [done|]. split; done. }
  split.
  { intros t. destruct rememberMe; unfold Client.isAuthenticated; cbn;
      by destruct (_ <? t). }
  split; [eauto|]. split; [by destruct rememberMe|].
  intros t. unfold AuthContext.refresh_tick.
  assert (forall b1 : Client.Browser,
            Client.tokenExpiry (Client.area (Client.getStorage b1) b1)
            = Some (t0 + 15 * 60 * 1000) ->
            Client.isTokenExpiringSoon t b1 = (t0 + 13 * 60 * 1000 <? t)) as Hsoon.
  { intros b1 Hb1. unfold Client.isTokenExpiringSoon. rewrite Hb1.
    destruct (Z.ltb_spec (t0 + 15 * 60 * 1000 - 2 * 60 * 1000) t);
      destruct (Z.ltb_spec (t0 + 13 * 60 * 1000) t); done || lia. }
  rewrite Hsoon by (by destruct rememberMe). done.
Qed.

Lemma login_stored_by_client_witness :
  let logged := Auth.login Sample.env [Sample.ann] 1000
                  (Auth.mkLoginBody (Some "ann@x.com") (Some "secret1") false) in
  let b := Client.mkBrowser
             (Client.mkStore (Some (Crypto.Garbage "old")) None None (Some 7) None
                (Some "true"))
             (Client.mkStore None None None None None None) in
  exists b1 accessToken d,
    Client.login (fst logged) false 5000 "session_5000_k3" (Client.logout b) = Some b1
    ∧ Client.authorization b1 = Some accessToken
    ∧ User.findById (User._id Sample.ann) (snd logged) = Some d
    ∧ (forall now',
         Gate.protect Sample.env (snd logged) now' (Client.authorization b1)
         = Gate.Next d
         <-> Jwt.seconds now' < Jwt.seconds 1000 + 15 * 60)
    ∧ (forall t,
         Client.isAuthenticated t b1
         = if 5000 + 15 * 60 * 1000 <? t then false else true)
    ∧ is_Some (Http.cookie (fst logged))
    ∧ Client.refreshToken_body b1
      = (if false then Http.cookie (fst logged) else None)
    ∧ (forall t,
         AuthContext.refresh_tick t b1
         = if 5000 + 13 * 60 * 1000 <? t
           then match Client.refreshToken_body b1 with
                | Some refreshToken => AuthContext.Request refreshToken
                | None => AuthContext.SignOut
                end
           else AuthContext.Idle).
Proof.
  intros logged b.
  apply (login_stored_by_client Sample.env [Sample.ann] 1000 Sample.ann
           "ann@x.com" "secret1" false b 5000 "session_5000_k3").
  - discriminate.
  - discriminate.
  - reflexivity.
  - reflexivity.
  - reflexivity.
  - reflexivity.
  - reflexivity.
  - reflexivity.
  - vm_compute. eauto.
Defined.

(** ** The form checks against the handlers (RegisterPage, LoginPage) *)

Lemma empty_not_nullable (r : Regex.re) :
  Lang.empty r = true -> Regex.nullable r = false.
Proof.
  induction r as [| |p|r1 IH1 r2 IH2|r1 IH1 r2 IH2|r1 IH1]; simpl; try done.
  - intros [H|H]%orb_true_iff; [rewrite IH1 by done; done|].
    rewrite IH2 by done. apply andb_false_r.
  - intros [H1 H2]%andb_true_iff. by rewrite IH1, IH2.
Qed.

Lemma empty_deriv (c : ascii) (r : Regex.re) :
  Lang.empty r = true -> Lang.empty (Regex.deriv c r) = true.
Proof.
  induction r as [| |p|r1 IH1 r2 IH2|r1 IH1 r2 IH2|r1 IH1]; simpl; try done.
  - intros [H|H]%orb_true_iff.
    + rewrite (empty_not_nullable r1 H). simpl. by rewrite IH1.
    + destruct (Regex.nullable r1); simpl; rewrite ?IH2, H by done;
        by rewrite ?orb_true_r.
  - intros [H1 H2]%andb_true_iff. by rewrite IH1, IH2.
Qed.

Lemma empty_matches (r : Regex.re) (s : string) :
  Lang.empty r = true -> Regex.matches r s = false.
Proof.
  revert r. induction s as [|c s IH]; intros r H; simpl.
  - by apply empty_not_nullable.
  - by apply IH, empty_deriv.
Qed.

Lemma tests_deriv (P : (ascii -> bool) -> Prop) (c : ascii) (r : Regex.re) :
  Lang.tests P r -> Lang.tests P (Regex.deriv c r).
Proof.
  induction r as [| |p|r1 IH1 r2 IH2|r1 IH1 r2 IH2|r1 IH1]; simpl; try done.
  - by destruct (p c).
  - intros [H1 H2]. destruct (Regex.nullable r1); simpl; auto.
  - intros [H1 H2]. auto.
  - intros H. auto.
Qed.

Lemma deriv_rejected (ok : ascii -> bool) (c : ascii) (r : Regex.re) :
  Lang.tests (fun p => forall c, p c = true -> ok c = true) r ->
  ok c = false -> Lang.empty (Regex.deriv c r) = true.
Proof.
  intros Hr Hc.
  induction r as [| |p|r1 IH1 r2 IH2|r1 IH1 r2 IH2|r1 IH1]; simpl in *; try done.
  - destruct (p c) eqn:E; [|done]. apply Hr in E. congruence.
  - destruct Hr as [H1 H2].
    destruct (Regex.nullable r1); simpl; rewrite IH1 by done; [|done].
    by rewrite IH2.
  - destruct Hr as [H1 H2]. by rewrite IH1, IH2.
  - by rewrite IH1.
Qed.

Lemma matches_chars (ok : ascii -> bool) (r : Regex.re) (s : string) :
  Lang.tests (fun p => forall c, p c = true -> ok c = true) r ->
  Regex.matches r s = true ->
  Forall (fun c => ok c = true) (String.list_ascii_of_string s).
Proof.
  revert r. induction s as [|c s IH]; intros r Hr Hm; simpl; [constructor|].
  simpl in Hm. constructor.
  - destruct (ok c) eqn:E; [done|].
    rewrite (empty_matches _ s (deriv_rejected ok c r Hr E)) in Hm. done.
  - apply (IH (Regex.deriv c r)); [by apply tests_deriv | done].
Qed.

Lemma deriv_invariant (f : ascii -> ascii) (c : ascii) (r : Regex.re) :
  Lang.tests (fun p => forall c, p (f c) = p c) r ->
  Regex.deriv (f c) r = Regex.deriv c r.
Proof.
  induction r as [| |p|r1 IH1 r2 IH2|r1 IH1 r2 IH2|r1 IH1]; simpl; try done.
  - by intros ->.
  - intros [H1 H2]. by rewrite IH1, IH2.
  - intros [H1 H2]. by rewrite IH1, IH2.
  - intros H. by rewrite IH1.
Qed.

Lemma matches_map_chars (f : ascii -> ascii) (r : Regex.re) (s : string) :
  Lang.tests (fun p => forall c, p (f c) = p c) r ->
  Regex.matches r (Str.map_chars f s) = Regex.matches r s.
Proof.
  revert r. induction s as [|c s IH]; intros r Hr; simpl; [done|].
  rewrite (deriv_invariant f c r Hr). apply IH. by apply tests_deriv.
Qed.

Lemma email_re_no_space :
  Lang.tests (fun p => forall c, p c = true -> negb (Str.is_js_space c) = true)
             Regex.email_re.
Proof.
  assert (Hw : forall c, Regex.is_word c = true -> negb (Str.is_js_space c) = true).
  { intros [[] [] [] [] [] [] [] []]; vm_compute; congruence. }
  assert (Hd : forall c, Regex.is_dot_or_dash c = true
                         -> negb (Str.is_js_space c) = true).
  { intros [[] [] [] [] [] [] [] []]; vm_compute; congruence. }
  assert (Ha : forall d c, d = "@"%char ∨ d = "."%char ->
                 Regex.is_char d c = true -> negb (Str.is_js_space c) = true).
  { intros d c Hd' Hc. apply Ascii.eqb_eq in Hc as ->. by destruct Hd' as [->| ->]. }
  unfold Regex.email_re, Regex.local_part, Regex.Plus, Regex.Opt, Regex.w.
  cbn [Lang.tests]. repeat split; eauto.
Qed.

Lemma email_re_lower :
  Lang.tests (fun p => forall c, p (Str.lower_char c) = p c) Regex.email_re.
Proof.
  assert (Hw : forall c, Regex.is_word (Str.lower_char c) = Regex.is_word c).
  { intros [[] [] [] [] [] [] [] []]; vm_compute; congruence. }
  assert (Hd : forall c, Regex.is_dot_or_dash (Str.lower_char c)
                         = Regex.is_dot_or_dash c).
  { intros [[] [] [] [] [] [] [] []]; vm_compute; congruence. }
  assert (Ha : forall c, Regex.is_char "@"%char (Str.lower_char c)
                         = Regex.is_char "@"%char c).
  { intros [[] [] [] [] [] [] [] []]; vm_compute; congruence. }
  assert (Hp : forall c, Regex.is_char "."%char (Str.lower_char c)
                         = Regex.is_char "."%char c).
  { intros [[] [] [] [] [] [] [] []]; vm_compute; congruence. }
  unfold Regex.email_re, Regex.local_part, Regex.Plus, Regex.Opt, Regex.w.
  cbn [Lang.tests]. repeat split; eauto.
Qed.

Lemma drop_spaces_none (l : list ascii) :
  Forall (fun c => negb (Str.is_js_space c) = true) l -> Str.drop_spaces l = l.
Proof.
  intros [|c l' Hc _]; [done|]. simpl.
  apply negb_true_iff in Hc. by rewrite Hc.
Qed.

Lemma trim_none (s : string) :
  Forall (fun c => negb (Str.is_js_space c) = true) (String.list_ascii_of_string s) ->
  Str.trim s = s.
Proof.
  intros H. unfold Str.trim. rewrite (drop_spaces_none _ H).
  rewrite drop_spaces_none by (by apply Forall_rev).
  by rewrite List.rev_involutive, String.string_of_list_ascii_of_string.
Qed.

Lemma matched_email_normalises (email : string) :
  Regex.matches Regex.email_re email = true ->
  email ≠ ""
  ∧ User.set_email email = Str.toLowerCase email
  ∧ User.validate_email (User.set_email email) = [].
Proof.
  intros Hm. split; [by intros ->|].
  assert (User.set_email email = Str.toLowerCase email) as Hset.
  { unfold User.set_email. f_equal. apply trim_none.
    exact (matches_chars _ _ _ email_re_no_space Hm). }
  split; [exact Hset|]. rewrite Hset. unfold User.validate_email.
  assert (Regex.matches Regex.email_re (Str.toLowerCase email) = true) as Hl.
  { unfold Str.toLowerCase. by rewrite (matches_map_chars _ _ _ email_re_lower). }
  rewrite Hl. destruct (String.eqb_spec (Str.toLowerCase email) "") as [E|_]; [|done].
  by rewrite E in Hl.
Qed.

Lemma email_re_ascii :
  Lang.tests (fun p => forall c, p c = true -> Str.is_ascii_char c = true)
             Regex.email_re.
Proof.
  assert (Hw : forall c, Regex.is_word c = true -> Str.is_ascii_char c = true).
  { intros [[] [] [] [] [] [] [] []]; vm_compute; congruence. }
  assert (Hd : forall c, Regex.is_dot_or_dash c = true
                         -> Str.is_ascii_char c = true).
  { intros [[] [] [] [] [] [] [] []]; vm_compute; congruence. }
  assert (Ha : forall d c, d = "@"%char ∨ d = "."%char ->
                 Regex.is_char d c = true -> Str.is_ascii_char c = true).
  { intros d c Hd' Hc. apply Ascii.eqb_eq in Hc as ->. by destruct Hd' as [->| ->]. }
  unfold Regex.email_re, Regex.local_part, Regex.Plus, Regex.Opt, Regex.w.
  cbn [Lang.tests]. repeat split; eauto.
Qed.

(** An address the pattern accepts is made of ASCII characters. *)
Lemma matched_email_ascii (email : string) :
  Regex.matches Regex.email_re email = true -> Str.is_ascii email = true.
Proof.
  intros Hm. unfold Str.is_ascii. apply forallb_forall. intros c Hc.
  pose proof (matches_chars _ _ _ email_re_ascii Hm) as Hall.
  rewrite Forall_forall in Hall. apply Hall. by apply list_elem_of_In.
Qed.

Lemma trim_empty_string : Str.trim "" = "".
Proof. reflexivity. Qed.

(** X24. A registration form with a name and a password of ASCII
    characters that passes the page's [validateForm] (its e-mail is then
    made of ASCII characters as well) is never answered with one of the
    handler's own refusals for a missing field or a short password, and
    the e-mail always passes the schema.
    What the server answers is decided by two things the form does not
    check: when the e-mail, lower-cased, is already stored, 400; otherwise
    when the trimmed name is longer than 50 characters, the schema error
    answered 500; otherwise 201, and the stored user has the trimmed name,
    the lower-cased e-mail and the hashed password. *)
Theorem validated_registration (db : User.Collection) (newId : N)
    (salt : string) (now : Z) (formData : RegisterPage.FormData) :
  Str.is_ascii (RegisterPage.name formData) = true ->
  Str.is_ascii (RegisterPage.password formData) = true ->
  RegisterPage.validateForm formData = None ->
  let name := Str.trim (RegisterPage.name formData) in
  let email := Str.toLowerCase (RegisterPage.email formData) in
  Auth.register db newId salt now (RegisterPage.body formData)
  = match List.find (fun u => String.eqb (User.email u) email) db with
    | Some _ => (Http.fail 400 "User with this email already exists", db)
    | None =>
        if (50 <? String.length name)%nat
        then (Http.fail 500
                "User validation failed: name: Name cannot exceed 50 characters",
              db)
        else (Http.ok 201 (Some "Registration successful! Please login.")
                (Http.Registered newId name email),
              (db ++ [User.mk newId name email
                        (Crypto.Bcrypt salt (RegisterPage.password formData))
                        [] None None None 0 None None true now])%list)
    end.
Proof.
  intros _ _. unfold RegisterPage.validateForm, RegisterPage.body.
  destruct formData as [name email password confirm].
  cbn [RegisterPage.name RegisterPage.email RegisterPage.password
       RegisterPage.confirmPassword].
  destruct (String.eqb_spec (Str.trim name) "") as [|Hname]; [done|].
  destruct (Nat.ltb_spec (String.length (Str.trim name)) 2) as [|Hlen]; [done|].
  destruct (String.eqb (Str.trim email) ""); [done|].
  destruct (Regex.matches Regex.email_re email) eqn:Hm; [|done]. cbn [negb].
  destruct (String.eqb_spec password "") as [|Hpw]; [done|].
  destruct (Nat.ltb_spec (String.length password) 6) as [|Hpwlen]; [done|].
  intros _. cbv zeta.
  destruct (matched_email_normalises email Hm) as (Hemail & Hset & Hvalid).
  assert (name ≠ "") as Hraw by (intros ->; by apply Hname).
  unfold Auth.register.
  cbn [Auth.rb_name Auth.rb_email Auth.rb_password].
  rewrite !truthy_nonempty by done.
  cbn [andb negb default from_option]. cbv [id].
  destruct (Nat.ltb_spec (String.length password) 6) as [|_]; [lia|].
  unfold Auth.findByEmail, User.findOne. rewrite Hset.
  destruct (List.find _ db); [done|].
  unfold Auth.create. rewrite Hvalid, Hset. unfold User.set_name.
  assert (User.validate_password password = []) as ->.
  { unfold User.validate_password.
    destruct (String.eqb_spec password ""); [done|].
    destruct (Nat.ltb_spec (String.length password) 6); [lia | done]. }
  unfold User.validate_name.
  destruct (String.eqb_spec (Str.trim name) ""); [done|].
  destruct (Nat.ltb_spec (String.length (Str.trim name)) 2); [lia|].
  destruct (Nat.ltb_spec 50 (String.length (Str.trim name))); reflexivity.
Qed.

Lemma validated_registration_witness :
  let formData :=
    RegisterPage.mkFormData "  Bob " "Bob.Smith@X.com" "secret1" "secret1" in
  RegisterPage.validateForm formData = None
  ∧ let name := Str.trim (RegisterPage.name formData) in
    let email := Str.toLowerCase (RegisterPage.email formData) in
    Auth.register [Sample.ann] 2 "salt" 5000 (RegisterPage.body formData)
    = match List.find (fun u => String.eqb (User.email u) email) [Sample.ann] with
      | Some _ => (Http.fail 400 "User with this email already exists", [Sample.ann])
      | None =>
          if (50 <? String.length name)%nat
          then (Http.fail 500
                  "User validation failed: name: Name cannot exceed 50 characters",
                [Sample.ann])
          else (Http.ok 201 (Some "Registration successful! Please login.")
                  (Http.Registered 2 name email),
                ([Sample.ann]
                   ++ [User.mk 2 name email
                         (Crypto.Bcrypt "salt" (RegisterPage.password formData))
                         [] None None None 0 None None true 5000])%list)
      end.
Proof.
  intros formData. split; [reflexivity|].
  apply (validated_registration [Sample.ann] 2%N "salt" 5000 formData);
    reflexivity.
Defined.

(** The page lets a name of 51 letters through; the server answers 500. *)
Example long_name_passes_the_form :
  let formData :=
    RegisterPage.mkFormData "Abcdefghijklmnopqrstuvwxyabcdefghijklmnopqrstuvwxyz"
      "bob@x.com" "secret1" "secret1" in
  RegisterPage.validateForm formData = None
  ∧ Http.status (fst (Auth.register [Sample.ann] 2 "salt" 5000
                        (RegisterPage.body formData))) = 500.
Proof. split; reflexivity. Qed.

(** X25. The login handler answers 400 exactly when the e-mail or the
    password is missing or empty, whatever else the request and the store
    hold; so a login form that passes the page's [validateForm] is never
    answered 400. The page in turn holds back requests the handler would
    have processed: those whose e-mail is made of white space only. *)
Theorem validated_login (env : Auth.Env) (db : User.Collection) (now : Z)
    (rememberMe : bool) :
  (forall body,
     Http.status (fst (Auth.login env db now body)) = 400
     <-> Str.truthy (Auth.lb_email body) && Str.truthy (Auth.lb_password body)
         = false)
  ∧ (forall formData,
       LoginPage.validateForm formData = None ->
       Http.status (fst (Auth.login env db now (LoginPage.body formData rememberMe)))
       ≠ 400)
  ∧ (forall email password,
       email ≠ "" -> Str.trim email = "" -> password ≠ "" ->
       LoginPage.validateForm (LoginPage.mkFormData email password)
       = Some "Please enter your email"
       ∧ Http.status
           (fst (Auth.login env db now
                   (LoginPage.body (LoginPage.mkFormData email password) rememberMe)))
         ≠ 400).
Proof.
  assert (H400 : forall body,
            Http.status (fst (Auth.login env db now body)) = 400
            <-> Str.truthy (Auth.lb_email body) && Str.truthy (Auth.lb_password body)
                = false).
  { intros body. unfold Auth.login.
    destruct (Str.truthy (Auth.lb_email body) && Str.truthy (Auth.lb_password body));
      cbn [negb]; [|done].
    split; [|done]. repeat case_match; cbn; done. }
  split; [exact H400|]. split.
  - intros [email password]. unfold LoginPage.validateForm, LoginPage.body.
    cbn [LoginPage.email LoginPage.password].
    destruct (String.eqb_spec (Str.trim email) "") as [|Hemail]; [done|].
    destruct (String.eqb_spec password "") as [|Hpw]; [done|].
    intros _. rewrite H400. cbn [Auth.lb_email Auth.lb_password].
    assert (email ≠ "") as Hraw by (intros ->; by apply Hemail).
    by rewrite !truthy_nonempty.
  - intros email password Hemail Htrim Hpw. split.
    { unfold LoginPage.validateForm. cbn [LoginPage.email]. by rewrite Htrim. }
    rewrite H400. unfold LoginPage.body.
    cbn [Auth.lb_email Auth.lb_password LoginPage.email LoginPage.password].
    by rewrite !truthy_nonempty.
Qed.

(** ** Reading the list back (stockController.js) *)

(** X26. For [subscribeStock] and [unsubscribeStock] alike, the answer is
    200, 400 or 500; after a 200 a [getSubscribedStocks] of the same user
    returns exactly the list carried by that answer, and after a refusal it
    returns what it returned before. *)
Theorem subscribed_list_read_back
    (op : User.Collection -> N -> option string -> Http.Response * User.Collection)
    (db : User.Collection) (userId : N) (ticker : option string) :
  op = Stocks.subscribeStock ∨ op = Stocks.unsubscribeStock ->
  let answered := op db userId ticker in
  (Http.status (fst answered) = 200 ∨ Http.status (fst answered) = 400
   ∨ Http.status (fst answered) = 500)
  ∧ (Http.status (fst answered) = 200 ->
     Stocks.getSubscribedStocks (snd answered) userId
     = Http.ok 200 None (Http.data (fst answered)))
  ∧ (Http.status (fst answered) ≠ 200 ->
     Stocks.getSubscribedStocks (snd answered) userId
     = Stocks.getSubscribedStocks db userId).
Proof.
  intros Hop. cbv zeta.
  assert (Hread : forall user stocks,
            User.findById userId db = Some user ->
            Stocks.getSubscribedStocks
              (User.updateById userId (User.set_subscribedStocks stocks) db) userId
            = Http.ok 200 None (Http.TickerList stocks)).
  { intros user stocks Hfind. unfold Stocks.getSubscribedStocks.
    by rewrite (findById_updateById userId (User.set_subscribedStocks stocks)
                  db user (fun _ => eq_refl) Hfind). }
  destruct Hop as [-> | ->].
  - unfold Stocks.subscribeStock, Stocks.subscribeStock_at.
    destruct (Stocks.unsupported _); [refused|].
    destruct (User.findById userId db) as [user|] eqn:Hfind; [|refused].
    destruct (Str.includes _ _); [refused|].
    destruct (User.validate_loaded _); [|refused].
    cbn [fst snd Http.status Http.ok Http.data User.subscribedStocks
         User.set_subscribedStocks].
    split; [by left|]. split; [|done]. intros _. by apply (Hread user).
  - unfold Stocks.unsubscribeStock, Stocks.unsubscribeStock_at.
    destruct (Stocks.unsupported _); [refused|].
    destruct (User.findById userId db) as [user|] eqn:Hfind; [|refused].
    destruct (negb (Str.includes _ _)); [refused|].
    destruct (User.validate_loaded _); [|refused].
    cbn [fst snd Http.status Http.ok Http.data User.subscribedStocks
         User.set_subscribedStocks].
    split; [by left|]. split; [|done]. intros _. by apply (Hread user).
Qed.

Lemma subscribed_list_read_back_witness :
  let db := [Sample.with_stocks ["GOOG"; "AAPL"] Sample.ann] in
  let answered := Stocks.unsubscribeStock db 1 (Some "goog") in
  Http.data (fst answered) = Http.TickerList ["AAPL"]
  ∧ (Http.status (fst answered) = 200 ∨ Http.status (fst answered) = 400
     ∨ Http.status (fst answered) = 500)
  ∧ (Http.status (fst answered) = 200 ->
     Stocks.getSubscribedStocks (snd answered) 1
     = Http.ok 200 None (Http.data (fst answered)))
  ∧ (Http.status (fst answered) ≠ 200 ->
     Stocks.getSubscribedStocks (snd answered) 1
     = Stocks.getSubscribedStocks db 1).
Proof.
  intros db answered. split; [reflexivity|].
  apply (subscribed_list_read_back Stocks.unsubscribeStock db 1%N (Some "goog")).
  right; reflexivity.
Defined.
